(** * Browser capture tool: a model of [capture_and_analyze_video.py]

    The development embeds the browser remote-control and frame-capture
    script, together with the retrying chat client of
    [controllers/openrouter_client.py], and states the properties of the
    specification over that embedding.

    Conventions.
    - The floats the capture computes with (the duration, the frame rate and
      the readings of the performance counter) are binary64 numbers, with
      the operations of the standard specification of IEEE 754 arithmetic;
      the readings of the wall clock, the timeouts and the delays are exact
      rationals [Q]; Python [int] values are [Z].
    - Everything outside the script (the clock, the discovery endpoint, the
      debugging socket, the screen grabber, the chat endpoint, the browser
      process) is an input, gathered in the record [Env].  Each external
      call consumes the next answer of its stream; the positions are the
      state [St] the code threads.
    - A computation returns an [Outcome] (a value, a raised exception, or
      [Diverge] when the recursion budget of a [while] loop is used up), the
      new state and the list of effects it performed, in order. *)

From Stdlib Require Import ZArith QArith Qround List String Ascii Bool Lia Lqa.
From Stdlib Require Import DecimalString DecimalN SpecFloat.
Import ListNotations.

Local Open Scope Z_scope.

(** ** Numbers *)

(** Truncation toward zero, which is what [int(x)] does to the value of a
    finite float. *)
Definition py_int (q : Q) : Z := Z.quot (Qnum q) (Zpos (Qden q)).

(** Binary64 floats and their arithmetic, rounded to nearest even. *)
Definition float : Type := spec_float.
Definition prec : Z := 53.
Definition emax : Z := 1024.

Definition fmul : float -> float -> float := SFmul prec emax.
Definition fdiv : float -> float -> float := SFdiv prec emax.
Definition fsub : float -> float -> float := SFsub prec emax.

(** [a <= b] and [a < b] on floats; false when one of them is not a
    number. *)
Definition fle (a b : float) : bool := SFleb a b.
Definition flt (a b : float) : bool := SFltb a b.

(** [float(z)] for an int. *)
Definition float_of_Z (z : Z) : float := binary_normalize prec emax z 0 false.

(** [x == 0], true of both zeros. *)
Definition is_zero (x : float) : bool :=
  match x with
  | S754_zero _ => true
  | _ => false
  end.

(** The number that a sign, a mantissa and an exponent stand for. *)
Definition finite_value (s : bool) (m : positive) (e : Z) : Q :=
  let m := if s then Zneg m else Zpos m in
  match e with
  | Zneg p => m # (2 ^ p)
  | _ => inject_Z (m * 2 ^ e)
  end.

(** The number a finite float stands for. *)
Definition float_value (x : float) : option Q :=
  match x with
  | S754_zero _ => Some 0%Q
  | S754_finite s m e => Some (finite_value s m e)
  | S754_infinity _ | S754_nan => None
  end.

(** [a < b] on rationals. *)
Definition Qlt_bool (a b : Q) : bool := negb (Qle_bool b a).

(** ** Exceptions and outcomes *)

Inductive ExcClass : Type :=
| RuntimeError
| OpenRouterError          (* subclass of RuntimeError *)
| ZeroDivisionError
| ValueError
| KeyError
| OverflowError
| OSError
| RequestException         (* requests.RequestException and subclasses *)
| WebSocketTimeoutException
| WebSocketException       (* any other websocket failure *)
| KeyboardInterrupt.       (* a BaseException that is not an Exception *)

Definition ExcClass_eqb (a b : ExcClass) : bool :=
  match a, b with
  | RuntimeError, RuntimeError
  | OpenRouterError, OpenRouterError
  | ZeroDivisionError, ZeroDivisionError
  | ValueError, ValueError
  | KeyError, KeyError
  | OverflowError, OverflowError
  | OSError, OSError
  | RequestException, RequestException
  | WebSocketTimeoutException, WebSocketTimeoutException
  | WebSocketException, WebSocketException
  | KeyboardInterrupt, KeyboardInterrupt => true
  | _, _ => false
  end.

(** [isinstance(e, Exception)]. *)
Definition is_Exception (c : ExcClass) : bool :=
  match c with
  | KeyboardInterrupt => false
  | _ => true
  end.

Record Exn : Type := mkExn { exn_class : ExcClass; exn_msg : string }.

Inductive Outcome (A : Type) : Type :=
| Ok (a : A)
| Raise (e : Exn)
| Diverge.

Arguments Ok {A} a.
Arguments Raise {A} e.
Arguments Diverge {A}.

(** [int(x)] on a float. *)
Definition int_of_float (x : float) : Outcome Z :=
  match x with
  | S754_nan =>
      Raise (mkExn ValueError "cannot convert float NaN to integer")
  | S754_infinity _ =>
      Raise (mkExn OverflowError "cannot convert float infinity to integer")
  | S754_zero _ => Ok 0
  | S754_finite s m e => Ok (py_int (finite_value s m e))
  end.

Definition zero_division : Exn :=
  mkExn ZeroDivisionError "float division by zero".

(** [a / b] on floats. *)
Definition float_div (a b : float) : Outcome float :=
  if is_zero b then Raise zero_division else Ok (fdiv a b).

(** ** Data *)

(** One descriptor of the discovery endpoint's JSON array; an absent key is
    [None]. *)
Record Entry : Type := mkEntry {
  e_type : option string;
  e_url : option string;
  e_ws : option string;         (* "webSocketDebuggerUrl" *)
  e_id : option string;         (* "id" *)
  e_targetId : option string    (* "targetId" *)
}.

(** Window bounds as returned by [Browser.getWindowBounds]; an absent key is
    [None]. *)
Record Bounds : Type := mkBounds {
  b_left : option Z;
  b_top : option Z;
  b_width : option Z;
  b_height : option Z;
  b_windowState : option string
}.

(** The object evaluated in the page: screenX, screenY, outerWidth,
    outerHeight, innerWidth, innerHeight. *)
Record Viewport : Type := mkViewport {
  v_x : Z; v_y : Z; v_ow : Z; v_oh : Z; v_iw : Z; v_ih : Z
}.

Record Region : Type := mkRegion {
  r_left : Z; r_top : Z; r_width : Z; r_height : Z
}.

(** One decoded message of the debugging socket (the two receives whose
    text the script does not decode are read the same way).  [m_windowId] is
    [msg.get("result", {}).get("windowId")], [m_bounds] is
    [msg.get("result", {}).get("bounds")] and [m_value] is
    [msg.get("result", {}).get("result", {}).get("value")]. *)
Record Message : Type := mkMessage {
  m_id : option Z;
  m_method : option string;
  m_windowId : option Z;
  m_bounds : option Bounds;
  m_value : option Viewport
}.

(** What [json.loads(ws.recv())] gives: a message, or an exception. *)
Inductive Recv : Type :=
| RecvMsg (m : Message)
| RecvRaise (e : Exn).

(** What one POST to the chat endpoint gives.  [PostHttp status body]: a
    response came back; [body] is what [response.json()] would give. *)
Inductive Body : Type :=
| BodyInvalid (is_request_exc : bool)
    (* [response.json()] raises a ValueError; the flag tells whether that
       error is also a [requests.RequestException] *)
| BodyError (msg : string)       (* decoded, has an "error" member *)
| BodyData (content : option string).
    (* decoded; [content] is choices[0].message.content when present *)

Inductive Post : Type :=
| PostFails                       (* connection error or timeout *)
| PostHttp (status : Z) (body : Body).

(** ** Effects *)

Inductive Event : Type :=
| EvPrint (s : string)
| EvPrintBounds (b : Bounds)
| EvPrintViewport (v : Viewport)
| EvPrintRegion (r : Region)
| EvPrintCapturing (duration fps : float)
| EvPrintCaptured (frames : nat) (dir : string)
| EvPrintAnalyzing (model : string)
| EvSleep (seconds : Q)
| EvHttpGet (port : Z)
| EvWsConnect (url : string)
| EvWsSend (id : Z) (method : string)
| EvWsClose
| EvMkdir (dir : string)
| EvGrab (r : Region)
| EvWritePng (path : string)
| EvFocus (app_name : string)
| EvPost (model : string) (images : list string)
| EvMkdtemp (dir : string)
| EvPopen (chrome : string) (port : Z) (profile : string) (url : string)
| EvTerminate
| EvWait (seconds : Q)
| EvKill
| EvRmtree (dir : string).

(** ** The outside world *)

Record ResolvedFile : Type := mkResolvedFile {
  rf_path : string;
  rf_exists : bool;
  rf_uri : string;
  rf_name : string
}.

(** What a path gives when it is read as a file. *)
Inductive FileRead : Type :=
| FileMissing                 (* path.exists() is false *)
| FileUnreadable (e : Exn)    (* read_bytes() raises *)
| FileBytes (raw : string).

Record Env : Type := mkEnv {
  clock : nat -> Q;
    (* the readings of time.time() *)
  perf_counter : nat -> float;
    (* the readings of time.perf_counter(); the n-th reading of either
       clock is the n-th value of its stream *)
  http_get : nat -> option (list Entry);
    (* n-th GET /json; [None] when the request or its decoding raises *)
  ws_connect : nat -> option Exn;
    (* n-th websocket.create_connection; [Some e] when it raises *)
  ws_send_result : nat -> nat -> option Exn;
    (* k-th send on the n-th connection; [Some e] when it raises *)
  ws_recv : nat -> nat -> Recv;
    (* k-th receive on the n-th connection *)
  mkdir_result : option Exn;
  mss_result : option Exn;
    (* entering [with mss()]; [Some e] when it raises *)
  grab_result : Z -> option Exn;
    (* grabbing and writing frame k; [Some e] when it raises *)
  resolve_file : string -> ResolvedFile;
    (* Path(p).resolve(), with exists(), as_uri() and name of the result *)
  chrome_path : string;
  free_port : Z;
  temp_dir : string;
  popen_result : option Exn;
  wait_exits : bool;
    (* does the browser exit within the wait after terminate() *)
  time_stamp : string;
  api_key : option string;
  read_image : string -> FileRead;
  http_post : nat -> Post
}.

(** The same world with other answers of the discovery endpoint. *)
Definition set_http_get (env : Env) (g : nat -> option (list Entry)) : Env :=
  mkEnv (clock env) (perf_counter env) g (ws_connect env)
        (ws_send_result env) (ws_recv env) (mkdir_result env)
        (mss_result env) (grab_result env) (resolve_file env)
        (chrome_path env) (free_port env) (temp_dir env) (popen_result env)
        (wait_exits env) (time_stamp env) (api_key env) (read_image env)
        (http_post env).

Definition set_ws_send_result (env : Env) (r : nat -> nat -> option Exn)
    : Env :=
  mkEnv (clock env) (perf_counter env) (http_get env) (ws_connect env) r
        (ws_recv env) (mkdir_result env) (mss_result env) (grab_result env)
        (resolve_file env) (chrome_path env) (free_port env) (temp_dir env)
        (popen_result env) (wait_exits env) (time_stamp env) (api_key env)
        (read_image env) (http_post env).

Definition set_mss_result (env : Env) (r : option Exn) : Env :=
  mkEnv (clock env) (perf_counter env) (http_get env) (ws_connect env)
        (ws_send_result env) (ws_recv env) (mkdir_result env) r
        (grab_result env) (resolve_file env) (chrome_path env)
        (free_port env) (temp_dir env) (popen_result env) (wait_exits env)
        (time_stamp env) (api_key env) (read_image env) (http_post env).

Record St : Type := mkSt {
  st_clock : nat;
  st_http : nat;
  st_conn : nat;
  st_post : nat
}.

Definition st0 : St := mkSt 0 0 0 0.

(** ** The computation type *)

Definition Res (A : Type) : Type := (Outcome A * St * list Event)%type.
Definition M (A : Type) : Type := St -> Res A.

Definition prepend {A : Type} (l : list Event) (r : Res A) : Res A :=
  let '(o, s, l') := r in (o, s, l ++ l').

Definition ret {A : Type} (a : A) : M A := fun s => (Ok a, s, []).
Definition raise {A : Type} (c : ExcClass) (msg : string) : M A :=
  fun s => (Raise (mkExn c msg), s, []).
Definition reraise {A : Type} (e : Exn) : M A := fun s => (Raise e, s, []).
Definition diverge {A : Type} : M A := fun s => (Diverge, s, []).
Definition emit (ev : Event) : M unit := fun s => (Ok tt, s, [ev]).

(** The outcome of a computation without effects. *)
Definition lift {A : Type} (o : Outcome A) : M A := fun s => (o, s, []).

Definition bind {A B : Type} (m : M A) (f : A -> M B) : M B :=
  fun s =>
    let '(o, s1, l1) := m s in
    match o with
    | Ok a => prepend l1 (f a s1)
    | Raise e => (Raise e, s1, l1)
    | Diverge => (Diverge, s1, l1)
    end.

Declare Scope py_scope.
Delimit Scope py_scope with py.
Notation "x <- c1 ;; c2" := (bind c1 (fun x => c2))
  (at level 100, c1 at next level, right associativity) : py_scope.
Notation "c1 ;; c2" := (bind c1 (fun _ => c2))
  (at level 100, right associativity) : py_scope.
Local Open Scope py_scope.

(** [try: m  except <classes accepted by handles>: h e]. *)
Definition try_except {A : Type} (m : M A) (handles : ExcClass -> bool)
    (h : Exn -> M A) : M A :=
  fun s =>
    let '(o, s1, l1) := m s in
    match o with
    | Raise e => if handles (exn_class e) then prepend l1 (h e s1)
                 else (Raise e, s1, l1)
    | _ => (o, s1, l1)
    end.

(** [try: m  finally: fin].  The [finally] block runs on a value and on an
    exception; an exception of the block itself replaces the pending one. *)
Definition try_finally {A : Type} (m : M A) (fin : M unit) : M A :=
  fun s =>
    let '(o, s1, l1) := m s in
    match o with
    | Diverge => (Diverge, s1, l1)
    | _ =>
        let '(o2, s2, l2) := fin s1 in
        (match o2 with
         | Ok _ => o
         | Raise e => Raise e
         | Diverge => Diverge
         end, s2, l1 ++ l2)
    end.

Definition bare_except (_ : ExcClass) : bool := true.

(** time.time() and time.perf_counter(): the next reading of the clock. *)
Definition read_clock (env : Env) : M Q :=
  fun s => (Ok (clock env (st_clock s)),
            mkSt (S (st_clock s)) (st_http s) (st_conn s) (st_post s), []).

(** time.perf_counter(): the next reading of the performance counter. *)
Definition read_perf_counter (env : Env) : M float :=
  fun s => (Ok (perf_counter env (st_clock s)),
            mkSt (S (st_clock s)) (st_http s) (st_conn s) (st_post s), []).

(** [time.sleep(seconds)], which refuses a negative length. *)
Definition sleep (seconds : Q) : M unit :=
  if Qlt_bool seconds 0 then
    raise ValueError "sleep length must be non-negative"
  else emit (EvSleep seconds).

(** [await asyncio.sleep(seconds)]. *)
Definition asyncio_sleep (seconds : Q) : M unit := emit (EvSleep seconds).

(** An external call that may raise. *)
Definition external (ev : Event) (r : option Exn) : M unit :=
  fun s => match r with
           | None => (Ok tt, s, [ev])
           | Some e => (Raise e, s, [ev])
           end.

(** Something that may raise and leaves no trace. *)
Definition may_raise (r : option Exn) : M unit :=
  fun s => match r with
           | None => (Ok tt, s, [])
           | Some e => (Raise e, s, [])
           end.

(** ** The URL functions of the Python library

    [unquote] is urllib.parse.unquote and [url_path_name s] is
    [Path(urllib.parse.urlparse(s).path).name].  The script only compares
    their results, so they are an interface; [py_urllib] below is a model of
    the two functions on byte strings. *)

Class UrlLib : Type := mkUrlLib {
  unquote : string -> string;
  url_path_name : string -> string
}.

Definition hex_val (c : ascii) : option nat :=
  let n := nat_of_ascii c in
  if ((48 <=? n) && (n <=? 57))%nat then Some (n - 48)%nat
  else if ((65 <=? n) && (n <=? 70))%nat then Some (n - 55)%nat
  else if ((97 <=? n) && (n <=? 102))%nat then Some (n - 87)%nat
  else None.

(** Percent-decoding: "%XY" with two hexadecimal digits becomes the byte
    XY, everything else is kept.  (Python then reads the decoded bytes as
    UTF-8; here they stay bytes.) *)
Fixpoint unquote_bytes (s : string) : string :=
  match s with
  | EmptyString => EmptyString
  | String c rest =>
      match rest with
      | String h (String l rest') =>
          if Ascii.eqb c "%"%char then
            match hex_val h, hex_val l with
            | Some a, Some b =>
                String (ascii_of_nat (16 * a + b)) (unquote_bytes rest')
            | _, _ => String c (unquote_bytes rest)
            end
          else String c (unquote_bytes rest)
      | _ => String c (unquote_bytes rest)
      end
  end.

Fixpoint take_until (stop : ascii -> bool) (s : string) : string :=
  match s with
  | EmptyString => EmptyString
  | String c rest => if stop c then EmptyString
                     else String c (take_until stop rest)
  end.

Fixpoint drop_until (stop : ascii -> bool) (s : string) : string :=
  match s with
  | EmptyString => EmptyString
  | String c rest => if stop c then s else drop_until stop rest
  end.

Fixpoint string_forallb (p : ascii -> bool) (s : string) : bool :=
  match s with
  | EmptyString => true
  | String c rest => p c && string_forallb p rest
  end.

Definition is_letter (c : ascii) : bool :=
  let n := nat_of_ascii c in
  (((65 <=? n) && (n <=? 90)) || ((97 <=? n) && (n <=? 122)))%nat.

Definition is_scheme_char (c : ascii) : bool :=
  let n := nat_of_ascii c in
  (is_letter c || ((48 <=? n) && (n <=? 57))
   || (n =? 43) || (n =? 45) || (n =? 46))%nat.

Definition is_char (x c : ascii) : bool := Ascii.eqb x c.

(** Is there a scheme, that is a letter followed by scheme characters,
    before the first ":"? *)
Definition has_scheme (s : string) : bool :=
  match drop_until (is_char ":") s, take_until (is_char ":") s with
  | String _ _, String c0 pre =>
      is_letter c0 && string_forallb is_scheme_char pre
  | _, _ => false
  end.

Definition lower (c : ascii) : ascii :=
  let n := nat_of_ascii c in
  if ((65 <=? n) && (n <=? 90))%nat then ascii_of_nat (n + 32) else c.

Fixpoint string_map (f : ascii -> ascii) (s : string) : string :=
  match s with
  | EmptyString => EmptyString
  | String c rest => String (f c) (string_map f rest)
  end.

(** The scheme, in lower case; empty when there is none. *)
Definition url_scheme (s : string) : string :=
  if has_scheme s then string_map lower (take_until (is_char ":") s)
  else EmptyString.

(** The part of a URL after "scheme:". *)
Definition strip_scheme (s : string) : string :=
  match drop_until (is_char ":") s with
  | String _ rest => if has_scheme s then rest else s
  | EmptyString => s
  end.

(** The schemes whose last path segment may carry ";parameters". *)
Definition uses_params (scheme : string) : bool :=
  existsb (String.eqb scheme)
    [""; "ftp"; "hdl"; "prospero"; "http"; "imap"; "https"; "shttp"; "rtsp";
     "rtspu"; "sip"; "sips"; "mms"; "sftp"; "tel"]%string.

(** The part after "//netloc". *)
Definition strip_netloc (s : string) : string :=
  match s with
  | String a (String b rest) =>
      if is_char "/" a && is_char "/" b then
        drop_until (fun c => is_char "/" c || is_char "?" c || is_char "#" c)
                   rest
      else s
  | _ => s
  end.

(** Splits at every "/". *)
Fixpoint segments (s : string) (cur : string) : list string :=
  match s with
  | EmptyString => [cur]
  | String c rest =>
      if is_char "/" c then cur :: segments rest EmptyString
      else segments rest (cur ++ String c EmptyString)%string
  end.

(** [urlparse(s).path] cut into its segments: the scheme, the network
    location, the fragment and the query are removed, and so are the
    parameters of the last segment for the schemes that have them. *)
Definition url_path_segments (s : string) : list string :=
  let p := strip_netloc (strip_scheme s) in
  let p := take_until (is_char "#") p in
  let p := take_until (is_char "?") p in
  match rev (segments p EmptyString) with
  | last :: others =>
      if uses_params (url_scheme s)
      then rev (take_until (is_char ";") last :: others)
      else segments p EmptyString
  | [] => []
  end.

(** [Path(p).name]: the last segment that is neither empty nor ".". *)
Definition last_name (segs : list string) : string :=
  fold_left
    (fun acc seg =>
       if String.eqb seg EmptyString || String.eqb seg "."%string
       then acc else seg)
    segs EmptyString.

Definition py_urllib : UrlLib :=
  mkUrlLib unquote_bytes (fun s => last_name (url_path_segments s)).

(** ** Target discovery *)

(** A string value that is present and not empty. *)
Definition truthy (o : option string) : option string :=
  match o with
  | Some s => if String.eqb s EmptyString then None else Some s
  | None => None
  end.

(** [a or b] on two optional strings. *)
Definition py_or (a b : option string) : option string :=
  match truthy a with
  | Some s => Some s
  | None => b
  end.

Definition opt_string_eqb (o : option string) (s : string) : bool :=
  match o with
  | Some t => String.eqb t s
  | None => false
  end.

(** The test of line 160 on one entry URL. *)
Definition url_matches {L : UrlLib} (target_url entry_url : string) : bool :=
  let target_unquoted := unquote target_url in
  let target_name := url_path_name target_unquoted in
  let entry_unquoted := unquote entry_url in
  let entry_name := url_path_name entry_unquoted in
  String.eqb entry_unquoted target_unquoted
  || String.eqb entry_url target_url
  || (negb (String.eqb target_name EmptyString)
      && String.eqb entry_name target_name).

Inductive Scan : Type :=
| ScanFound (ws_url target_id : string)
| ScanNoId       (* RuntimeError("DevTools target id not found for page.") *)
| ScanNone.

(** The [for entry in payload] loop. *)
Fixpoint scan_payload {L : UrlLib} (target_url : string)
    (payload : list Entry) : Scan :=
  match payload with
  | [] => ScanNone
  | entry :: rest =>
      if negb (opt_string_eqb (e_type entry) "page") then
        scan_payload target_url rest
      else
        match truthy (e_ws entry) with
        | None => scan_payload target_url rest
        | Some ws_url =>
            let entry_url :=
              match e_url entry with Some u => u | None => EmptyString end in
            if url_matches target_url entry_url then
              match truthy (py_or (e_id entry) (e_targetId entry)) with
              | Some target_id => ScanFound ws_url target_id
              | None => ScanNoId
              end
            else scan_payload target_url rest
        end
  end.

(** An entry the scan can return: a page with a socket URL that matches. *)
Definition has_socket (e : Entry) : bool :=
  match truthy (e_ws e) with
  | Some _ => true
  | None => false
  end.

Definition candidate {L : UrlLib} (target_url : string) (e : Entry) : bool :=
  opt_string_eqb (e_type e) "page"
  && has_socket e
  && url_matches target_url
       match e_url e with Some u => u | None => EmptyString end.

(** One pass of the [try] block of the polling loop: the GET, the scan, and
    the bare [except: pass], which also swallows [ScanNoId]. *)
Definition poll_once {L : UrlLib} (env : Env) (debug_port : Z)
    (target_url : string) : M (option (string * string)) :=
  fun s =>
    let s' := mkSt (st_clock s) (S (st_http s)) (st_conn s) (st_post s) in
    (Ok match http_get env (st_http s) with
        | Some payload =>
            match scan_payload target_url payload with
            | ScanFound ws_url target_id => Some (ws_url, target_id)
            | _ => None
            end
        | None => None
        end, s', [EvHttpGet debug_port]).

Fixpoint wait_for_target_loop {L : UrlLib} (fuel : nat) (env : Env)
    (debug_port : Z) (target_url : string) (start timeout : Q)
    : M (string * string) :=
  now <- read_clock env ;;
  if Qlt_bool (now - start) timeout then
    match fuel with
    | O => diverge
    | S fuel' =>
        found <- poll_once env debug_port target_url ;;
        match found with
        | Some r => ret r
        | None =>
            sleep (1 # 10) ;;
            wait_for_target_loop fuel' env debug_port target_url start timeout
        end
    end
  else raise RuntimeError "Timed out waiting for DevTools endpoint".

Definition _wait_for_debugger_target {L : UrlLib} (fuel : nat) (env : Env)
    (debug_port : Z) (target_url : string) (timeout : Q)
    : M (string * string) :=
  start <- read_clock env ;;
  wait_for_target_loop fuel env debug_port target_url start timeout.

(** ** The debugging socket *)

Definition ws_open (env : Env) (ws_url : string) : M nat :=
  fun s =>
    let s' := mkSt (st_clock s) (st_http s) (S (st_conn s)) (st_post s) in
    match ws_connect env (st_conn s) with
    | None => (Ok (st_conn s), s', [EvWsConnect ws_url])
    | Some e => (Raise e, s', [EvWsConnect ws_url])
    end.

(** [ws.send(...)]: the k-th send on connection [conn]. *)
Definition ws_send (env : Env) (conn k : nat) (id : Z) (method : string)
    : M unit :=
  external (EvWsSend id method) (ws_send_result env conn k).

(** [json.loads(ws.recv())]: the k-th receive on connection [conn]. *)
Definition ws_receive (env : Env) (conn k : nat) : M Message :=
  fun s =>
    match ws_recv env conn k with
    | RecvMsg m => (Ok m, s, [])
    | RecvRaise e => (Raise e, s, [])
    end.

Definition ws_close : M unit := emit EvWsClose.

Definition is_ws_timeout (c : ExcClass) : bool :=
  ExcClass_eqb c WebSocketTimeoutException.

(** The receive loop of [_wait_for_load_event].  [Some true]: the load
    event was read and the function returns; [None]: the receive timed out
    and the loop continues.  When the loop condition fails the loop ends and
    the function returns as well. *)
Fixpoint load_event_loop (fuel : nat) (env : Env) (conn k : nat)
    (start timeout : Q) : M unit :=
  now <- read_clock env ;;
  if Qlt_bool (now - start) timeout then
    match fuel with
    | O => diverge
    | S fuel' =>
        fired <- try_except
                   (msg <- ws_receive env conn k ;;
                    ret (Some (opt_string_eqb (m_method msg)
                                              "Page.loadEventFired")))
                   is_ws_timeout
                   (fun _ => ret None) ;;
        match fired with
        | Some true => ret tt
        | _ => load_event_loop fuel' env conn (S k) start timeout
        end
    end
  else ret tt.

Definition _wait_for_load_event {L : UrlLib} (fuel : nat) (env : Env)
    (debug_port : Z) (target_url : string) (timeout : Q) : M unit :=
  target <- _wait_for_debugger_target fuel env debug_port target_url timeout ;;
  conn <- ws_open env (fst target) ;;
  try_finally
    (ws_send env conn 0 1 "Page.enable" ;;
     ws_send env conn 1 2 "Page.reload" ;;
     start <- read_clock env ;;
     load_event_loop fuel env conn 0 start timeout)
    ws_close.

Definition _set_window_bounds {L : UrlLib} (fuel : nat) (env : Env)
    (debug_port : Z) (target_url : string) (left top width height : Z)
    (timeout : Q) : M unit :=
  target <- _wait_for_debugger_target fuel env debug_port target_url timeout ;;
  conn <- ws_open env (fst target) ;;
  try_finally
    (ws_send env conn 0 1 "Browser.getWindowForTarget" ;;
     msg <- ws_receive env conn 0 ;;
     match m_windowId msg with
     | None => ret tt
     | Some _ =>
         ws_send env conn 1 2 "Browser.setWindowBounds" ;;
         _ <- ws_receive env conn 1 ;;
         ret tt
     end)
    ws_close.

Definition _get_window_bounds {L : UrlLib} (fuel : nat) (env : Env)
    (debug_port : Z) (target_url : string) (timeout : Q)
    : M (option Bounds) :=
  target <- _wait_for_debugger_target fuel env debug_port target_url timeout ;;
  conn <- ws_open env (fst target) ;;
  try_finally
    (ws_send env conn 0 3 "Browser.getWindowForTarget" ;;
     msg <- ws_receive env conn 0 ;;
     match m_windowId msg with
     | None => ret None
     | Some _ =>
         ws_send env conn 1 4 "Browser.getWindowBounds" ;;
         msg <- ws_receive env conn 1 ;;
         ret (m_bounds msg)
     end)
    ws_close.

Definition _evaluate_script {L : UrlLib} (fuel : nat) (env : Env)
    (debug_port : Z) (target_url : string) (timeout : Q)
    : M (option Viewport) :=
  target <- _wait_for_debugger_target fuel env debug_port target_url timeout ;;
  conn <- ws_open env (fst target) ;;
  try_finally
    (ws_send env conn 0 50 "Runtime.evaluate" ;;
     resp <- ws_receive env conn 0 ;;
     ret (m_value resp))
    ws_close.

Definition _bring_target_to_front {L : UrlLib} (fuel : nat) (env : Env)
    (debug_port : Z) (target_url : string) (timeout : Q) : M unit :=
  target <- _wait_for_debugger_target fuel env debug_port target_url timeout ;;
  conn <- ws_open env (fst target) ;;
  try_finally
    (try_except
       (ws_send env conn 0 1 "Page.bringToFront" ;;
        _ <- ws_receive env conn 0 ;;
        ret tt)
       is_Exception
       (fun _ => ret tt))
    ws_close.

(** The osascript calls; their failures are swallowed. *)
Definition _focus_chrome (app_name : string) : M unit :=
  emit (EvFocus app_name).

(** ** Frame capture *)

Definition Z_to_string (z : Z) : string :=
  match z with
  | Zneg p => ("-" ++ NilEmpty.string_of_uint (Pos.to_uint p))%string
  | _ => NilEmpty.string_of_uint (N.to_uint (Z.to_N z))
  end.

Fixpoint zeros (n : nat) : string :=
  match n with
  | O => EmptyString
  | S n' => String "0" (zeros n')
  end.

(** [f"{k:04d}"] for a non-negative k. *)
Definition pad4 (k : Z) : string :=
  let digits := Z_to_string k in
  (zeros (4 - String.length digits) ++ digits)%string.

Definition frame_name (k : Z) : string :=
  ("frame_" ++ pad4 k ++ ".png")%string.

(** [output_dir / name]. *)
Definition path_join (dir name : string) : string :=
  (dir ++ "/" ++ name)%string.

Definition frame_path (output_dir : string) (k : Z) : string :=
  path_join output_dir (frame_name k).

(** [now - start_time >= frame_count * interval], in floats. *)
Definition frame_due (now start_time interval : float) (frame_count : Z)
    : bool :=
  fle (fmul (float_of_Z frame_count) interval) (fsub now start_time).

(** The [while frame_count < target_frames] loop. *)
Fixpoint capture_loop (fuel : nat) (env : Env) (region : Region)
    (output_dir : string) (start_time interval : float) (target_frames : Z)
    (frame_count : Z) (frame_paths : list string) : M (list string) :=
  if frame_count <? target_frames then
    match fuel with
    | O => diverge
    | S fuel' =>
        now <- read_perf_counter env ;;
        if frame_due now start_time interval frame_count then
          let path := frame_path output_dir frame_count in
          external (EvGrab region) (grab_result env frame_count) ;;
          emit (EvWritePng path) ;;
          capture_loop fuel' env region output_dir start_time interval
                       target_frames (frame_count + 1) (frame_paths ++ [path])
        else
          asyncio_sleep (1 # 1000) ;;
          capture_loop fuel' env region output_dir start_time interval
                       target_frames frame_count frame_paths
    end
  else ret frame_paths.

Definition capture_frames (fuel : nat) (env : Env) (region : Region)
    (duration fps : float) (output_dir : string) : M (list string) :=
  external (EvMkdir output_dir) (mkdir_result env) ;;
  interval <- lift (float_div (float_of_Z 1) fps) ;;
  may_raise (mss_result env) ;;
  start_time <- read_perf_counter env ;;
  target_frames <- lift (int_of_float (fmul duration fps)) ;;
  capture_loop fuel env region output_dir start_time interval
               target_frames 0 [].

(** ** The chat client *)

(** What one pass of the [try] block of [chat] amounts to. *)
Inductive Attempt : Type :=
| AtData (content : option string)      (* [return data] *)
| AtErrorPayload (msg : string)         (* raise OpenRouterError, not caught *)
| AtCaught (is_request_exc : bool) (status : option Z).
    (* an exception of the [except] clause: whether it is a
       RequestException, and the status of its attached response *)

(** [response.raise_for_status()] raises for the statuses 400..599. *)
Definition is_error_status (status : Z) : bool :=
  (400 <=? status) && (status <? 600).

Definition attempt_of (p : Post) : Attempt :=
  match p with
  | PostFails => AtCaught true None
  | PostHttp status body =>
      if is_error_status status then AtCaught true (Some status)
      else match body with
           | BodyInvalid r => AtCaught r None
           | BodyError msg => AtErrorPayload msg
           | BodyData content => AtData content
           end
  end.

Definition post (env : Env) (model : string) (images : list string)
    : M Post :=
  fun s =>
    (Ok (http_post env (st_post s)),
     mkSt (st_clock s) (st_http s) (st_conn s) (S (st_post s)),
     [EvPost model images]).

Definition failed_after (max_retries : Z) : string :=
  ("OpenRouter request failed after " ++ Z_to_string max_retries
   ++ " attempts.")%string.

Definition error_payload (msg : string) : string :=
  ("OpenRouter returned error payload: " ++ msg)%string.

(** [status_code in {429, 500, 502, 503, 504}]. *)
Definition retryable_status (status : option Z) : bool :=
  match status with
  | Some c => (c =? 429) || (c =? 500) || (c =? 502) || (c =? 503)
              || (c =? 504)
  | None => false
  end.

(** [encode_image_to_data_url] on each image, in order: the file must
    exist and be read.  (The data URLs go into the request, whose content
    is not modelled.) *)
Fixpoint encode_images (env : Env) (images : list string) : M unit :=
  match images with
  | [] => ret tt
  | img :: rest =>
      match read_image env img with
      | FileMissing =>
          raise ValueError ("Image file does not exist: " ++ img)%string
      | FileUnreadable e => reraise e
      | FileBytes _ => encode_images env rest
      end
  end.

(** [OpenRouterClient()]: the constructor needs an API key. *)
Definition OpenRouterClient (env : Env) : M unit :=
  match truthy (api_key env) with
  | Some _ => ret tt
  | None => raise OpenRouterError
              "OPENROUTER_API_KEY environment variable must be set."
  end.

(** The client of [controllers/openrouter_client.py]. *)
Module Controllers.

Fixpoint chat_loop (fuel : nat) (env : Env) (model : string)
    (images : list string) (max_retries : Z) (backoff_initial : Q)
    (attempt : Z) : M (option string) :=
  match fuel with
  | O => diverge
  | S fuel' =>
      let attempt := attempt + 1 in
      p <- post env model images ;;
      match attempt_of p with
      | AtData content => ret content
      | AtErrorPayload msg => raise OpenRouterError (error_payload msg)
      | AtCaught is_request_exc status =>
          let is_retryable := retryable_status status || is_request_exc in
          if negb is_retryable || (max_retries <? attempt) then
            raise OpenRouterError (failed_after max_retries)
          else
            sleep (backoff_initial * inject_Z (2 ^ (attempt - 1))) ;;
            chat_loop fuel' env model images max_retries backoff_initial
                      attempt
      end
  end.

Definition chat (fuel : nat) (env : Env) (model : string)
    (images : list string) (max_retries : Z) (backoff_initial : Q)
    : M (option string) :=
  chat_loop fuel env model images max_retries backoff_initial 0.

Definition chat_with_vision (fuel : nat) (env : Env) (images : list string)
    (model : string) (max_retries : Z) (backoff_initial : Q)
    : M (option string) :=
  encode_images env images ;;
  chat fuel env model images max_retries backoff_initial.

End Controllers.

(** The client inlined in [capture_and_analyze_video.py]. *)
Module Script.

Fixpoint chat_loop (fuel : nat) (env : Env) (model : string)
    (images : list string) (max_retries : Z) (backoff_initial : Q)
    (attempt : Z) : M (option string) :=
  match fuel with
  | O => diverge
  | S fuel' =>
      let attempt := attempt + 1 in
      p <- post env model images ;;
      match attempt_of p with
      | AtData content => ret content
      | AtErrorPayload msg => raise OpenRouterError (error_payload msg)
      | AtCaught _ _ =>
          if max_retries <? attempt then
            raise OpenRouterError (failed_after max_retries)
          else
            sleep (backoff_initial * inject_Z (2 ^ (attempt - 1))) ;;
            chat_loop fuel' env model images max_retries backoff_initial
                      attempt
      end
  end.

Definition chat (fuel : nat) (env : Env) (model : string)
    (images : list string) (max_retries : Z) (backoff_initial : Q)
    : M (option string) :=
  chat_loop fuel env model images max_retries backoff_initial 0.

(** Called with the defaults [max_retries=3], [backoff_initial=2.0]. *)
Definition chat_with_vision (fuel : nat) (env : Env) (images : list string)
    (model : string) : M (option string) :=
  encode_images env images ;;
  chat fuel env model images 3 2.

End Script.

(** ** The capture region *)

Definition get_or (o : option Z) (default : Z) : Z :=
  match o with
  | Some z => z
  | None => default
  end.

(** Lines 349-368 of [main]; [//] is the floor division [Z.div]. *)
Definition compute_region (bounds : Bounds) (viewport : option Viewport)
    : Region :=
  match viewport with
  | Some v =>
      let border_top := v_oh v - v_ih v in
      let border_left := (v_ow v - v_iw v) / 2 in
      mkRegion (get_or (b_left bounds) 0 + border_left)
               (get_or (b_top bounds) 0 + border_top)
               (v_iw v)
               (v_ih v)
  | None =>
      mkRegion (get_or (b_left bounds) 0)
               (get_or (b_top bounds) 0)
               (get_or (b_width bounds) 0)
               (get_or (b_height bounds) 0)
  end.

(** ** The entry point *)

Record Args : Type := mkArgs {
  html_path : string;
  duration : float;
  fps : float;
  prompt : string;
  model : string;
  output_dir : string
}.

(** [needle in hay]. *)
Fixpoint str_contains (needle hay : string) : bool :=
  String.prefix needle hay
  || match hay with
     | EmptyString => false
     | String _ rest => str_contains needle rest
     end.

Definition newline : string := String (ascii_of_nat 10) EmptyString.

(** [not bounds]: the value is None or an empty object. *)
Definition bounds_present (o : option Bounds) : option Bounds :=
  match o with
  | Some (mkBounds None None None None None) => None
  | x => x
  end.

Definition app_name_of (chrome : string) : string :=
  if str_contains "Canary" chrome then "Google Chrome Canary"%string
  else if str_contains "Chromium" chrome then "Chromium"%string
  else "Google Chrome"%string.

(** The [try] block of [main]. *)
Definition main_body {L : UrlLib} (fuel : nat) (env : Env) (args : Args)
    (url : string) : M unit :=
  let debug_port := free_port env in
  _wait_for_load_event fuel env debug_port url 10 ;;
  _bring_target_to_front fuel env debug_port url 5 ;;
  _set_window_bounds fuel env debug_port url 0 30 1280 720 5 ;;
  bounds <- _get_window_bounds fuel env debug_port url 5 ;;
  match bounds_present bounds with
  | None =>
      raise RuntimeError "Failed to read Chrome window bounds from DevTools."
  | Some bounds =>
      emit (EvPrintBounds bounds) ;;
      viewport <- _evaluate_script fuel env debug_port url 5 ;;
      let region := compute_region bounds viewport in
      match viewport with
      | Some v => emit (EvPrintViewport v)
      | None => ret tt
      end ;;
      if (r_width region <=? 0) || (r_height region <=? 0) then
        raise RuntimeError "Invalid window bounds detected."
      else
        emit (EvPrintRegion region) ;;
        _focus_chrome (app_name_of (chrome_path env)) ;;
        let out := path_join (output_dir args)
                             ("video_" ++ time_stamp env)%string in
        emit (EvPrintCapturing (duration args) (fps args)) ;;
        frame_paths <- capture_frames fuel env region (duration args)
                                      (fps args) out ;;
        emit (EvPrintCaptured (List.length frame_paths) out) ;;
        emit (EvPrintAnalyzing (model args)) ;;
        OpenRouterClient env ;;
        response <- Script.chat_with_vision fuel env frame_paths
                                            (model args) ;;
        match response with
        | None => raise KeyError "content"
        | Some content =>
            emit (EvPrint (newline ++ "--- ANALYSIS RESULT ---")%string) ;;
            emit (EvPrint content) ;;
            emit (EvPrint "------------------------")
        end
  end.

(** The steps of [main_body] before the capture region is computed: wait
    for the page, raise and place the window, read its bounds and the
    viewport of the page. *)
Definition read_geometry {L : UrlLib} (fuel : nat) (env : Env)
    (url : string) : M (Bounds * option Viewport) :=
  let debug_port := free_port env in
  _wait_for_load_event fuel env debug_port url 10 ;;
  _bring_target_to_front fuel env debug_port url 5 ;;
  _set_window_bounds fuel env debug_port url 0 30 1280 720 5 ;;
  bounds <- _get_window_bounds fuel env debug_port url 5 ;;
  match bounds_present bounds with
  | None =>
      raise RuntimeError "Failed to read Chrome window bounds from DevTools."
  | Some bounds =>
      emit (EvPrintBounds bounds) ;;
      viewport <- _evaluate_script fuel env debug_port url 5 ;;
      ret (bounds, viewport)
  end.

(** The [except Exception as e] clause. *)
Definition report_error (e : Exn) : M unit :=
  emit (EvPrint (newline ++ "ERROR: " ++ exn_msg e)%string).

(** The [finally] block: terminate, wait two seconds, kill when the wait
    raises, remove the profile directory. *)
Definition cleanup (env : Env) : M unit :=
  emit EvTerminate ;;
  try_except
    (external (EvWait 2)
       (if wait_exits env then None
        else Some (mkExn OSError "TimeoutExpired")))
    bare_except
    (fun _ => emit EvKill) ;;
  emit (EvRmtree (temp_dir env)).

Definition is_http_url (s : string) : bool :=
  String.prefix "http://" s || String.prefix "https://" s.

Definition main {L : UrlLib} (fuel : nat) (env : Env) (args : Args)
    : M unit :=
  let file := resolve_file env (html_path args) in
  if negb (is_http_url (html_path args)) && negb (rf_exists file) then
    emit (EvPrint ("File not found: " ++ rf_path file)%string)
  else
    let url := if is_http_url (html_path args) then html_path args
               else rf_uri file in
    let name := if is_http_url (html_path args) then "remote_url"%string
                else rf_name file in
    emit (EvMkdtemp (temp_dir env)) ;;
    emit (EvPrint ("Launching Chrome and loading " ++ name ++ "...")%string) ;;
    external (EvPopen (chrome_path env) (free_port env) (temp_dir env) url)
             (popen_result env) ;;
    try_finally
      (try_except (main_body fuel env args url) is_Exception report_error)
      (cleanup env).

(** The status of the process that ran [asyncio.run(main())]: 0 when [main]
    returns, not 0 when an exception leaves it. *)
Definition exit_status (o : Outcome unit) : option Z :=
  match o with
  | Ok _ => Some 0
  | Raise _ => Some 1
  | Diverge => None
  end.

Definition outcome_of {A : Type} (r : Res A) : Outcome A := fst (fst r).
Definition state_of {A : Type} (r : Res A) : St := snd (fst r).
Definition log_of {A : Type} (r : Res A) : list Event := snd r.

(** ** Sample worlds

    Concrete worlds on which the properties below are run. *)

(** A clock that advances one second per reading. *)
Definition unit_clock (i : nat) : Q := inject_Z (Z.of_nat i).

(** A performance counter that advances one second per reading during a
    minute, and then stands still. *)
Definition minute_counter (i : nat) : float :=
  float_of_Z (Z.of_nat (Nat.min i 60)).

Definition ws_timeout : Exn :=
  mkExn WebSocketTimeoutException "timed out".

(** A world in which the discovery endpoint never answers, every receive
    on a socket times out and the chat endpoint is unreachable; everything
    else works, and every image file can be read. *)
Definition silent_env : Env :=
  mkEnv unit_clock minute_counter (fun _ => None) (fun _ => None)
        (fun _ _ => None) (fun _ _ => RecvRaise ws_timeout) None None
        (fun _ => None)
        (fun p => mkResolvedFile p true ("file://" ++ p)%string
                    (last_name (segments p EmptyString)))
        "google-chrome" 9222 "/tmp/video_vibes_gen_x" None true
        "20260101_000000" (Some "key"%string)
        (fun _ => FileBytes EmptyString)
        (fun _ => PostFails).

Definition set_ws_recv (env : Env) (r : nat -> nat -> Recv) : Env :=
  mkEnv (clock env) (perf_counter env) (http_get env) (ws_connect env)
        (ws_send_result env) r (mkdir_result env) (mss_result env)
        (grab_result env) (resolve_file env) (chrome_path env)
        (free_port env) (temp_dir env) (popen_result env) (wait_exits env)
        (time_stamp env) (api_key env) (read_image env) (http_post env).

Definition set_http_post (env : Env) (p : nat -> Post) : Env :=
  mkEnv (clock env) (perf_counter env) (http_get env) (ws_connect env)
        (ws_send_result env) (ws_recv env) (mkdir_result env)
        (mss_result env) (grab_result env) (resolve_file env)
        (chrome_path env) (free_port env) (temp_dir env) (popen_result env)
        (wait_exits env) (time_stamp env) (api_key env) (read_image env) p.

Definition page (url ws_url id : string) : Entry :=
  mkEntry (Some "page"%string) (Some url) (Some ws_url) (Some id) None.

Definition sample_url : string := "file:///site/index.html".

(** The page that was asked for. *)
Definition exact_page : Entry := page sample_url "ws://127.0.0.1/page/A" "A".


(** The page that was asked for, listed without a socket URL. *)
Definition socketless_page : Entry :=
  mkEntry (Some "page"%string) (Some sample_url) None (Some "C"%string) None.

Definition serving (payload : list Entry) : Env :=
  set_http_get silent_env (fun _ => Some payload).

Definition timed_out : Exn :=
  mkExn RuntimeError "Timed out waiting for DevTools endpoint".




(** An event, the response to request 3 and the response to request 4. *)
Definition an_event : Message :=
  mkMessage None (Some "Page.frameStoppedLoading"%string) None None None.

Definition receiving (msgs : list Message) : Env :=
  set_ws_recv (serving [exact_page])
    (fun _ k => match nth_error msgs k with
                | Some m => RecvMsg m
                | None => RecvRaise ws_timeout
                end).

(** ** The retry policy of [chat], as a specification *)

(** Is a failed attempt followed by another one (budget permitting)? *)
Definition controllers_retried (a : Attempt) : bool :=
  match a with
  | AtCaught is_request_exc status => retryable_status status || is_request_exc
  | _ => false
  end.

Definition script_retried (a : Attempt) : bool :=
  match a with
  | AtCaught _ _ => true
  | _ => false
  end.

(** What the attempt that ends the loop gives. *)
Definition final_outcome (max_retries : Z) (a : Attempt)
    : Outcome (option string) :=
  match a with
  | AtData content => Ok content
  | AtErrorPayload msg => Raise (mkExn OpenRouterError (error_payload msg))
  | AtCaught _ _ => Raise (mkExn OpenRouterError (failed_after max_retries))
  end.

(** The delay before the k-th retry, k = 1, 2, ... *)
Definition backoff_delay (backoff_initial : Q) (k : Z) : Q :=
  backoff_initial * inject_Z (2 ^ (k - 1)).

(** The effects of [n] failed attempts numbered from [first + 1], each
    followed by its sleep. *)
Fixpoint retry_log (model : string) (images : list string)
    (backoff_initial : Q) (first : Z) (n : nat) : list Event :=
  match n with
  | O => []
  | S n' =>
      EvPost model images
      :: EvSleep (backoff_delay backoff_initial (first + 1))
      :: retry_log model images backoff_initial (first + 1) n'
  end.

Definition advance_post (s : St) (n : nat) : St :=
  mkSt (st_clock s) (st_http s) (st_conn s) (n + st_post s).

Definition nth_attempt (env : Env) (s : St) (i : nat) : Attempt :=
  attempt_of (http_post env (i + st_post s)).

(** A chat endpoint that answers 404 once, then 200 with a completion. *)
Definition not_found_once : Env :=
  set_http_post silent_env
    (fun n => match n with
              | O => PostHttp 404 (BodyData None)
              | _ => PostHttp 200 (BodyData (Some "ok"%string))
              end).

(** ** Assumptions on the world of a capture *)

(** Time passes: after every reading there is a later one beyond any
    bound. *)
Definition clock_unbounded (env : Env) : Prop :=
  forall (i : nat) (B : Q), exists j, (i <= j)%nat /\ (B <= clock env j)%Q.

(** Each of the [n] frames of a capture becomes due: whatever the moment,
    at some later reading of the performance counter the test of the loop
    holds for it. *)
Definition frames_become_due (env : Env) (start_time interval : float)
    (n : Z) : Prop :=
  forall k, 0 <= k < n ->
  forall i, exists j,
    (i <= j)%nat
    /\ frame_due (perf_counter env j) start_time interval k = true.

(** The same for the capture that [duration] and [fps] ask for, whenever
    it starts. *)
Definition capture_becomes_due (env : Env) (duration fps : float) : Prop :=
  forall start n,
    int_of_float (fmul duration fps) = Ok n ->
    frames_become_due env (perf_counter env start)
                      (fdiv (float_of_Z 1) fps) n.

(** Some floats. *)
Definition one_third : float := fdiv (float_of_Z 1) (float_of_Z 3).
Definition huge : float := S754_finite false (2 ^ 52) 971.
Definition infinity : float := S754_infinity false.

(** The frame indices [first, first + 1, ..., first + n - 1]. *)
Definition frame_indices (first : Z) (n : nat) : list Z :=
  map (fun i => first + Z.of_nat i) (seq 0 n).

(** The files written, in order. *)
Fixpoint written (log : list Event) : list string :=
  match log with
  | [] => []
  | EvWritePng path :: rest => path :: written rest
  | _ :: rest => written rest
  end.

(** ** The run as a whole *)

Definition sample_args : Args :=
  mkArgs "https://example.com/index.html" (float_of_Z 5) (float_of_Z 2)
         "Describe the frames."
         "qwen/qwen3-vl-8b-instruct" "artifacts".

(** The URL [main] loads. *)
Definition page_url (env : Env) (args : Args) : string :=
  if is_http_url (html_path args) then html_path args
  else rf_uri (resolve_file env (html_path args)).

(** The page exists and the browser process was started. *)
Definition browser_started (env : Env) (args : Args) : bool :=
  (is_http_url (html_path args)
   || rf_exists (resolve_file env (html_path args)))
  && match popen_result env with None => true | Some _ => false end.

(** The effects of the [finally] block. *)
Definition cleanup_log (env : Env) : list Event :=
  [EvTerminate; EvWait 2]
  ++ (if wait_exits env then [] else [EvKill])
  ++ [EvRmtree (temp_dir env)].

Definition launch_log (env : Env) (args : Args) : list Event :=
  [EvMkdtemp (temp_dir env);
   EvPrint ("Launching Chrome and loading "
            ++ (if is_http_url (html_path args) then "remote_url"
                else rf_name (resolve_file env (html_path args)))
            ++ "...")%string;
   EvPopen (chrome_path env) (free_port env) (temp_dir env)
           (page_url env args)].

(** The body of [main] under its [except Exception] clause. *)
Definition guarded_body {L : UrlLib} (fuel : nat) (env : Env) (args : Args)
    : M unit :=
  try_except (main_body fuel env args (page_url env args)) is_Exception
             report_error.

(** A browser whose sockets deliver load events only. *)
Definition load_fired : Message :=
  mkMessage None (Some "Page.loadEventFired"%string) None None None.

Definition only_events : Env :=
  set_ws_recv (serving [exact_page]) (fun _ _ => RecvMsg load_fired).

(** A browser that answers every request: the first socket delivers the
    load event, the later ones a message with a window id, the bounds of
    the window and the viewport of the page; the chat endpoint answers. *)
Definition capturing : Env :=
  set_http_post
    (set_ws_recv (serving [exact_page])
       (fun conn _ =>
          match conn with
          | O => RecvMsg load_fired
          | _ => RecvMsg
                   (mkMessage (Some 3) None (Some 7)
                      (Some (mkBounds (Some 0) (Some 30) (Some 1280)
                               (Some 690) None))
                      (Some (mkViewport 0 30 1280 750 1280 690)))
          end))
    (fun _ => PostHttp 200 (BodyData (Some "ok"%string))).

Definition local_args : Args :=
  mkArgs "/site/index.html" (float_of_Z 5) (float_of_Z 2)
         "Describe the frames."
         "qwen/qwen3-vl-8b-instruct" "artifacts".

(** ** Termination

    A computation with a recursion budget settles at a state when, from
    some budget on, its result no longer depends on the budget and is not
    [Diverge]: the modelled code returns or raises. *)
Definition settles {A : Type} (f : nat -> M A) (s : St) : Prop :=
  exists fuel,
    outcome_of (f fuel s) <> Diverge
    /\ forall extra, f (fuel + extra)%nat s = f fuel s.

(** The state after one more reading of the clock. *)
Definition tick (s : St) : St :=
  mkSt (S (st_clock s)) (st_http s) (st_conn s) (st_post s).

(** What the poll made at state [s] finds. *)
Definition found_at {L : UrlLib} (env : Env) (target_url : string) (s : St)
    : option (string * string) :=
  match http_get env (st_http s) with
  | Some payload =>
      match scan_payload target_url payload with
      | ScanFound ws_url target_id => Some (ws_url, target_id)
      | _ => None
      end
  | None => None
  end.

Definition polled (s : St) : St :=
  mkSt (st_clock s) (S (st_http s)) (st_conn s) (st_post s).

(** A computation without a recursion budget ends: it returns or raises. *)
Definition ends {A : Type} (m : M A) : Prop :=
  forall s, outcome_of (m s) <> Diverge.

(** ** Effects of a computation *)

(** Every effect of a computation satisfies [P]. *)
Definition log_all {A : Type} (P : Event -> Prop) (m : M A) : Prop :=
  forall s, Forall P (log_of (m s)).

(** The effects of [n] polls that found nothing. *)
Definition empty_polls (debug_port : Z) (n : nat) : list Event :=
  List.concat (repeat [EvHttpGet debug_port; EvSleep (1 # 10)] n).

Definition entry_url_of (e : Entry) : string :=
  match e_url e with Some u => u | None => EmptyString end.


(** Events of the life of a socket. *)
Definition is_connect (ev : Event) : bool :=
  match ev with EvWsConnect _ => true | _ => false end.

Definition is_close (ev : Event) : bool :=
  match ev with EvWsClose => true | _ => false end.

(** An effect that neither opens nor closes a socket. *)
Definition keeps_sockets (ev : Event) : Prop :=
  is_connect ev = false /\ is_close ev = false.

Definition count_events (p : Event -> bool) (log : list Event) : nat :=
  List.length (filter p log).

(** The shape shared by the five helpers that talk to the page: resolve
    the target, open a socket, run a body, close the socket. *)
Definition with_socket {A : Type} (env : Env)
    (resolve : M (string * string)) (body : nat -> M A) : M A :=
  target <- resolve ;;
  conn <- ws_open env (fst target) ;;
  try_finally (body conn) ws_close.

(** A run that opens a socket closes it, once and as its last effect; a
    run that opens none closes none. *)
Definition socket_scoped {A : Type} (env : Env) (s : St) (r : Res A) : Prop :=
  outcome_of r <> Diverge ->
  (count_events is_connect (log_of r) <= 1)%nat
  /\ (count_events is_connect (log_of r) = 1%nat ->
      ws_connect env (st_conn s) = None ->
      count_events is_close (log_of r) = 1%nat
      /\ exists before, log_of r = before ++ [EvWsClose])
  /\ (count_events is_connect (log_of r) = O
      \/ ws_connect env (st_conn s) <> None ->
      count_events is_close (log_of r) = O).

(** The state after one more socket was opened. *)
Definition opened (s : St) : St :=
  mkSt (st_clock s) (st_http s) (S (st_conn s)) (st_post s).

(** The state after [n] more readings of the clock. *)
Definition ticks (n : nat) (s : St) : St :=
  mkSt (n + st_clock s) (st_http s) (st_conn s) (st_post s).

(** A received answer that is not the load event and does not end the
    wait: another message, or a receive that timed out. *)
Definition skipped (r : Recv) : bool :=
  match r with
  | RecvMsg m => negb (opt_string_eqb (m_method m) "Page.loadEventFired")
  | RecvRaise e => is_ws_timeout (exn_class e)
  end.

Definition is_load_event (r : Recv) : bool :=
  match r with
  | RecvMsg m => opt_string_eqb (m_method m) "Page.loadEventFired"
  | RecvRaise _ => false
  end.

(** Reading a decimal number back from its digits. *)
Definition read_decimal (s : string) : option N :=
  option_map N.of_uint (NilEmpty.uint_of_string s).

(** A grabber that fails at frame 2. *)
Definition set_grab_result (env : Env) (g : Z -> option Exn) : Env :=
  mkEnv (clock env) (perf_counter env) (http_get env) (ws_connect env)
        (ws_send_result env) (ws_recv env) (mkdir_result env)
        (mss_result env) g (resolve_file env) (chrome_path env)
        (free_port env) (temp_dir env) (popen_result env) (wait_exits env)
        (time_stamp env) (api_key env) (read_image env) (http_post env).

Definition disk_full : Exn := mkExn OSError "No space left on device".

Definition failing_at_2 : Env :=
  set_grab_result silent_env
    (fun k => if k =? 2 then Some disk_full else None).

(** The time a run slept, in seconds. *)
Fixpoint slept (log : list Event) : Q :=
  match log with
  | [] => 0
  | EvSleep q :: rest => q + slept rest
  | _ :: rest => slept rest
  end.

Definition is_post (ev : Event) : bool :=
  match ev with EvPost _ _ => true | _ => false end.

(** A chat endpoint that always answers 503. *)
Definition unavailable : Env :=
  set_http_post silent_env (fun _ => PostHttp 503 (BodyData None)).

Definition set_read_image (env : Env) (f : string -> FileRead) : Env :=
  mkEnv (clock env) (perf_counter env) (http_get env) (ws_connect env)
        (ws_send_result env) (ws_recv env) (mkdir_result env)
        (mss_result env) (grab_result env) (resolve_file env)
        (chrome_path env) (free_port env) (temp_dir env) (popen_result env)
        (wait_exits env) (time_stamp env) (api_key env) f (http_post env).

(** ** Kinds of effects *)

(** The traffic with the browser: discovery polls, their sleeps, and the
    life of a socket. *)
Definition browser_io (ev : Event) : Prop :=
  match ev with
  | EvHttpGet _ | EvSleep _ | EvWsConnect _ | EvWsSend _ _ | EvWsClose => True
  | _ => False
  end.

(** The effects of a capture on [region]. *)
Definition capture_io (region : Region) (ev : Event) : Prop :=
  match ev with
  | EvMkdir _ | EvWritePng _ | EvSleep _ => True
  | EvGrab r => r = region
  | _ => False
  end.

(** The effects of a chat call. *)
Definition chat_io (ev : Event) : Prop :=
  match ev with
  | EvPost _ _ | EvSleep _ => True
  | _ => False
  end.

Definition no_post (ev : Event) : Prop := is_post ev = false.

(** Every grab of the screen is a grab of [region]. *)
Definition grabs_only (region : Region) (ev : Event) : Prop :=
  match ev with
  | EvGrab r => r = region
  | _ => True
  end.

Definition no_grab (ev : Event) : Prop :=
  match ev with
  | EvGrab _ => False
  | _ => True
  end.

(** A browser that closes the socket: every receive raises; and one whose
    socket refuses every send. *)
Definition closed_socket : Exn :=
  mkExn WebSocketException "Connection is already closed.".

Definition dropping : Env :=
  set_ws_recv (serving [exact_page]) (fun _ _ => RecvRaise closed_socket).

Definition refusing_sends : Env :=
  set_ws_send_result (serving [exact_page]) (fun _ _ => Some closed_socket).

Definition set_api_key (env : Env) (k : option string) : Env :=
  mkEnv (clock env) (perf_counter env) (http_get env) (ws_connect env)
        (ws_send_result env) (ws_recv env) (mkdir_result env)
        (mss_result env) (grab_result env) (resolve_file env)
        (chrome_path env) (free_port env) (temp_dir env) (popen_result env)
        (wait_exits env) (time_stamp env) k (read_image env) (http_post env).

Definition set_popen_result (env : Env) (r : option Exn) : Env :=
  mkEnv (clock env) (perf_counter env) (http_get env) (ws_connect env)
        (ws_send_result env) (ws_recv env) (mkdir_result env)
        (mss_result env) (grab_result env) (resolve_file env)
        (chrome_path env) (free_port env) (temp_dir env) r (wait_exits env)
        (time_stamp env) (api_key env) (read_image env) (http_post env).

(** A machine on which the browser cannot be started. *)
Definition no_browser : Env :=
  set_popen_result silent_env
    (Some (mkExn OSError "No such file or directory: 'google-chrome'")).

(** ** The endpoint of the chat client

    [OpenRouterClient.__init__], after the key: the environment variable
    OPENROUTER_BASE_URL, when set and not empty, replaces the default
    endpoint. *)

(** [s.rstrip("/")]. *)
Fixpoint rstrip_slash (s : string) : string :=
  match s with
  | EmptyString => EmptyString
  | String c rest =>
      let r := rstrip_slash rest in
      if is_char "/" c && String.eqb r EmptyString then EmptyString
      else String c r
  end.

(** [s.endswith(suffix)]. *)
Fixpoint ends_with (suffix s : string) : bool :=
  String.eqb s suffix
  || match s with
     | EmptyString => false
     | String _ rest => ends_with suffix rest
     end.

Definition completions : string := "/chat/completions".

Definition endpoint_of (endpoint : string) (base_url : option string)
    : string :=
  match truthy base_url with
  | Some base_url =>
      let base_url := rstrip_slash base_url in
      if negb (ends_with completions base_url)
      then (base_url ++ completions)%string
      else base_url
  | None => endpoint
  end.

(** ** Images as data URLs

    [encode_image_to_data_url].  base64.b64encode and mimetypes.guess_type
    are an interface; the file system is what reading a path gives. *)

Class ImageLib : Type := mkImageLib {
  b64encode : string -> string;
  guess_type : string -> option string
}.

(** The value passed as [data]. *)
Inductive ImageData : Type :=
| ImgStr (s : string)
| ImgPath (p : string)
| ImgBytes (raw : string)
| ImgOther.

Definition data_url (mime b64 : string) : string :=
  ("data:" ++ mime ++ ";base64," ++ b64)%string.

(** [x or "image/png"]. *)
Definition or_png (mime : option string) : string :=
  match truthy mime with
  | Some m => m
  | None => "image/png"%string
  end.

(** The branch of both encoders that reads a file. *)
Definition encode_file {I : ImageLib} (read_bytes : string -> FileRead)
    (path : string) (mime : option string) : Outcome string :=
  match read_bytes path with
  | FileMissing =>
      Raise (mkExn ValueError ("Image file does not exist: " ++ path))
  | FileUnreadable e => Raise e
  | FileBytes raw =>
      let mime := match mime with
                  | None => or_png (guess_type path)
                  | Some m => m
                  end in
      Ok (data_url mime (b64encode raw))
  end.

(** The encoder of [controllers/openrouter_client.py]. *)
Module ControllersImage.

Definition encode_image_to_data_url {I : ImageLib}
    (read_bytes : string -> FileRead) (data : ImageData)
    (mime : option string) : Outcome string :=
  match data with
  | ImgStr s =>
      if String.prefix "data:" s then Ok s
      else encode_file read_bytes s mime
  | ImgPath p => encode_file read_bytes p mime
  | ImgBytes raw => Ok (data_url (or_png mime) (b64encode raw))
  | ImgOther =>
      Raise (mkExn ValueError
               "encode_image_to_data_url expects bytes, file path, or data: URL")
  end.

End ControllersImage.

(** The encoder of [capture_and_analyze_video.py]: every value is a path. *)
Module ScriptImage.

Definition encode_image_to_data_url {I : ImageLib}
    (read_bytes : string -> FileRead) (data : string)
    (mime : option string) : Outcome string :=
  encode_file read_bytes data mime.

End ScriptImage.

(** A stand-in for the two library functions, for sample runs. *)
Definition sample_image_lib : ImageLib :=
  mkImageLib (fun raw => raw) (fun _ => None).

(** ** The environment loader

    [controllers/env_loader.py].  [str.strip] is an interface.  A path is
    the string of its [Path]; the file system says of each path what
    [is_file], [read_text] and [splitlines] give.  [os.environ] is a map
    from names to values; storing into it may raise (a ValueError or an
    OSError), which the loader's [except Exception] catches. *)

Class TextLib : Type := mkTextLib { strip : string -> string }.

Definition Environ : Type := string -> option string.

(** [key in os.environ]. *)
Definition is_set (environ : Environ) (key : string) : bool :=
  match environ key with
  | Some _ => true
  | None => false
  end.

(** [os.environ[key] = value], when it does not raise. *)
Definition environ_set (environ : Environ) (key value : string) : Environ :=
  fun k => if String.eqb k key then Some value else environ k.

Inductive EnvFile : Type :=
| NotAFile                          (* is_file() is false *)
| NoText                            (* read_text() raises *)
| TextLines (lines : list string).  (* content.splitlines() *)

Record EnvOS : Type := mkEnvOS {
  path_of : string -> string;         (* Path(s) *)
  cwd : string;                       (* Path.cwd() *)
  parent : string -> string;          (* p.parent *)
  project_root : string;              (* Path(__file__).parent.parent *)
  dotenv_in : string -> string;       (* p / ".env" *)
  file_at : string -> EnvFile;
  putenv_raises : string -> string -> bool
}.

Definition is_file (os : EnvOS) (path : string) : bool :=
  match file_at os path with
  | NotAFile => false
  | _ => true
  end.

(** [s.split(sep, 1)] when [sep in s]: the text before the first [sep] and
    the text after it; [None] when [sep not in s]. *)
Fixpoint split_once (sep : ascii) (s : string) : option (string * string) :=
  match s with
  | EmptyString => None
  | String c rest =>
      if is_char sep c then Some (EmptyString, rest)
      else match split_once sep rest with
           | Some (before, after) => Some (String c before, after)
           | None => None
           end
  end.

Definition dquote : ascii := ascii_of_nat 34.
Definition squote : ascii := "'"%char.

Definition first_char (s : string) : option ascii :=
  match s with
  | String c _ => Some c
  | EmptyString => None
  end.

Fixpoint last_char (s : string) : option ascii :=
  match s with
  | EmptyString => None
  | String c EmptyString => Some c
  | String _ rest => last_char rest
  end.

(** [s[:-1]]. *)
Fixpoint drop_last (s : string) : string :=
  match s with
  | EmptyString => EmptyString
  | String _ EmptyString => EmptyString
  | String c rest => String c (drop_last rest)
  end.

(** [s[1:]]. *)
Definition drop_first (s : string) : string :=
  match s with
  | String _ rest => rest
  | EmptyString => EmptyString
  end.

(** [s.startswith(q) and s.endswith(q)] for a one-character [q]. *)
Definition quoted_by (q : ascii) (s : string) : bool :=
  match first_char s, last_char s with
  | Some a, Some b => is_char q a && is_char q b
  | _, _ => false
  end.

(** The quotes around a value are removed. *)
Definition strip_quotes (value : string) : string :=
  if (2 <=? String.length value)%nat
     && (quoted_by dquote value || quoted_by squote value)
  then drop_last (drop_first value)
  else value.

(** What one line of the file assigns: nothing for an empty line, a comment
    or a line without "=". *)
Definition assignment {T : TextLib} (line : string)
    : option (string * string) :=
  let line := strip line in
  if String.eqb line EmptyString || String.prefix "#" line then None
  else match split_once "=" line with
       | None => None
       | Some (key, value) => Some (strip key, strip_quotes (strip value))
       end.

(** The loop over the lines.  An assignment that raises ends it: the
    exception leaves the loop for the handler, which passes. *)
Fixpoint set_lines {T : TextLib} (os : EnvOS) (lines : list string)
    (environ : Environ) : Environ :=
  match lines with
  | [] => environ
  | line :: rest =>
      match assignment line with
      | None => set_lines os rest environ
      | Some (key, value) =>
          if negb (String.eqb key EmptyString) && negb (is_set environ key)
          then if putenv_raises os key value then environ
               else set_lines os rest (environ_set environ key value)
          else set_lines os rest environ
      end
  end.

Definition _parse_and_set_env {T : TextLib} (os : EnvOS) (path : string)
    (environ : Environ) : Environ :=
  match file_at os path with
  | TextLines lines => set_lines os lines environ
  | _ => environ
  end.

(** The paths [load_environment] looks at, in order.  [dotenv_path] is a
    string or the string of a [Path], which is never empty. *)
Definition paths_to_check (os : EnvOS) (dotenv_path : option string)
    : list string :=
  (match truthy dotenv_path with
   | Some p => [path_of os p]
   | None => []
   end)
  ++ [dotenv_in os (cwd os); dotenv_in os (parent os (cwd os))]
  ++ (if negb (String.eqb (project_root os) (cwd os))
      then [dotenv_in os (project_root os)]
      else []).

(** [for env_path in paths_to_check: ...]. *)
Definition visit {T : TextLib} (os : EnvOS) (environ : Environ)
    (env_path : string) : Environ :=
  if is_file os env_path then _parse_and_set_env os env_path environ
  else environ.

Definition load_paths {T : TextLib} (os : EnvOS) (paths : list string)
    (environ : Environ) : Environ :=
  fold_left (visit os) paths environ.

(** The module's state: the flag [_INITIALISED] and [os.environ]. *)
Record Loader : Type := mkLoader {
  initialised : bool;
  environ : Environ
}.

Definition load_environment {T : TextLib} (os : EnvOS)
    (dotenv_path : option string) (st : Loader) : Loader :=
  if initialised st then st
  else mkLoader true
         (load_paths os (paths_to_check os dotenv_path) (environ st)).

(** [str.strip] on text whose characters are below 256. *)
Definition is_space (c : ascii) : bool :=
  let n := nat_of_ascii c in
  ((9 <=? n) && (n <=? 13) || (28 <=? n) && (n <=? 32)
   || (n =? 133) || (n =? 160))%nat.

Fixpoint lstrip (s : string) : string :=
  match s with
  | EmptyString => EmptyString
  | String c rest => if is_space c then lstrip rest else s
  end.

Fixpoint rstrip (s : string) : string :=
  match s with
  | EmptyString => EmptyString
  | String c rest =>
      let r := rstrip rest in
      if is_space c && String.eqb r EmptyString then EmptyString
      else String c r
  end.

Definition latin1_text : TextLib := mkTextLib (fun s => lstrip (rstrip s)).

(** A sample system: the project is in /app and has a directory src;
    [files] says what is at each path. *)
Definition sample_os (cwd : string) (files : string -> EnvFile) : EnvOS :=
  mkEnvOS (fun s => s) cwd
    (fun p => if String.eqb p "/app/src" then "/app" else "/")%string
    "/app"%string
    (fun p => if String.eqb p "/" then "/.env" else p ++ "/.env")%string
    files (fun _ _ => false).

Definition one_file (path : string) (lines : list string)
    : string -> EnvFile :=
  fun p => if String.eqb p path then TextLines lines else NotAFile.

Definition two_files (path1 : string) (lines1 : list string)
    (path2 : string) (lines2 : list string) : string -> EnvFile :=
  fun p => if String.eqb p path1 then TextLines lines1
           else one_file path2 lines2 p.

(** The environment of a caller that exports one variable. *)
Definition exported (key value : string) : Environ :=
  environ_set (fun _ => None) key value.

(** The same system where storing a name or a value that holds a NUL
    character raises, as [os.putenv] does. *)
Fixpoint has_char (x : ascii) (s : string) : bool :=
  match s with
  | EmptyString => false
  | String c rest => is_char x c || has_char x rest
  end.

Definition nul_raises (os : EnvOS) : EnvOS :=
  mkEnvOS (path_of os) (cwd os) (parent os) (project_root os) (dotenv_in os)
    (file_at os)
    (fun key value => has_char Ascii.zero key || has_char Ascii.zero value).

Definition with_nul (s : string) : string := (s ++ String Ascii.zero "")%string.

(** * Properties *)

(** ** The capture region *)

Lemma Qfloor_half (z : Z) : Qfloor (inject_Z z / 2) = z / 2.
Proof.
  unfold Qfloor, Qdiv, Qmult, Qinv, inject_Z. simpl.
  rewrite Z.mul_1_r. reflexivity.
Qed.

(** The example of the specification. *)
Example region_example :
  compute_region (mkBounds (Some 0) (Some 30) (Some 1280) (Some 690) None)
                 (Some (mkViewport 0 30 1280 750 1280 690))
  = mkRegion 0 90 1280 690.
Proof. reflexivity. Qed.

(** C4, as stated, fails: with an odd difference between the outer and the
    inner width the left edge is not [bounds.left + (ow - iw) / 2]. *)
Lemma region_left_odd_border_counterexample :
  let bounds := mkBounds (Some 0) (Some 30) (Some 1281) (Some 690) None in
  let viewport := mkViewport 0 30 1281 750 1280 690 in
  ~ (inject_Z (r_left (compute_region bounds (Some viewport)))
     == inject_Z 0 + inject_Z (v_ow viewport - v_iw viewport) / 2)%Q.
Proof. cbv. discriminate. Qed.

(** C4, amended: when the viewport evaluation succeeded and the bounds
    carry left and top, the region is
    [{left: bounds.left + floor((ow - iw) / 2), top: bounds.top + (oh - ih),
      width: iw, height: ih}]; the left edge is the exact half when
    [ow - iw] is even; and the example of the specification holds. *)
Theorem region_from_viewport (bounds : Bounds) (v : Viewport) (left top : Z)
    (Hleft : b_left bounds = Some left) (Htop : b_top bounds = Some top) :
  let region := compute_region bounds (Some v) in
  r_left region = left + Qfloor (inject_Z (v_ow v - v_iw v) / 2)
  /\ r_top region = top + (v_oh v - v_ih v)
  /\ r_width region = v_iw v
  /\ r_height region = v_ih v
  /\ (Z.even (v_ow v - v_iw v) = true ->
      (inject_Z (r_left region)
       == inject_Z left + inject_Z (v_ow v - v_iw v) / 2)%Q)
  /\ compute_region
       (mkBounds (Some 0) (Some 30) (Some 1280) (Some 690) None)
       (Some (mkViewport 0 30 1280 750 1280 690))
     = mkRegion 0 90 1280 690.
Proof.
  cbn [compute_region r_left r_top r_width r_height].
  rewrite Hleft, Htop, Qfloor_half. cbn [get_or].
  repeat split.
  intros Heven.
  apply Zeven_bool_iff in Heven. apply Zeven_div2 in Heven.
  rewrite Z.div2_div in Heven.
  set (d := v_ow v - v_iw v) in *.
  rewrite Heven at 2.
  rewrite !inject_Z_plus, inject_Z_mult.
  field.
Qed.

Lemma region_from_viewport_witness :
  let bounds := mkBounds (Some 0) (Some 30) (Some 1280) (Some 690) None in
  let v := mkViewport 0 30 1280 750 1280 690 in
  r_left (compute_region bounds (Some v))
  = 0 + Qfloor (inject_Z (v_ow v - v_iw v) / 2).
Proof.
  exact (proj1 (region_from_viewport
                  (mkBounds (Some 0) (Some 30) (Some 1280) (Some 690) None)
                  (mkViewport 0 30 1280 750 1280 690) 0 30
                  eq_refl eq_refl)).
Defined.

(** ** Reasoning about computations *)


Lemma bind_ok {A B : Type} (m : M A) (f : A -> M B) (s s1 : St) (a : A)
    (l1 : list Event) :
  m s = (Ok a, s1, l1) -> bind m f s = prepend l1 (f a s1).
Proof. intros Hm. unfold bind. rewrite Hm. reflexivity. Qed.

Lemma bind_raise {A B : Type} (m : M A) (f : A -> M B) (s s1 : St) (e : Exn)
    (l1 : list Event) :
  m s = (Raise e, s1, l1) -> bind m f s = (Raise e, s1, l1).
Proof. intros Hm. unfold bind. rewrite Hm. reflexivity. Qed.

Lemma bind_diverge {A B : Type} (m : M A) (f : A -> M B) (s s1 : St)
    (l1 : list Event) :
  m s = (Diverge, s1, l1) -> bind m f s = (Diverge, s1, l1).
Proof. intros Hm. unfold bind. rewrite Hm. reflexivity. Qed.

Lemma outcome_of_prepend {A : Type} (l : list Event) (r : Res A) :
  outcome_of (prepend l r) = outcome_of r.
Proof. destruct r as [[o s] l']. reflexivity. Qed.

Lemma log_of_prepend {A : Type} (l : list Event) (r : Res A) :
  log_of (prepend l r) = l ++ log_of r.
Proof. destruct r as [[o s] l']. reflexivity. Qed.

Lemma state_of_prepend {A : Type} (l : list Event) (r : Res A) :
  state_of (prepend l r) = state_of r.
Proof. destruct r as [[o s] l']. reflexivity. Qed.

(** A sleep of a length that is not negative is just a sleep. *)
Lemma sleep_nonneg (seconds : Q) :
  (0 <= seconds)%Q -> sleep seconds = emit (EvSleep seconds).
Proof.
  intros H. unfold sleep, Qlt_bool. apply Qle_bool_iff in H. rewrite H.
  reflexivity.
Qed.

(** What a helper built on [with_socket] does, case by case. *)
Lemma with_socket_run {A : Type} (env : Env)
    (resolve : M (string * string)) (body : nat -> M A) (s : St) :
  with_socket env resolve body s
  = match resolve s with
    | (Ok target, s1, l1) =>
        match ws_connect env (st_conn s1) with
        | Some e => (Raise e, opened s1, l1 ++ [EvWsConnect (fst target)])
        | None =>
            match body (st_conn s1) (opened s1) with
            | (Diverge, s2, l2) =>
                (Diverge, s2, l1 ++ EvWsConnect (fst target) :: l2)
            | (o2, s2, l2) =>
                (o2, s2,
                 l1 ++ EvWsConnect (fst target) :: l2 ++ [EvWsClose])
            end
        end
    | (Raise e, s1, l1) => (Raise e, s1, l1)
    | (Diverge, s1, l1) => (Diverge, s1, l1)
    end.
Proof.
  unfold with_socket, bind, ws_open, try_finally, ws_close, emit, opened.
  destruct (resolve s) as [[o s1] l1]. destruct o; try reflexivity.
  destruct (ws_connect env (st_conn s1)); [reflexivity|].
  destruct (body _ _) as [[o2 s2] l2]. destruct o2; reflexivity.
Qed.


(** *** One turn of each loop *)

(** One turn of the polling loop. *)
Lemma wait_for_target_loop_step {L : UrlLib} (fuel : nat) (env : Env)
    (debug_port : Z) (target_url : string) (start timeout : Q) (s : St) :
  wait_for_target_loop fuel env debug_port target_url start timeout s
  = if Qlt_bool (clock env (st_clock s) - start) timeout then
      match fuel with
      | O => (Diverge, tick s, [])
      | S fuel' =>
          match found_at env target_url (tick s) with
          | Some r => (Ok r, polled (tick s), [EvHttpGet debug_port])
          | None =>
              prepend [EvHttpGet debug_port; EvSleep (1 # 10)]
                (wait_for_target_loop fuel' env debug_port target_url start
                                      timeout (polled (tick s)))
          end
      end
    else (Raise timed_out, tick s, []).
Proof.
  destruct fuel as [|fuel]; cbn [wait_for_target_loop];
    unfold bind at 1, read_clock; fold (tick s);
    destruct (Qlt_bool _ _); try reflexivity.
  unfold bind at 1, poll_once, found_at. cbn [st_http tick].
  fold (polled (tick s)).
  destruct (match http_get env (st_http s) with
            | Some payload => _ | None => None end) as [r|]; [reflexivity|].
  rewrite sleep_nonneg by discriminate.
  unfold bind, emit. cbn [prepend].
  destruct (wait_for_target_loop fuel _ _ _ _ _ _) as [[o s2] l2].
  reflexivity.
Qed.

(** One turn of the receive loop. *)
Lemma load_event_loop_step (fuel : nat) (env : Env) (conn k : nat)
    (start timeout : Q) (s : St) :
  load_event_loop fuel env conn k start timeout s
  = if Qlt_bool (clock env (st_clock s) - start) timeout then
      match fuel with
      | O => (Diverge, tick s, [])
      | S fuel' =>
          match ws_recv env conn k with
          | RecvMsg m =>
              if opt_string_eqb (m_method m) "Page.loadEventFired"
              then (Ok tt, tick s, [])
              else load_event_loop fuel' env conn (S k) start timeout (tick s)
          | RecvRaise e =>
              if is_ws_timeout (exn_class e)
              then load_event_loop fuel' env conn (S k) start timeout (tick s)
              else (Raise e, tick s, [])
          end
      end
    else (Ok tt, tick s, []).
Proof.
  destruct fuel as [|fuel]; cbn [load_event_loop];
    unfold bind at 1, read_clock; fold (tick s);
    destruct (Qlt_bool _ _); try reflexivity.
  unfold bind at 1, try_except, ws_receive. unfold bind at 1.
  destruct (ws_recv env conn k) as [m|e].
  - cbn. destruct (opt_string_eqb _ _); [reflexivity|].
    destruct (load_event_loop fuel _ _ _ _ _ _) as [[o s2] l2]. reflexivity.
  - destruct (is_ws_timeout (exn_class e)); [|reflexivity].
    cbn. destruct (load_event_loop fuel _ _ _ _ _ _) as [[o s2] l2].
    reflexivity.
Qed.

(** One turn of the capture loop. *)
Lemma capture_loop_step (fuel : nat) (env : Env) (region : Region)
    (dir : string) (start_time interval : float)
    (target_frames frame_count : Z) (frame_paths : list string) (s : St) :
  capture_loop fuel env region dir start_time interval target_frames
               frame_count frame_paths s
  = if frame_count <? target_frames then
      match fuel with
      | O => (Diverge, s, [])
      | S fuel' =>
          if frame_due (perf_counter env (st_clock s)) start_time interval
                       frame_count
          then
            match grab_result env frame_count with
            | Some e => (Raise e, tick s, [EvGrab region])
            | None =>
                prepend [EvGrab region;
                         EvWritePng (frame_path dir frame_count)]
                  (capture_loop fuel' env region dir start_time interval
                     target_frames (frame_count + 1)
                     (frame_paths ++ [frame_path dir frame_count]) (tick s))
            end
          else
            prepend [EvSleep (1 # 1000)]
              (capture_loop fuel' env region dir start_time interval
                 target_frames frame_count frame_paths (tick s))
      end
    else (Ok frame_paths, s, []).
Proof.
  destruct fuel as [|fuel]; cbn [capture_loop];
    destruct (frame_count <? target_frames); try reflexivity.
  unfold bind at 1, read_perf_counter. fold (tick s).
  destruct (frame_due _ _ _ _).
  - unfold bind at 1, external.
    destruct (grab_result env frame_count); [reflexivity|].
    unfold bind at 1, emit. cbn [prepend].
    destruct (capture_loop fuel _ _ _ _ _ _ _ _ _) as [[o s2] l2].
    reflexivity.
  - unfold bind at 1, asyncio_sleep, emit.
    destruct (capture_loop fuel _ _ _ _ _ _ _ _ _) as [[o s2] l2].
    reflexivity.
Qed.

(** ** Target discovery *)

Section Discovery.
Context {L : UrlLib}.




Lemma scan_payload_found_socket (target_url : string)
    (payload : list Entry) (ws_url target_id : string) :
  scan_payload target_url payload = ScanFound ws_url target_id ->
  ws_url <> EmptyString
  /\ exists e, In e payload /\ e_ws e = Some ws_url
               /\ candidate target_url e = true.
Proof.
  induction payload as [|e rest IH]; [discriminate|].
  cbn [scan_payload]. unfold candidate, has_socket.
  destruct (opt_string_eqb (e_type e) "page") eqn:Hty; cbn [negb andb].
  2:{ intros H. destruct (IH H) as [? (x & ? & ?)].
      split; [assumption|]. exists x. cbn; auto. }
  destruct (truthy (e_ws e)) as [w|] eqn:Hws.
  2:{ intros H. destruct (IH H) as [? (x & ? & ?)].
      split; [assumption|]. exists x. cbn; auto. }
  destruct (url_matches target_url _) eqn:Hm.
  2:{ intros H. destruct (IH H) as [? (x & ? & ?)].
      split; [assumption|]. exists x. cbn; auto. }
  destruct (truthy (py_or _ _)); [|discriminate].
  intros H. injection H as -> ->.
  assert (Hsome : e_ws e = Some ws_url /\ ws_url <> EmptyString).
  { unfold truthy in Hws. destruct (e_ws e) as [w|]; [|discriminate].
    destruct (String.eqb w EmptyString) eqn:Hw; [discriminate|].
    injection Hws as ->. apply String.eqb_neq in Hw. auto. }
  destruct Hsome as [Hsome Hne].
  split; [assumption|]. exists e. rewrite Hty, Hws, Hm. cbn. auto.
Qed.

End Discovery.

Lemma Qlt_bool_iff (a b : Q) : Qlt_bool a b = true <-> (a < b)%Q.
Proof.
  unfold Qlt_bool. rewrite negb_true_iff.
  split; intros H.
  - apply Qnot_le_lt. intros Hle. apply Qle_bool_iff in Hle. congruence.
  - destruct (Qle_bool b a) eqn:E; [|reflexivity].
    apply Qle_bool_iff in E. exfalso. exact (Qlt_not_le _ _ H E).
Qed.

Lemma Qlt_bool_false_iff (a b : Q) : Qlt_bool a b = false <-> (b <= a)%Q.
Proof.
  unfold Qlt_bool. rewrite negb_false_iff. apply Qle_bool_iff.
Qed.


Section DiscoveryLoop.
Context {L : UrlLib}.






End DiscoveryLoop.


(** A matching page without an id, listed first, hides the page that was
    asked for: every poll finds nothing and resolution times out. *)
Example page_without_id_listed_first :
  outcome_of (_wait_for_debugger_target (L := py_urllib) 20
                (serving
                   [mkEntry (Some "page"%string) (Some sample_url)
                      (Some "ws://127.0.0.1/page/N"%string) None None;
                    exact_page])
                9222 sample_url 10 st0)
  = Raise timed_out.
Proof. vm_compute. reflexivity. Qed.

Section SocketlessEntries.
Context {L : UrlLib}.



Lemma wait_for_target_loop_outcome (fuel : nat) (env : Env) (debug_port : Z)
    (target_url : string) (start timeout : Q) (s : St) :
  match outcome_of (wait_for_target_loop fuel env debug_port target_url
                                         start timeout s) with
  | Ok (ws_url, _) => ws_url <> EmptyString
  | Raise e => e = timed_out
  | Diverge => True
  end.
Proof.
  revert s. induction fuel as [|fuel IH]; intros s.
  - cbn. destruct (Qlt_bool _ _); cbn; auto.
  - cbn [wait_for_target_loop]. unfold bind at 1, read_clock.
    destruct (Qlt_bool _ _); [|cbn; auto].
    unfold bind at 1, poll_once.
    destruct (http_get env _) as [payload|].
    + destruct (scan_payload target_url payload) eqn:Hscan.
      * cbn. apply scan_payload_found_socket in Hscan. tauto.
      * cbn. match goal with |- context [wait_for_target_loop ?f ?e ?p ?t ?a ?b ?x] =>
          specialize (IH x); destruct (wait_for_target_loop f e p t a b x) as [[o2 s2] l2] end.
        exact IH.
      * cbn. match goal with |- context [wait_for_target_loop ?f ?e ?p ?t ?a ?b ?x] =>
          specialize (IH x); destruct (wait_for_target_loop f e p t a b x) as [[o2 s2] l2] end.
        exact IH.
    + cbn. match goal with |- context [wait_for_target_loop ?f ?e ?p ?t ?a ?b ?x] =>
          specialize (IH x); destruct (wait_for_target_loop f e p t a b x) as [[o2 s2] l2] end.
        exact IH.
Qed.

End SocketlessEntries.


(** When no other entry matches, the only failure is the timeout of the
    polling loop. *)
Example socketless_only_times_out :
  outcome_of (_wait_for_debugger_target (L := py_urllib) 20
                (serving [socketless_page]) 9222 sample_url 10 st0)
  = Raise timed_out.
Proof. vm_compute. reflexivity. Qed.


(** ** The debugging socket *)

Section Socket.
Context {L : UrlLib}.







End Socket.



(** The responses to the two requests of the load wait are dropped like
    any other message that is not the load event. *)
Example load_wait_drops_responses :
  _wait_for_load_event (L := py_urllib) 20
    (receiving [mkMessage (Some 1) None None None None; an_event;
                mkMessage (Some 2) None None None None; load_fired])
    9222 sample_url 10 st0
  = (Ok tt, mkSt 7 1 1 0,
     [EvHttpGet 9222; EvWsConnect "ws://127.0.0.1/page/A";
      EvWsSend 1 "Page.enable"; EvWsSend 2 "Page.reload"; EvWsClose]).
Proof. vm_compute. reflexivity. Qed.

(** ** The chat client *)

Lemma delay_nonneg (backoff_initial : Q) (k : Z) :
  (0 <= backoff_initial)%Q -> (0 <= backoff_initial * inject_Z (2 ^ k))%Q.
Proof.
  intros Hd. apply Qmult_le_0_compat; [exact Hd|].
  rewrite <- (Zle_Qle 0). apply Z.pow_nonneg. lia.
Qed.

Section Chat.
Variables (env : Env) (model : string) (images : list string).
Variables (max_retries : Z) (backoff_initial : Q).
Hypothesis backoff_nonneg : (0 <= backoff_initial)%Q.

Lemma advance_post_S (s : St) (n : nat) :
  advance_post (advance_post s 1) n = advance_post s (S n).
Proof.
  unfold advance_post. cbn [st_clock st_http st_conn st_post].
  f_equal. lia.
Qed.

Lemma nth_attempt_S (s : St) (i : nat) :
  nth_attempt env (advance_post s 1) i = nth_attempt env s (S i).
Proof.
  unfold nth_attempt, advance_post. cbn [st_post]. do 2 f_equal. lia.
Qed.

Lemma controllers_chat_loop_retries (n : nat) :
  forall (fuel : nat) (attempt : Z) (s : St),
    (forall i, (i < n)%nat -> controllers_retried (nth_attempt env s i) = true) ->
    attempt + Z.of_nat n <= max_retries ->
    Controllers.chat_loop (n + fuel) env model images max_retries
                          backoff_initial attempt s
    = prepend (retry_log model images backoff_initial attempt n)
        (Controllers.chat_loop fuel env model images max_retries
                               backoff_initial (attempt + Z.of_nat n)
                               (advance_post s n)).
Proof.
  induction n as [|n IH]; intros fuel attempt s Hretried Hbudget.
  - cbn [Nat.add retry_log Z.of_nat]. rewrite Z.add_0_r.
    destruct s; unfold advance_post; cbn.
    destruct (Controllers.chat_loop _ _ _ _ _ _ _ _) as [[o s'] l].
    reflexivity.
  - cbn [Nat.add Controllers.chat_loop].
    pose proof (Hretried O ltac:(lia)) as H0.
    unfold nth_attempt in H0. cbn [Nat.add] in H0.
    unfold bind at 1, post.
    destruct (attempt_of (http_post env (st_post s))) as [c|msg|r status];
      try discriminate.
    cbn [controllers_retried] in H0. rewrite H0. cbn [negb orb].
    replace (max_retries <? attempt + 1) with false
      by (symmetry; apply Z.ltb_ge; lia).
    rewrite sleep_nonneg by (apply delay_nonneg, backoff_nonneg).
    unfold bind, emit. cbn [prepend app].
    change (mkSt (st_clock s) (st_http s) (st_conn s) (S (st_post s)))
      with (advance_post s 1).
    rewrite IH.
    + rewrite advance_post_S.
      replace (attempt + 1 + Z.of_nat n) with (attempt + Z.of_nat (S n))
        by lia.
      destruct (Controllers.chat_loop _ _ _ _ _ _ _ _) as [[o s'] l].
      reflexivity.
    + intros i Hi. rewrite nth_attempt_S. apply Hretried. lia.
    + lia.
Qed.

Lemma script_chat_loop_retries (n : nat) :
  forall (fuel : nat) (attempt : Z) (s : St),
    (forall i, (i < n)%nat -> script_retried (nth_attempt env s i) = true) ->
    attempt + Z.of_nat n <= max_retries ->
    Script.chat_loop (n + fuel) env model images max_retries
                     backoff_initial attempt s
    = prepend (retry_log model images backoff_initial attempt n)
        (Script.chat_loop fuel env model images max_retries
                          backoff_initial (attempt + Z.of_nat n)
                          (advance_post s n)).
Proof.
  induction n as [|n IH]; intros fuel attempt s Hretried Hbudget.
  - cbn [Nat.add retry_log Z.of_nat]. rewrite Z.add_0_r.
    destruct s; unfold advance_post; cbn.
    destruct (Script.chat_loop _ _ _ _ _ _ _ _) as [[o s'] l].
    reflexivity.
  - cbn [Nat.add Script.chat_loop].
    pose proof (Hretried O ltac:(lia)) as H0.
    unfold nth_attempt in H0. cbn [Nat.add] in H0.
    unfold bind at 1, post.
    destruct (attempt_of (http_post env (st_post s))) as [c|msg|r status];
      try discriminate.
    replace (max_retries <? attempt + 1) with false
      by (symmetry; apply Z.ltb_ge; lia).
    rewrite sleep_nonneg by (apply delay_nonneg, backoff_nonneg).
    unfold bind, emit. cbn [prepend app].
    change (mkSt (st_clock s) (st_http s) (st_conn s) (S (st_post s)))
      with (advance_post s 1).
    rewrite IH.
    + rewrite advance_post_S.
      replace (attempt + 1 + Z.of_nat n) with (attempt + Z.of_nat (S n))
        by lia.
      destruct (Script.chat_loop _ _ _ _ _ _ _ _) as [[o s'] l].
      reflexivity.
    + intros i Hi. rewrite nth_attempt_S. apply Hretried. lia.
    + lia.
Qed.

(** The attempt that ends the loop. *)
Lemma controllers_chat_loop_last (fuel : nat) (attempt : Z) (s : St) :
  controllers_retried (nth_attempt env s 0) = false
  \/ max_retries <= attempt ->
  Controllers.chat_loop (S fuel) env model images max_retries
                        backoff_initial attempt s
  = (final_outcome max_retries (nth_attempt env s 0), advance_post s 1,
     [EvPost model images]).
Proof.
  intros Hlast. cbn [Controllers.chat_loop]. unfold bind, post, nth_attempt in *.
  cbn [Nat.add] in *.
  destruct (attempt_of (http_post env (st_post s))) as [c|msg|r status];
    try reflexivity.
  cbn [controllers_retried final_outcome] in *.
  destruct Hlast as [-> | Hlast]; [reflexivity|].
  replace (max_retries <? attempt + 1) with true
    by (symmetry; apply Z.ltb_lt; lia).
  rewrite orb_true_r. reflexivity.
Qed.

Lemma script_chat_loop_last (fuel : nat) (attempt : Z) (s : St) :
  script_retried (nth_attempt env s 0) = false \/ max_retries <= attempt ->
  Script.chat_loop (S fuel) env model images max_retries
                   backoff_initial attempt s
  = (final_outcome max_retries (nth_attempt env s 0), advance_post s 1,
     [EvPost model images]).
Proof.
  intros Hlast. cbn [Script.chat_loop]. unfold bind, post, nth_attempt in *.
  cbn [Nat.add] in *.
  destruct (attempt_of (http_post env (st_post s))) as [c|msg|r status];
    try reflexivity.
  cbn [script_retried final_outcome] in *.
  destruct Hlast as [Hlast | Hlast]; [discriminate|].
  replace (max_retries <? attempt + 1) with true
    by (symmetry; apply Z.ltb_lt; lia).
  reflexivity.
Qed.

(** Among the attempts 0, ..., m there is a first one that ends the loop. *)
Lemma first_ending_attempt (retried : Attempt -> bool) (s : St) (m : nat) :
  exists n, (n <= m)%nat
    /\ (forall i, (i < n)%nat -> retried (nth_attempt env s i) = true)
    /\ (retried (nth_attempt env s n) = false \/ n = m).
Proof.
  induction m as [|m (n & Hle & Hbefore & Hend)].
  - exists O. repeat split; [lia | intros i Hi; lia | auto].
  - destruct Hend as [Hend | ->].
    + exists n. repeat split; [lia | assumption | auto].
    + destruct (retried (nth_attempt env s m)) eqn:Hm.
      * exists (S m). repeat split; [lia | | auto].
        intros i Hi. destruct (Nat.eq_dec i m) as [->|Hne];
          [assumption | apply Hbefore; lia].
      * exists m. repeat split; [lia | assumption | auto].
Qed.

End Chat.

(** The delays of three retries with base delay d are d, 2d and 4d. *)
Example retry_log_three (model : string) (images : list string) (d : Q) :
  retry_log model images d 0 3
  = [EvPost model images; EvSleep (d * inject_Z 1);
     EvPost model images; EvSleep (d * inject_Z 2);
     EvPost model images; EvSleep (d * inject_Z 4)].
Proof. reflexivity. Qed.

(** C9, on the code: the chat endpoint answers 404, which is not one of
    the server or rate-limit statuses, and then 200.  Neither client
    surfaces the error: both sleep two seconds and post again. *)
Theorem not_found_is_retried :
  http_post not_found_once 0 = PostHttp 404 (BodyData None)
  /\ retryable_status (Some 404) = false
  /\ Controllers.chat 4 not_found_once "m" [] 3 2 st0
     = (Ok (Some "ok"%string), mkSt 0 0 0 2,
        [EvPost "m" []; EvSleep 2; EvPost "m" []])
  /\ Script.chat 4 not_found_once "m" [] 3 2 st0
     = (Ok (Some "ok"%string), mkSt 0 0 0 2,
        [EvPost "m" []; EvSleep 2; EvPost "m" []]).
Proof. repeat split. Qed.

(** A negative base delay ends the call at the first retry: the sleep
    raises inside the handler, and its ValueError leaves [chat]. *)
Example negative_backoff_raises :
  Controllers.chat 4 not_found_once "m" [] 3 (-2) st0
  = (Raise (mkExn ValueError "sleep length must be non-negative"),
     mkSt 0 0 0 1, [EvPost "m" []])
  /\ Script.chat 4 not_found_once "m" [] 3 (-2) st0
     = (Raise (mkExn ValueError "sleep length must be non-negative"),
        mkSt 0 0 0 1, [EvPost "m" []]).
Proof. split; reflexivity. Qed.

(** The whole run of [chat]: the attempts before the first one that ends
    the loop are each followed by their sleep. *)
Lemma controllers_chat_run (env : Env) (model : string)
    (images : list string) (max_retries : Z) (backoff_initial : Q) (s : St)
    (Hd : (0 <= backoff_initial)%Q) :
  exists n,
    Z.of_nat n <= Z.max 0 max_retries
    /\ (forall i, (i < n)%nat ->
          controllers_retried (nth_attempt env s i) = true)
    /\ (controllers_retried (nth_attempt env s n) = false
        \/ max_retries <= Z.of_nat n)
    /\ forall extra,
         Controllers.chat (S (Z.to_nat max_retries) + extra) env model images
                          max_retries backoff_initial s
         = (final_outcome max_retries (nth_attempt env s n),
            advance_post s (S n),
            retry_log model images backoff_initial 0 n
            ++ [EvPost model images]).
Proof.
  destruct (first_ending_attempt env controllers_retried s
              (Z.to_nat max_retries)) as (n & Hle & Hbefore & Hend).
  exists n. split; [lia|]. split; [assumption|].
  assert (Hend' : controllers_retried (nth_attempt env s n) = false
                  \/ max_retries <= Z.of_nat n) by (destruct Hend; [auto|lia]).
  split; [assumption|].
  intros extra. unfold Controllers.chat.
  replace (S (Z.to_nat max_retries) + extra)%nat
    with (n + S (Z.to_nat max_retries - n + extra))%nat by lia.
  destruct n as [|n].
  - cbn [Nat.add retry_log app].
    rewrite controllers_chat_loop_last by (destruct Hend'; auto).
    reflexivity.
  - rewrite controllers_chat_loop_retries by (auto; lia).
    rewrite controllers_chat_loop_last.
    + unfold advance_post, nth_attempt, prepend.
      cbn [st_clock st_http st_conn st_post].
      repeat f_equal; lia.
    + unfold advance_post, nth_attempt in *. cbn [st_post Nat.add].
      destruct Hend' as [H|H]; [left; exact H | right; lia].
Qed.

Lemma script_chat_run (env : Env) (model : string)
    (images : list string) (max_retries : Z) (backoff_initial : Q) (s : St)
    (Hd : (0 <= backoff_initial)%Q) :
  exists n,
    Z.of_nat n <= Z.max 0 max_retries
    /\ (forall i, (i < n)%nat ->
          script_retried (nth_attempt env s i) = true)
    /\ (script_retried (nth_attempt env s n) = false
        \/ max_retries <= Z.of_nat n)
    /\ forall extra,
         Script.chat (S (Z.to_nat max_retries) + extra) env model images
                     max_retries backoff_initial s
         = (final_outcome max_retries (nth_attempt env s n),
            advance_post s (S n),
            retry_log model images backoff_initial 0 n
            ++ [EvPost model images]).
Proof.
  destruct (first_ending_attempt env script_retried s
              (Z.to_nat max_retries)) as (n & Hle & Hbefore & Hend).
  exists n. split; [lia|]. split; [assumption|].
  assert (Hend' : script_retried (nth_attempt env s n) = false
                  \/ max_retries <= Z.of_nat n) by (destruct Hend; [auto|lia]).
  split; [assumption|].
  intros extra. unfold Script.chat.
  replace (S (Z.to_nat max_retries) + extra)%nat
    with (n + S (Z.to_nat max_retries - n + extra))%nat by lia.
  destruct n as [|n].
  - cbn [Nat.add retry_log app].
    rewrite script_chat_loop_last by (destruct Hend'; auto).
    reflexivity.
  - rewrite script_chat_loop_retries by (auto; lia).
    rewrite script_chat_loop_last.
    + unfold advance_post, nth_attempt, prepend.
      cbn [st_clock st_http st_conn st_post].
      repeat f_equal; lia.
    + unfold advance_post, nth_attempt in *. cbn [st_post Nat.add].
      destruct Hend' as [H|H]; [left; exact H | right; lia].
Qed.

(** The retry policy the two clients implement, for a base delay that is
    not negative: a failed attempt is retried when it raised a
    [requests.RequestException], whatever the status: a connection failure
    and every HTTP error status, 4xx included (the client of the capture
    script also retries when the body is not JSON).  Before the k-th retry
    the client sleeps [backoff_initial * 2^(k-1)]; there are at most
    [max_retries] retries, after which the next failure raises
    OpenRouterError.  An error payload in a decoded body raises
    OpenRouterError at once, and so does, in the client of [controllers],
    a ValueError that is not a RequestException.  Every call returns. *)
Lemma chat_retry_policy (env : Env) (model : string)
    (images : list string) (max_retries : Z) (backoff_initial : Q)
    (s : St) (extra : nat) (Hd : (0 <= backoff_initial)%Q) :
  (exists n,
      Z.of_nat n <= Z.max 0 max_retries
      /\ (forall i, (i < n)%nat ->
            controllers_retried (nth_attempt env s i) = true)
      /\ (controllers_retried (nth_attempt env s n) = false
          \/ max_retries <= Z.of_nat n)
      /\ Controllers.chat (S (Z.to_nat max_retries) + extra) env model images
                          max_retries backoff_initial s
         = (final_outcome max_retries (nth_attempt env s n),
            advance_post s (S n),
            retry_log model images backoff_initial 0 n
            ++ [EvPost model images]))
  /\ (exists n,
      Z.of_nat n <= Z.max 0 max_retries
      /\ (forall i, (i < n)%nat ->
            script_retried (nth_attempt env s i) = true)
      /\ (script_retried (nth_attempt env s n) = false
          \/ max_retries <= Z.of_nat n)
      /\ Script.chat (S (Z.to_nat max_retries) + extra) env model images
                     max_retries backoff_initial s
         = (final_outcome max_retries (nth_attempt env s n),
            advance_post s (S n),
            retry_log model images backoff_initial 0 n
            ++ [EvPost model images]))
  /\ (forall status body,
        is_error_status status = true ->
        controllers_retried (attempt_of (PostHttp status body)) = true
        /\ script_retried (attempt_of (PostHttp status body)) = true)
  /\ controllers_retried (attempt_of PostFails) = true
  /\ script_retried (attempt_of PostFails) = true
  /\ (forall status msg,
        is_error_status status = false ->
        controllers_retried (attempt_of (PostHttp status (BodyError msg)))
        = false
        /\ script_retried (attempt_of (PostHttp status (BodyError msg)))
           = false
        /\ controllers_retried
             (attempt_of (PostHttp status (BodyInvalid false))) = false
        /\ script_retried
             (attempt_of (PostHttp status (BodyInvalid false))) = true).
Proof.
  split; [|split].
  - destruct (controllers_chat_run env model images max_retries
                backoff_initial s Hd) as (n & H1 & H2 & H3 & H4).
    exists n. auto.
  - destruct (script_chat_run env model images max_retries
                backoff_initial s Hd) as (n & H1 & H2 & H3 & H4).
    exists n. auto.
  - split; [|split; [|split]]; try reflexivity.
    + intros status body Hst. cbn [attempt_of]. rewrite Hst.
      cbn. rewrite orb_true_r. auto.
    + intros status msg Hst. cbn [attempt_of]. rewrite Hst. auto.
Qed.

(** ** Frame capture *)

Lemma py_int_nonneg (q : Q) : (0 <= q)%Q -> py_int q = Qfloor q.
Proof.
  intros Hq. destruct q as [n d]. unfold py_int, Qfloor. cbn [Qnum Qden].
  apply Z.quot_div_nonneg; [|lia].
  unfold Qle in Hq. cbn in Hq. lia.
Qed.

Lemma frame_indices_S (first : Z) (n : nat) :
  frame_indices first (S n) = first :: frame_indices (first + 1) n.
Proof.
  unfold frame_indices. cbn [seq map]. rewrite Z.add_0_r. f_equal.
  rewrite <- seq_shift, map_map. apply map_ext. intros i. lia.
Qed.

Lemma written_app (l1 l2 : list Event) :
  written (l1 ++ l2) = written l1 ++ written l2.
Proof.
  induction l1 as [|ev l1 IH]; [reflexivity|].
  destruct ev; cbn; rewrite ?IH; reflexivity.
Qed.

(** *** Floats *)

(** A rounded result has the sign it was given. *)
Lemma binary_round_aux_sign (sx : bool) (mx ex : Z) (lx : location)
    (s : bool) (m : positive) (e : Z) :
  binary_round_aux prec emax sx mx ex lx = S754_finite s m e -> s = sx.
Proof.
  unfold binary_round_aux.
  destruct (shr_fexp prec emax mx ex lx) as [mrs' e'].
  destruct (shr_fexp prec emax _ e' loc_Exact) as [mrs'' e''].
  destruct (shr_m mrs''); try discriminate.
  destruct (Z.leb e'' _); [|discriminate].
  intros H. injection H as <- _ _. reflexivity.
Qed.

Lemma finite_value_nonneg (m : positive) (e : Z) :
  (0 <= finite_value false m e)%Q.
Proof.
  unfold finite_value. destruct e as [|p|p].
  - rewrite <- (Zle_Qle 0). lia.
  - rewrite <- (Zle_Qle 0). pose proof (Z.pow_nonneg 2 (Zpos p)). nia.
  - unfold Qle. cbn. lia.
Qed.

(** [0 <= x] and [0 < x] on floats, read off the float. *)
Lemma fle_zero (x : float) :
  fle (float_of_Z 0) x = true ->
  match x with
  | S754_zero _ => True
  | S754_infinity s | S754_finite s _ _ => s = false
  | S754_nan => False
  end.
Proof. destruct x as [s|s| |s m e]; try destruct s; cbn; auto; discriminate. Qed.

Lemma flt_zero (x : float) :
  flt (float_of_Z 0) x = true ->
  match x with
  | S754_infinity s | S754_finite s _ _ => s = false
  | S754_zero _ | S754_nan => False
  end.
Proof. destruct x as [s|s| |s m e]; try destruct s; cbn; auto; discriminate. Qed.

(** The product of a duration that is not negative and a positive rate
    is not negative. *)
Lemma product_nonneg (duration fps : float) (q : Q) :
  fle (float_of_Z 0) duration = true ->
  flt (float_of_Z 0) fps = true ->
  float_value (fmul duration fps) = Some q ->
  (0 <= q)%Q.
Proof.
  intros Hd Hf. apply fle_zero in Hd. apply flt_zero in Hf.
  destruct duration as [sd|sd| |sd md ed], fps as [sf|sf| |sf mf ef];
    try contradiction; subst; cbn [fmul SFmul float_value];
    try discriminate;
    try (intros H; injection H as <-; apply Qle_refl).
  unfold fmul, SFmul. cbn [xorb].
  destruct (binary_round_aux prec emax false _ _ _) as [s|s| |s m e] eqn:Hr;
    cbn [float_value]; try discriminate.
  - intros H. injection H as <-. apply Qle_refl.
  - apply binary_round_aux_sign in Hr. subst s.
    intros H. injection H as <-. apply finite_value_nonneg.
Qed.

(** [int(x)] is defined on the floats that have a value, and truncates
    it. *)
Lemma int_of_float_value (x : float) (n : Z) :
  int_of_float x = Ok n <->
  exists q, float_value x = Some q /\ n = py_int q.
Proof.
  destruct x as [s|s| |s m e]; cbn [int_of_float float_value]; split;
    try discriminate; try (intros (q & H & _); discriminate).
  - intros H. injection H as <-. exists 0%Q. auto.
  - intros (q & H & ->). injection H as <-. reflexivity.
  - intros H. injection H as <-. eauto.
  - intros (q & H & ->). injection H as <-. reflexivity.
Qed.

(** What [int(x)] raises. *)
Lemma int_of_float_raises (x : float) (e : Exn) :
  int_of_float x = Raise e ->
  (x = S754_nan /\ exn_class e = ValueError)
  \/ (exists s, x = S754_infinity s) /\ exn_class e = OverflowError.
Proof.
  destruct x as [s|s| |s m e']; cbn [int_of_float]; try discriminate;
    intros H; injection H as <-; cbn; eauto.
Qed.

(** *** The prologue of a capture *)

Lemma capture_frames_run (fuel : nat) (env : Env) (region : Region)
    (duration fps : float) (dir : string) (s : St) :
  capture_frames fuel env region duration fps dir s
  = match mkdir_result env with
    | Some e => (Raise e, s, [EvMkdir dir])
    | None =>
        if is_zero fps then (Raise zero_division, s, [EvMkdir dir])
        else
          match mss_result env with
          | Some e => (Raise e, s, [EvMkdir dir])
          | None =>
              match int_of_float (fmul duration fps) with
              | Ok target_frames =>
                  prepend [EvMkdir dir]
                    (capture_loop fuel env region dir
                       (perf_counter env (st_clock s))
                       (fdiv (float_of_Z 1) fps) target_frames 0 []
                       (tick s))
              | Raise e => (Raise e, tick s, [EvMkdir dir])
              | Diverge => (Diverge, tick s, [EvMkdir dir])
              end
          end
    end.
Proof.
  unfold capture_frames. unfold bind at 1, external.
  destruct (mkdir_result env); [reflexivity|].
  unfold bind at 1, lift, float_div.
  destruct (is_zero fps); [reflexivity|].
  unfold bind at 1, may_raise. cbn [prepend app].
  destruct (mss_result env); [reflexivity|].
  unfold bind at 1, read_perf_counter. fold (tick s). cbn [prepend app].
  unfold bind at 1, lift.
  destruct (int_of_float (fmul duration fps)); try reflexivity.
  cbn [prepend app].
  destruct (capture_loop _ _ _ _ _ _ _ _ _ _) as [[o s2] l2]. reflexivity.
Qed.

Section CaptureLoop.
Variables (env : Env) (region : Region) (dir : string).
Variables (start_time interval : float) (target_frames : Z).

Local Abbreviation loop fuel :=
  (capture_loop fuel env region dir start_time interval target_frames).

(** Whatever the clock does, a run that returns has produced the frames
    [frame_count, ..., target_frames - 1], in order. *)
Lemma capture_loop_returns (fuel : nat) :
  forall (frame_count : Z) (frame_paths : list string) (s s' : St)
         (paths : list string) (log : list Event),
    loop fuel frame_count frame_paths s = (Ok paths, s', log) ->
    paths = frame_paths
            ++ map (frame_path dir)
                 (frame_indices frame_count
                                (Z.to_nat (target_frames - frame_count)))
    /\ written log
       = map (frame_path dir)
           (frame_indices frame_count
                          (Z.to_nat (target_frames - frame_count))).
Proof.
  induction fuel as [|fuel IH]; intros k acc s s' paths log;
    rewrite capture_loop_step;
    destruct (k <? target_frames) eqn:Hk; try discriminate;
    try (apply Z.ltb_ge in Hk; intros H; injection H as <- <- <-;
         replace (Z.to_nat (target_frames - k)) with O by lia;
         cbn; rewrite app_nil_r; auto; fail).
  apply Z.ltb_lt in Hk.
  assert (Hn : Z.to_nat (target_frames - k)
               = S (Z.to_nat (target_frames - (k + 1)))) by lia.
  destruct (frame_due _ _ _ _).
  - destruct (grab_result env k); [discriminate|].
    destruct (capture_loop fuel _ _ _ _ _ _ _ _ _) as [[o s2] l2] eqn:Hrec.
    cbn [prepend]. intros H. injection H as -> <- <-.
    apply IH in Hrec. destruct Hrec as [-> Hw].
    rewrite Hn, frame_indices_S. cbn [map].
    rewrite <- app_assoc. cbn. rewrite Hw. auto.
  - destruct (capture_loop fuel _ _ _ _ _ _ _ _ _) as [[o s2] l2] eqn:Hrec.
    cbn [prepend]. intros H. injection H as -> <- <-.
    apply IH in Hrec. cbn. exact Hrec.
Qed.

(** What the loop raises is the failure of a frame; the frames before it
    were written. *)
Lemma capture_loop_fails (fuel : nat) :
  forall (frame_count : Z) (frame_paths : list string) (s s' : St)
         (e : Exn) (log : list Event),
    loop fuel frame_count frame_paths s = (Raise e, s', log) ->
    exists k,
      frame_count <= k < target_frames
      /\ grab_result env k = Some e
      /\ (forall i, frame_count <= i < k -> grab_result env i = None)
      /\ written log
         = map (frame_path dir)
               (frame_indices frame_count (Z.to_nat (k - frame_count))).
Proof.
  induction fuel as [|fuel IH]; intros k acc s s' e log;
    rewrite capture_loop_step;
    destruct (k <? target_frames) eqn:Hk; try discriminate.
  apply Z.ltb_lt in Hk.
  destruct (frame_due _ _ _ _).
  - destruct (grab_result env k) as [e'|] eqn:Hgrab.
    + intros H. injection H as -> <- <-. exists k.
      replace (Z.to_nat (k - k)) with O by lia.
      repeat split; try lia; try assumption.
    + destruct (capture_loop fuel _ _ _ _ _ _ _ _ _) as [[o s2] l2] eqn:Hrec.
      cbn [prepend]. intros H. injection H as -> <- <-.
      apply IH in Hrec. destruct Hrec as (j & Hj & Hfail & Hok & Hw).
      exists j. repeat split; try lia; try assumption.
      * intros i Hi. destruct (Z.eq_dec i k) as [->|Hne];
          [assumption | apply Hok; lia].
      * replace (Z.to_nat (j - k)) with (S (Z.to_nat (j - (k + 1)))) by lia.
        rewrite frame_indices_S. cbn. rewrite Hw. reflexivity.
  - destruct (capture_loop fuel _ _ _ _ _ _ _ _ _) as [[o s2] l2] eqn:Hrec.
    cbn [prepend]. intros H. injection H as -> <- <-.
    apply IH in Hrec. destruct Hrec as (j & Hj & Hfail & Hok & Hw).
    exists j. repeat split; try lia; assumption.
Qed.

Hypothesis grabs_succeed : forall k, grab_result env k = None.

(** Frame [frame_count] is grabbed at the first reading at which it is
    due; a reading at distance [d] is due. *)
Lemma capture_loop_waits (d : nat) :
  forall (frame_count : Z) (frame_paths : list string) (s : St),
    frame_count < target_frames ->
    frame_due (perf_counter env (d + st_clock s)) start_time interval
              frame_count = true ->
    exists (used : nat) (s1 : St) (l1 : list Event),
    forall fuel,
      loop (S used + fuel) frame_count frame_paths s
      = prepend (l1 ++ [EvGrab region;
                        EvWritePng (frame_path dir frame_count)])
          (loop fuel (frame_count + 1)
                (frame_paths ++ [frame_path dir frame_count]) s1).
Proof.
  induction d as [|d IH]; intros k acc s Hk Hdue;
    destruct (frame_due (perf_counter env (st_clock s)) start_time interval
                        k) eqn:Hnow.
  1, 2, 3:
    exists O, (tick s), []; intros fuel; cbn [Nat.add];
    rewrite (capture_loop_step (S _));
    apply Z.ltb_lt in Hk; rewrite Hk, grabs_succeed;
    ((rewrite Hnow; reflexivity)
     || (cbn [Nat.add] in Hdue; rewrite Hdue in Hnow; discriminate)).
  destruct (IH k acc (tick s) Hk) as (used & s1 & l1 & Hrun).
  { cbn [tick st_clock]. replace (d + S (st_clock s))%nat
      with (S d + st_clock s)%nat by lia. exact Hdue. }
  exists (S used), s1, (EvSleep (1 # 1000) :: l1).
  intros fuel.
  change (S (S used) + fuel)%nat with (S (S used + fuel)).
  rewrite (capture_loop_step (S _)).
  pose proof Hk as Hk'. apply Z.ltb_lt in Hk'. rewrite Hk', Hnow, Hrun.
  destruct (capture_loop fuel _ _ _ _ _ _ _ _ _) as [[o s2] l2].
  reflexivity.
Qed.

Hypothesis becomes_due :
  frames_become_due env start_time interval target_frames.

(** Every frame becomes due, so the loop returns. *)
Lemma capture_loop_total (m : nat) :
  forall (frame_count : Z) (frame_paths : list string) (s : St),
    0 <= frame_count ->
    target_frames - frame_count = Z.of_nat m ->
    exists (fuel : nat) (s' : St) (log : list Event),
      (forall extra,
          loop (fuel + extra) frame_count frame_paths s
          = (Ok (frame_paths
                 ++ map (frame_path dir) (frame_indices frame_count m)),
             s', log))
      /\ (m <> O ->
          exists log',
            log = log' ++ [EvWritePng (frame_path dir (target_frames - 1))]).
Proof.
  induction m as [|m IH]; intros k acc s Hk0 Hm.
  - exists O, s, []. split; [|congruence].
    intros extra. cbn [Nat.add].
    assert (Hk : (k <? target_frames) = false) by (apply Z.ltb_ge; lia).
    rewrite capture_loop_step, Hk. cbn. rewrite app_nil_r. reflexivity.
  - destruct (becomes_due k ltac:(lia) (st_clock s)) as (j & Hj & Hdue).
    destruct (capture_loop_waits (j - st_clock s) k acc s) as
      (used & s1 & l1 & Hrun); [lia | |].
    { replace (j - st_clock s + st_clock s)%nat with j by lia. exact Hdue. }
    destruct (IH (k + 1) (acc ++ [frame_path dir k]) s1) as
      (fuel & s' & log & Hrest & Hlast); [lia | lia |].
    exists (S used + fuel)%nat, s',
      ((l1 ++ [EvGrab region; EvWritePng (frame_path dir k)]) ++ log).
    split.
    + intros extra. rewrite <- Nat.add_assoc.
      rewrite Hrun, Hrest. cbn [prepend].
      rewrite frame_indices_S, <- app_assoc. reflexivity.
    + intros _. destruct m as [|m].
      * specialize (Hrest O). rewrite Nat.add_0_r in Hrest.
        exists (l1 ++ [EvGrab region]).
        assert (Hlog : log = []).
        { assert (Hk : (k + 1 <? target_frames) = false)
            by (apply Z.ltb_ge; lia).
          rewrite capture_loop_step, Hk in Hrest. congruence. }
        rewrite Hlog, app_nil_r, <- app_assoc.
        replace (target_frames - 1) with k by lia. reflexivity.
      * destruct Hlast as (log' & ->); [congruence|].
        exists ((l1 ++ [EvGrab region; EvWritePng (frame_path dir k)])
                ++ log').
        rewrite app_assoc. reflexivity.
Qed.

End CaptureLoop.

Lemma Qfloor_nonneg (q : Q) : (0 <= q)%Q -> 0 <= Qfloor q.
Proof.
  intros Hq. destruct q as [n d]. unfold Qfloor.
  apply Z.div_pos; [|lia]. unfold Qle in Hq. cbn in Hq. lia.
Qed.

Lemma unit_clock_unbounded (env : Env) :
  (forall i, clock env i = unit_clock i) -> clock_unbounded env.
Proof.
  intros Hclock i B.
  exists (Nat.max i (Z.to_nat (Qceiling B))). split; [lia|].
  rewrite Hclock. unfold unit_clock.
  apply Qle_trans with (inject_Z (Qceiling B)); [apply Qle_ceiling|].
  rewrite <- Zle_Qle. lia.
Qed.

(** After a minute the counter of the sample worlds reads 60 seconds: the
    ten frames of five seconds at two per second, counted from the first
    reading, are due. *)
Lemma minute_counter_due (env : Env) :
  (forall i, perf_counter env i = minute_counter i) ->
  frames_become_due env (perf_counter env 0)
                    (fdiv (float_of_Z 1) (float_of_Z 2)) 10.
Proof.
  intros Hcounter k Hk i. exists (Nat.max i 60). split; [lia|].
  rewrite !Hcounter. unfold minute_counter.
  replace (Nat.min (Nat.max i 60) 60) with 60%nat by lia.
  assert (Hcases : k = 0 \/ k = 1 \/ k = 2 \/ k = 3 \/ k = 4 \/ k = 5
                   \/ k = 6 \/ k = 7 \/ k = 8 \/ k = 9) by lia.
  repeat (destruct Hcases as [->|Hcases]; [vm_compute; reflexivity|]).
  subst k. vm_compute. reflexivity.
Qed.

(** C1, as stated, fails.  A duration that is not negative and a positive
    rate whose product is not finite give no frame at all: the conversion
    of the product raises OverflowError, the output directory having been
    created; the product of two finite numbers can overflow.  And the
    product that is floored is the rounded one: a third of a second
    (0.3333333333333333) at 3 frames per second is a product below 1,
    whose floor is 0, and the capture produces one frame. *)
Lemma capture_frames_count_counterexample :
  fle (float_of_Z 0) huge = true
  /\ flt (float_of_Z 0) (float_of_Z 4) = true
  /\ float_value huge = Some (inject_Z (2 ^ 1023))
  /\ fmul huge (float_of_Z 4) = infinity
  /\ capture_frames 20 silent_env (mkRegion 0 90 1280 690) huge
                    (float_of_Z 4) "out" st0
     = (Raise (mkExn OverflowError
                     "cannot convert float infinity to integer"),
        tick st0, [EvMkdir "out"])
  /\ flt (float_of_Z 0) infinity = true
  /\ capture_frames 20 silent_env (mkRegion 0 90 1280 690) (float_of_Z 1)
                    infinity "out" st0
     = (Raise (mkExn OverflowError
                     "cannot convert float infinity to integer"),
        tick st0, [EvMkdir "out"])
  /\ fle (float_of_Z 0) one_third = true
  /\ flt (float_of_Z 0) (float_of_Z 3) = true
  /\ float_value one_third = Some (6004799503160661 # 18014398509481984)
  /\ float_value (float_of_Z 3) = Some (6755399441055744 # 2251799813685248)
  /\ ((6755399441055744 # 2251799813685248) == 3)%Q
  /\ Qfloor ((6004799503160661 # 18014398509481984)
             * (6755399441055744 # 2251799813685248)) = 0
  /\ outcome_of (capture_frames 20 silent_env (mkRegion 0 90 1280 690)
                   one_third (float_of_Z 3) "out" st0)
     = Ok ["out/frame_0000.png"%string].
Proof. vm_compute. repeat split. Qed.

(** C1, amended: for a duration that is not negative and a positive rate
    whose product, computed in binary64, is finite, a capture that returns
    has produced exactly [floor(duration * fps)] frames, the product being
    the rounded one, with the indices 0, 1, ..., in this order and nothing
    else, whatever the clock did; when the output directory and the grabber
    can be created, the frames can be grabbed and each of them becomes due,
    the capture does return, and its last effect is the write of the last
    frame.  When the product is not finite, the conversion of the frame
    count raises (OverflowError for an infinite product, ValueError for
    the product of zero and infinity) and no frame is produced.  5 s at
    2 fps are 10 frames, 1 s at 3 fps are 3 frames, and 0.3333333333333333 s
    at 3 fps are 1 frame, the product being rounded to 1. *)
Theorem capture_frames_count (region : Region) (duration fps : float)
    (dir : string)
    (Hduration : fle (float_of_Z 0) duration = true)
    (Hfps : flt (float_of_Z 0) fps = true) :
  (forall q,
      float_value (fmul duration fps) = Some q ->
      (0 <= q)%Q
      /\ (forall env fuel s paths s' log,
             capture_frames fuel env region duration fps dir s
             = (Ok paths, s', log) ->
             paths = map (frame_path dir)
                         (frame_indices 0 (Z.to_nat (Qfloor q)))
             /\ written log = paths
             /\ List.length paths = Z.to_nat (Qfloor q))
      /\ (forall env s,
             mkdir_result env = None ->
             mss_result env = None ->
             (forall k, grab_result env k = None) ->
             frames_become_due env (perf_counter env (st_clock s))
                               (fdiv (float_of_Z 1) fps) (Qfloor q) ->
             exists fuel s' log,
               (forall extra,
                   capture_frames (fuel + extra) env region duration fps
                                  dir s
                   = (Ok (map (frame_path dir)
                            (frame_indices 0 (Z.to_nat (Qfloor q)))),
                      s', log))
               /\ (Z.to_nat (Qfloor q) <> O ->
                   exists log',
                     log = log'
                           ++ [EvWritePng (frame_path dir (Qfloor q - 1))])))
  /\ (float_value (fmul duration fps) = None ->
      exists e,
        int_of_float (fmul duration fps) = Raise e
        /\ ((fmul duration fps = S754_nan /\ exn_class e = ValueError)
            \/ ((exists sign, fmul duration fps = S754_infinity sign)
                /\ exn_class e = OverflowError))
        /\ forall env fuel s,
             mkdir_result env = None ->
             mss_result env = None ->
             capture_frames fuel env region duration fps dir s
             = (Raise e, tick s, [EvMkdir dir]))
  /\ option_map Qfloor (float_value (fmul (float_of_Z 5) (float_of_Z 2)))
     = Some 10
  /\ option_map Qfloor (float_value (fmul (float_of_Z 1) (float_of_Z 3)))
     = Some 3
  /\ option_map Qfloor (float_value (fmul one_third (float_of_Z 3)))
     = Some 1.
Proof.
  assert (Hnz : is_zero fps = false).
  { apply flt_zero in Hfps. destruct fps; try contradiction; reflexivity. }
  split; [|split; [|split; [|split]; vm_compute; reflexivity]].
  - intros q Hproduct.
    pose proof (product_nonneg _ _ _ Hduration Hfps Hproduct) as Hq.
    assert (Hint : int_of_float (fmul duration fps) = Ok (Qfloor q)).
    { apply int_of_float_value. exists q. split; [exact Hproduct|].
      symmetry. apply py_int_nonneg. exact Hq. }
    pose proof (Qfloor_nonneg _ Hq) as Hfloor.
    split; [exact Hq|]. split.
    + intros env fuel s paths s' log Hrun.
      rewrite capture_frames_run, Hnz, Hint in Hrun.
      destruct (mkdir_result env); [discriminate|].
      destruct (mss_result env); [discriminate|].
      destruct (capture_loop _ _ _ _ _ _ _ _ _ _) as [[o s2] l2] eqn:Hloop.
      cbn in Hrun. injection Hrun as -> <- <-.
      apply capture_loop_returns in Hloop. rewrite Z.sub_0_r in Hloop.
      destruct Hloop as [-> Hw]. cbn [app written].
      split; [reflexivity|]. split; [assumption|].
      unfold frame_indices. rewrite !length_map, length_seq. reflexivity.
    + intros env s Hmkdir Hmss Hgrab Hdue.
      destruct (capture_loop_total env region dir
                  (perf_counter env (st_clock s)) (fdiv (float_of_Z 1) fps)
                  (Qfloor q) Hgrab Hdue (Z.to_nat (Qfloor q)) 0 [] (tick s))
        as (fuel & s' & log & Hrun & Hlast); [lia | lia |].
      exists fuel, s', (EvMkdir dir :: log). split.
      * intros extra. rewrite capture_frames_run, Hmkdir, Hnz, Hmss, Hint.
        rewrite Hrun. reflexivity.
      * intros Hn. destruct (Hlast Hn) as (log' & ->).
        exists (EvMkdir dir :: log'). reflexivity.
  - intros Hproduct.
    assert (Hint : exists e, int_of_float (fmul duration fps) = Raise e).
    { destruct (fmul duration fps); cbn in Hproduct |- *;
        try discriminate; eauto. }
    destruct Hint as (e & Hint). exists e. split; [exact Hint|].
    split; [exact (int_of_float_raises _ _ Hint)|].
    intros env fuel s Hmkdir Hmss.
    rewrite capture_frames_run, Hmkdir, Hnz, Hmss, Hint. reflexivity.
Qed.

Lemma capture_frames_count_witness :
  exists fuel s' log,
    forall extra,
      capture_frames (fuel + extra) silent_env (mkRegion 0 90 1280 690)
                     (float_of_Z 5) (float_of_Z 2) "out" st0
      = (Ok (map (frame_path "out") (frame_indices 0 10)), s', log).
Proof.
  destruct (proj2 (proj2
              (proj1 (capture_frames_count (mkRegion 0 90 1280 690)
                        (float_of_Z 5) (float_of_Z 2) "out" eq_refl eq_refl)
                 (5629499534213120 # 562949953421312)
                 ltac:(vm_compute; reflexivity)))
              silent_env st0 eq_refl eq_refl (fun k => eq_refl)
              (minute_counter_due silent_env (fun i => eq_refl)))
    as (fuel & s' & log & Hrun & _).
  exists fuel, s', log. exact Hrun.
Defined.

(** C10: with a rate that is zero (0.0 or -0.0) the call raises
    ZeroDivisionError, once the output directory has been created and
    before anything else; with any other rate the division returns and
    never raises: whatever the call raises then comes from the grabber,
    from the conversion of the frame count (a ValueError or an
    OverflowError) or from a frame. *)
Theorem capture_frames_division_guard (env : Env) (region : Region)
    (duration fps : float) (dir : string) (s : St)
    (Hmkdir : mkdir_result env = None) :
  (is_zero fps = true ->
   forall fuel,
     capture_frames fuel env region duration fps dir s
     = (Raise zero_division, s, [EvMkdir dir]))
  /\ (is_zero fps = false ->
      float_div (float_of_Z 1) fps = Ok (fdiv (float_of_Z 1) fps)
      /\ forall fuel e,
           outcome_of (capture_frames fuel env region duration fps dir s)
           = Raise e ->
           mss_result env = Some e
           \/ (int_of_float (fmul duration fps) = Raise e
               /\ (exn_class e = ValueError \/ exn_class e = OverflowError))
           \/ exists k, 0 <= k /\ grab_result env k = Some e).
Proof.
  split.
  - intros Hzero fuel. rewrite capture_frames_run, Hmkdir, Hzero.
    reflexivity.
  - intros Hnz. split; [unfold float_div; rewrite Hnz; reflexivity|].
    intros fuel e. rewrite capture_frames_run, Hmkdir, Hnz.
    destruct (mss_result env) as [e'|];
      [intros H; injection H as ->; auto|].
    destruct (int_of_float (fmul duration fps)) as [n|e'|] eqn:Hint;
      [|intros H; injection H as ->|discriminate].
    + rewrite outcome_of_prepend.
      destruct (capture_loop _ _ _ _ _ _ _ _ _ _) as [[o s2] l2] eqn:Hloop.
      cbn. intros ->. apply capture_loop_fails in Hloop.
      destruct Hloop as (k & Hk & Hfail & _). right. right.
      exists k. split; [lia | exact Hfail].
    + right. left. split; [reflexivity|].
      destruct (int_of_float_raises _ _ Hint) as [[_ H]|[_ H]]; auto.
Qed.

Lemma capture_frames_division_guard_witness :
  capture_frames 0 silent_env (mkRegion 0 90 1280 690) (float_of_Z 5)
                 (float_of_Z 0) "out" st0
  = (Raise zero_division, st0, [EvMkdir "out"]).
Proof.
  exact (proj1 (capture_frames_division_guard silent_env
                  (mkRegion 0 90 1280 690) (float_of_Z 5) (float_of_Z 0)
                  "out" st0 eq_refl)
           eq_refl O).
Defined.

(** The negative zero divides no better, and a rate that is not a number
    passes the division: the conversion of the frame count raises. *)
Example capture_frames_other_rates :
  capture_frames 0 silent_env (mkRegion 0 90 1280 690) (float_of_Z 5)
                 (S754_zero true) "out" st0
  = (Raise zero_division, st0, [EvMkdir "out"])
  /\ capture_frames 0 silent_env (mkRegion 0 90 1280 690) (float_of_Z 5)
                    S754_nan "out" st0
     = (Raise (mkExn ValueError "cannot convert float NaN to integer"),
        tick st0, [EvMkdir "out"]).
Proof. split; reflexivity. Qed.

(** ** The wait for the load event *)

(** The receive loop has no error of its own: what it raises was raised by
    a receive and is not a receive timeout. *)
Lemma load_event_loop_raises (env : Env) (conn : nat) (start timeout : Q)
    (fuel : nat) :
  forall (k : nat) (s : St) (e : Exn),
    outcome_of (load_event_loop fuel env conn k start timeout s) = Raise e ->
    exists j, ws_recv env conn j = RecvRaise e
              /\ is_ws_timeout (exn_class e) = false.
Proof.
  induction fuel as [|fuel IH]; intros k s e.
  - cbn. unfold bind, read_clock. destruct (Qlt_bool _ _); discriminate.
  - cbn [load_event_loop]. unfold bind at 1, read_clock.
    destruct (Qlt_bool _ _); [|discriminate].
    unfold bind at 1, try_except, ws_receive.
    unfold bind at 1.
    destruct (ws_recv env conn k) as [m|e'] eqn:Hrecv.
    + cbn. destruct (opt_string_eqb _ _); [discriminate|].
      rewrite !outcome_of_prepend. apply IH.
    + destruct (is_ws_timeout (exn_class e')) eqn:Hto.
      * cbn. rewrite !outcome_of_prepend. apply IH.
      * cbn. intros H. injection H as <-. exists k. auto.
Qed.

(** C3, on the code: the page is found, the socket opens, and no load
    event arrives within the ten seconds of the timeout (every receive
    times out).  The function returns normally. *)
Theorem load_event_timeout_returns_normally :
  let env := serving [exact_page] in
  (forall k, ws_recv env 0 k = RecvRaise ws_timeout)
  /\ _wait_for_load_event (L := py_urllib) 20 env 9222 sample_url 10 st0
     = (Ok tt, mkSt 13 1 1 0,
        [EvHttpGet 9222; EvWsConnect "ws://127.0.0.1/page/A";
         EvWsSend 1 "Page.enable"; EvWsSend 2 "Page.reload"; EvWsClose]).
Proof. split; [intros k; reflexivity | vm_compute; reflexivity]. Qed.

(** ** The run as a whole *)

Lemma cleanup_runs (env : Env) (s : St) :
  cleanup env s = (Ok tt, s, cleanup_log env).
Proof.
  unfold cleanup, cleanup_log, bind, emit, try_except, external.
  destruct (wait_exits env); reflexivity.
Qed.

Lemma try_finally_cleanup {A : Type} (env : Env) (m : M A) (s : St) :
  outcome_of (m s) <> Diverge ->
  try_finally m (cleanup env) s
  = (outcome_of (m s), state_of (m s), log_of (m s) ++ cleanup_log env).
Proof.
  unfold try_finally, outcome_of, state_of, log_of.
  destruct (m s) as [[o s1] l1]. cbn [fst snd].
  rewrite cleanup_runs. destruct o; [reflexivity | reflexivity | congruence].
Qed.

Lemma try_finally_diverge {A : Type} (m : M A) (fin : M unit) (s : St) :
  outcome_of (m s) = Diverge ->
  outcome_of (try_finally m fin s) = Diverge.
Proof.
  unfold try_finally, outcome_of.
  destruct (m s) as [[o s1] l1]. cbn [fst]. intros ->. reflexivity.
Qed.

Section Main.
Context {L : UrlLib}.

Lemma main_started (fuel : nat) (env : Env) (args : Args) (s : St) :
  browser_started env args = true ->
  main fuel env args s
  = prepend (launch_log env args)
      (try_finally (guarded_body fuel env args) (cleanup env) s).
Proof.
  unfold browser_started, main, launch_log, guarded_body, page_url.
  intros Hstart. apply andb_true_iff in Hstart as [Hfile Hpopen].
  destruct (popen_result env); [discriminate|].
  destruct (is_http_url (html_path args)); cbn [negb andb orb] in *.
  - unfold bind, emit, external. cbn [prepend app].
    destruct (try_finally _ _ s) as [[o s1] l1]. reflexivity.
  - rewrite Hfile. cbn [negb]. unfold bind, emit, external. cbn [prepend app].
    destruct (try_finally _ _ s) as [[o s1] l1]. reflexivity.
Qed.

(** An exception of class Exception raised by the body is printed, and
    [main] returns. *)
Lemma guarded_body_reports (fuel : nat) (env : Env) (args : Args) (s : St)
    (e : Exn) :
  outcome_of (main_body fuel env args (page_url env args) s) = Raise e ->
  is_Exception (exn_class e) = true ->
  outcome_of (guarded_body fuel env args s) = Ok tt
  /\ log_of (guarded_body fuel env args s)
     = log_of (main_body fuel env args (page_url env args) s)
       ++ [EvPrint (newline ++ "ERROR: " ++ exn_msg e)%string].
Proof.
  unfold guarded_body, try_except, outcome_of, log_of.
  destruct (main_body _ _ _ _ s) as [[o s1] l1]. cbn [fst snd].
  intros -> ->. cbn. auto.
Qed.

Lemma guarded_body_diverges (fuel : nat) (env : Env) (args : Args) (s : St) :
  outcome_of (guarded_body fuel env args s) = Diverge <->
  outcome_of (main_body fuel env args (page_url env args) s) = Diverge.
Proof.
  unfold guarded_body, try_except, outcome_of, report_error, emit.
  destruct (main_body _ _ _ _ s) as [[o s1] l1]. cbn [fst].
  destruct o; cbn; [tauto| |tauto].
  destruct (is_Exception _); cbn; split; discriminate.
Qed.

End Main.


(** Whatever exception of class Exception the body raises, [main] returns
    and the process exits with status 0. *)
Lemma failure_exit_status {L : UrlLib} (fuel : nat) (env : Env)
    (args : Args) (s : St) (e : Exn) :
  browser_started env args = true ->
  outcome_of (main_body fuel env args (page_url env args) s) = Raise e ->
  is_Exception (exn_class e) = true ->
  exit_status (outcome_of (main fuel env args s)) = Some 0
  /\ In (EvPrint (newline ++ "ERROR: " ++ exn_msg e)%string)
        (log_of (main fuel env args s)).
Proof.
  intros Hstarted Hraise Hclass.
  destruct (guarded_body_reports fuel env args s e Hraise Hclass)
    as [Hok Hlog].
  rewrite main_started by assumption.
  rewrite outcome_of_prepend, log_of_prepend.
  rewrite try_finally_cleanup by (rewrite Hok; discriminate).
  cbn [outcome_of log_of fst snd]. fold (outcome_of (guarded_body fuel env args s)).
  rewrite Hok. split; [reflexivity|].
  fold (log_of (guarded_body fuel env args s)). rewrite Hlog.
  apply in_or_app. right. apply in_or_app. left.
  apply in_or_app. right. cbn. auto.
Qed.

(** C7, on the code: the discovery endpoint never answers.  The run prints
    the error, cleans up, and the process exits with status 0. *)
Theorem discovery_failure_exit_status :
  (forall n, http_get silent_env n = None)
  /\ main (L := py_urllib) 20 silent_env sample_args st0
     = (Ok tt, mkSt 11 9 0 0,
        launch_log silent_env sample_args
        ++ List.concat (repeat [EvHttpGet 9222; EvSleep (1 # 10)] 9)
        ++ [EvPrint (newline
                     ++ "ERROR: Timed out waiting for DevTools endpoint")]
        ++ cleanup_log silent_env)
  /\ exit_status
       (outcome_of (main (L := py_urllib) 20 silent_env sample_args st0))
     = Some 0.
Proof.
  split; [intros n; reflexivity|].
  split; vm_compute; reflexivity.
Qed.

(** A geometry failure ends the same way: the window has no bounds. *)
Example geometry_failure_exit_status :
  let r := main (L := py_urllib) 20 only_events local_args st0 in
  exit_status (outcome_of r) = Some 0
  /\ In (EvPrint (newline ++ "ERROR: Failed to read Chrome window bounds from DevTools."))
        (log_of r).
Proof. vm_compute. split; [reflexivity|]. tauto. Qed.

(** ** Termination *)

Lemma settles_const {A : Type} (m : M A) (s : St) :
  outcome_of (m s) <> Diverge -> settles (fun _ => m) s.
Proof. intros H. exists O. auto. Qed.

Lemma settles_bind {A B : Type} (f : nat -> M A) (g : A -> nat -> M B)
    (s : St) :
  settles f s ->
  (forall a s1, settles (g a) s1) ->
  settles (fun fuel => bind (f fuel) (fun a => g a fuel)) s.
Proof.
  intros (fuel1 & Hend1 & Hsame1) Hg.
  destruct (f fuel1 s) as [[o s1] l1] eqn:Hf.
  destruct o as [a|e|]; [| |exfalso; apply Hend1; reflexivity].
  - destruct (Hg a s1) as (fuel2 & Hend2 & Hsame2).
    assert (Hrun : forall extra,
               bind (f (fuel1 + fuel2 + extra)%nat)
                    (fun a => g a (fuel1 + fuel2 + extra)%nat) s
               = prepend l1 (g a fuel2 s1)).
    { intros extra. unfold bind.
      rewrite <- Nat.add_assoc, Hsame1.
      replace (fuel1 + (fuel2 + extra))%nat with (fuel2 + (fuel1 + extra))%nat
        by lia.
      rewrite Hsame2. reflexivity. }
    exists (fuel1 + fuel2)%nat. split.
    + specialize (Hrun O). rewrite Nat.add_0_r in Hrun. rewrite Hrun.
      rewrite outcome_of_prepend. exact Hend2.
    + intros extra. rewrite Hrun.
      specialize (Hrun O). rewrite Nat.add_0_r in Hrun. rewrite Hrun.
      reflexivity.
  - exists fuel1. unfold bind. split.
    + rewrite Hf. discriminate.
    + intros extra. rewrite Hsame1, Hf. reflexivity.
Qed.

Lemma settles_try_finally {A : Type} (f : nat -> M A) (fin : M unit)
    (s : St) :
  settles f s ->
  (forall s1, outcome_of (fin s1) <> Diverge) ->
  settles (fun fuel => try_finally (f fuel) fin) s.
Proof.
  intros (fuel & Hend & Hsame) Hfin. exists fuel. split.
  - unfold try_finally. destruct (f fuel s) as [[o s1] l1].
    specialize (Hfin s1). destruct (fin s1) as [[o2 s2] l2].
    unfold outcome_of in *. cbn [fst] in *.
    destruct o; [| |congruence]; destruct o2; cbn; congruence.
  - intros extra. unfold try_finally. rewrite Hsame. reflexivity.
Qed.

Lemma settles_try_except {A : Type} (f : nat -> M A)
    (handles : ExcClass -> bool) (h : Exn -> M A) (s : St) :
  settles f s ->
  (forall e s1, outcome_of (h e s1) <> Diverge) ->
  settles (fun fuel => try_except (f fuel) handles h) s.
Proof.
  intros (fuel & Hend & Hsame) Hh. exists fuel. split.
  - unfold try_except. destruct (f fuel s) as [[o s1] l1].
    unfold outcome_of in Hend. cbn [fst] in Hend.
    destruct o as [a|e|]; [discriminate| |congruence].
    destruct (handles (exn_class e)); [|discriminate].
    rewrite outcome_of_prepend. apply Hh.
  - intros extra. unfold try_except. rewrite Hsame. reflexivity.
Qed.

Section TimedLoops.
Context {L : UrlLib}.
Variable env : Env.
Hypothesis time_passes : clock_unbounded env.

Lemma wait_for_target_loop_settles_at (debug_port : Z) (target_url : string)
    (start timeout : Q) (d : nat) :
  forall s,
    (start + timeout <= clock env (d + st_clock s))%Q ->
    settles (fun fuel => wait_for_target_loop fuel env debug_port target_url
                                              start timeout) s.
Proof.
  induction d as [|d IH]; intros s Hlate;
    destruct (Qlt_bool (clock env (st_clock s) - start) timeout) eqn:Hcond.
  - apply Qlt_bool_iff in Hcond. cbn [Nat.add] in Hlate. lra.
  - exists O. split; [|intros extra]; rewrite !wait_for_target_loop_step, Hcond;
      [discriminate | reflexivity].
  - destruct (found_at env target_url (tick s)) as [r|] eqn:Hfound.
    + exists 1%nat.
      split; [|intros extra]; cbn [Nat.add];
        rewrite !wait_for_target_loop_step, Hcond, Hfound;
        [discriminate | reflexivity].
    + destruct (IH (polled (tick s))) as (fuel & Hend & Hsame).
      { cbn [polled tick st_clock].
        replace (d + S (st_clock s))%nat with (S d + st_clock s)%nat by lia.
        exact Hlate. }
      exists (S fuel).
      split; [|intros extra]; cbn [Nat.add];
        rewrite !(wait_for_target_loop_step (S _)), Hcond, Hfound.
      * rewrite outcome_of_prepend. exact Hend.
      * rewrite Hsame. reflexivity.
  - exists O. split; [|intros extra]; rewrite !wait_for_target_loop_step, Hcond;
      [discriminate | reflexivity].
Qed.

Lemma wait_for_target_loop_settles (debug_port : Z) (target_url : string)
    (start timeout : Q) (s : St) :
  settles (fun fuel => wait_for_target_loop fuel env debug_port target_url
                                            start timeout) s.
Proof.
  destruct (time_passes (st_clock s) (start + timeout)%Q) as (j & Hj & Hlate).
  apply (wait_for_target_loop_settles_at _ _ _ _ (j - st_clock s)).
  replace (j - st_clock s + st_clock s)%nat with j by lia. exact Hlate.
Qed.

Lemma wait_for_debugger_target_settles (debug_port : Z)
    (target_url : string) (timeout : Q) (s : St) :
  settles (fun fuel => _wait_for_debugger_target fuel env debug_port
                                                 target_url timeout) s.
Proof.
  unfold _wait_for_debugger_target.
  apply (settles_bind (fun _ => read_clock env)
           (fun start fuel => wait_for_target_loop fuel env debug_port
                                target_url start timeout)).
  - apply settles_const. discriminate.
  - intros start s1. apply wait_for_target_loop_settles.
Qed.

Lemma load_event_loop_settles_at (conn : nat) (start timeout : Q) (d : nat) :
  forall k s,
    (start + timeout <= clock env (d + st_clock s))%Q ->
    settles (fun fuel => load_event_loop fuel env conn k start timeout) s.
Proof.
  induction d as [|d IH]; intros k s Hlate;
    destruct (Qlt_bool (clock env (st_clock s) - start) timeout) eqn:Hcond.
  - apply Qlt_bool_iff in Hcond. cbn [Nat.add] in Hlate. lra.
  - exists O. split; [|intros extra]; rewrite !load_event_loop_step, Hcond;
      [discriminate | reflexivity].
  - destruct (IH (S k) (tick s)) as (fuel & Hend & Hsame).
    { cbn [tick st_clock].
      replace (d + S (st_clock s))%nat with (S d + st_clock s)%nat by lia.
      exact Hlate. }
    exists (S fuel).
    split; [|intros extra]; cbn [Nat.add];
      rewrite !(load_event_loop_step (S _)), Hcond;
      destruct (ws_recv env conn k) as [m|e];
      try destruct (opt_string_eqb _ _);
      try destruct (is_ws_timeout _);
      try discriminate; try reflexivity; try exact Hend; try apply Hsame.
  - exists O. split; [|intros extra]; rewrite !load_event_loop_step, Hcond;
      [discriminate | reflexivity].
Qed.

Lemma load_event_loop_settles (conn k : nat) (start timeout : Q) (s : St) :
  settles (fun fuel => load_event_loop fuel env conn k start timeout) s.
Proof.
  destruct (time_passes (st_clock s) (start + timeout)%Q) as (j & Hj & Hlate).
  apply (load_event_loop_settles_at _ _ _ (j - st_clock s)).
  replace (j - st_clock s + st_clock s)%nat with j by lia. exact Hlate.
Qed.

(** A frame that becomes due is grabbed, and the loop goes on with the
    next frame. *)
Lemma capture_loop_settles_at (region : Region) (dir : string)
    (start_time interval : float) (target_frames frame_count : Z)
    (frame_paths : list string)
    (Hk : (frame_count <? target_frames) = true)
    (Hnext : forall s,
        settles (fun fuel =>
                   capture_loop fuel env region dir start_time interval
                     target_frames (frame_count + 1)
                     (frame_paths ++ [frame_path dir frame_count])) s)
    (d : nat) :
  forall s,
    frame_due (perf_counter env (d + st_clock s)) start_time interval
              frame_count = true ->
    settles (fun fuel => capture_loop fuel env region dir start_time interval
                           target_frames frame_count frame_paths) s.
Proof.
  induction d as [|d IHd]; intros s Hdue;
    destruct (frame_due (perf_counter env (st_clock s)) start_time interval
                        frame_count) eqn:Hnow.
  1, 3: destruct (grab_result env frame_count) as [e|] eqn:Hgrab;
    [ exists 1%nat; split; [|intros extra]; cbn [Nat.add];
      rewrite !capture_loop_step, Hk, Hnow, Hgrab;
      [discriminate | reflexivity]
    | destruct (Hnext (tick s)) as (fuel & Hend & Hsame);
      exists (S fuel); split; [|intros extra]; cbn [Nat.add];
      rewrite !(capture_loop_step (S _)), Hk, Hnow, Hgrab;
      [rewrite outcome_of_prepend; exact Hend
      | rewrite Hsame; reflexivity] ].
  - cbn [Nat.add] in Hdue. congruence.
  - destruct (IHd (tick s)) as (fuel & Hend & Hsame).
    { cbn [tick st_clock].
      replace (d + S (st_clock s))%nat with (S d + st_clock s)%nat by lia.
      exact Hdue. }
    exists (S fuel). split; [|intros extra]; cbn [Nat.add];
      rewrite !(capture_loop_step (S _)), Hk, Hnow.
    + rewrite outcome_of_prepend. exact Hend.
    + rewrite Hsame. reflexivity.
Qed.

Lemma capture_loop_settles (region : Region) (dir : string)
    (start_time interval : float) (target_frames : Z)
    (Hdue : frames_become_due env start_time interval target_frames)
    (m : nat) :
  forall frame_count frame_paths s,
    0 <= frame_count ->
    Z.to_nat (target_frames - frame_count) = m ->
    settles (fun fuel => capture_loop fuel env region dir start_time interval
                           target_frames frame_count frame_paths) s.
Proof.
  induction m as [|m IHm]; intros k acc s Hk0 Hm.
  - assert (Hk : (k <? target_frames) = false) by (apply Z.ltb_ge; lia).
    exists O. split; [|intros extra]; rewrite !capture_loop_step, Hk;
      [discriminate | reflexivity].
  - assert (Hk : (k <? target_frames) = true) by (apply Z.ltb_lt; lia).
    destruct (Hdue k ltac:(lia) (st_clock s)) as (j & Hj & Hj').
    apply (capture_loop_settles_at region dir start_time interval
             target_frames k acc Hk) with (d := (j - st_clock s)%nat).
    + intros s1. apply IHm; lia.
    + replace (j - st_clock s + st_clock s)%nat with j by lia. exact Hj'.
Qed.

End TimedLoops.

(** *** Computations that end *)

Create HintDb ends.

Lemma ends_ret {A : Type} (a : A) : ends (ret a).
Proof. intros s. discriminate. Qed.

Lemma ends_raise {A : Type} (c : ExcClass) (msg : string) :
  ends (@raise A c msg).
Proof. intros s. discriminate. Qed.

Lemma ends_emit (ev : Event) : ends (emit ev).
Proof. intros s. discriminate. Qed.

Lemma ends_sleep (q : Q) : ends (sleep q).
Proof. intros s. unfold sleep. destruct (Qlt_bool q 0); discriminate. Qed.

Lemma ends_external (ev : Event) (r : option Exn) : ends (external ev r).
Proof. intros s. unfold external. destruct r; discriminate. Qed.

Lemma ends_read_clock (env : Env) : ends (read_clock env).
Proof. intros s. discriminate. Qed.

Lemma ends_ws_open (env : Env) (url : string) : ends (ws_open env url).
Proof. intros s. unfold ws_open. destruct (ws_connect env _); discriminate. Qed.

Lemma ends_ws_send (env : Env) (conn k : nat) (id : Z) (method : string) :
  ends (ws_send env conn k id method).
Proof. apply ends_external. Qed.

Lemma ends_ws_receive (env : Env) (conn k : nat) :
  ends (ws_receive env conn k).
Proof.
  intros s. unfold ws_receive. destruct (ws_recv env conn k); discriminate.
Qed.

Lemma ends_ws_close : ends ws_close.
Proof. intros s. discriminate. Qed.

Lemma ends_bind {A B : Type} (m : M A) (f : A -> M B) :
  ends m -> (forall a, ends (f a)) -> ends (bind m f).
Proof.
  intros Hm Hf s. unfold bind. specialize (Hm s).
  destruct (m s) as [[o s1] l1]. unfold outcome_of in Hm. cbn [fst] in Hm.
  destruct o; [|discriminate|congruence].
  rewrite outcome_of_prepend. apply Hf.
Qed.

Lemma ends_try_except {A : Type} (m : M A) (handles : ExcClass -> bool)
    (h : Exn -> M A) :
  ends m -> (forall e, ends (h e)) -> ends (try_except m handles h).
Proof.
  intros Hm Hh s. unfold try_except. specialize (Hm s).
  destruct (m s) as [[o s1] l1]. unfold outcome_of in Hm. cbn [fst] in Hm.
  destruct o as [a|e|]; [discriminate| |congruence].
  destruct (handles _); [|discriminate].
  rewrite outcome_of_prepend. apply Hh.
Qed.

Lemma ends_try_finally {A : Type} (m : M A) (fin : M unit) :
  ends m -> ends fin -> ends (try_finally m fin).
Proof.
  intros Hm Hfin s. unfold try_finally. specialize (Hm s).
  destruct (m s) as [[o s1] l1]. unfold outcome_of in Hm. cbn [fst] in Hm.
  specialize (Hfin s1). destruct (fin s1) as [[o2 s2] l2].
  unfold outcome_of in *. cbn [fst] in *.
  destruct o; [| |congruence]; destruct o2; cbn; congruence.
Qed.

Lemma ends_post (env : Env) (model : string) (images : list string) :
  ends (post env model images).
Proof. intros s. discriminate. Qed.

Lemma ends_encode_images (env : Env) (images : list string) :
  ends (encode_images env images).
Proof.
  induction images as [|img rest IH]; intros s; cbn [encode_images].
  - discriminate.
  - destruct (read_image env img); [discriminate | discriminate | apply IH].
Qed.

Lemma ends_OpenRouterClient (env : Env) : ends (OpenRouterClient env).
Proof.
  intros s. unfold OpenRouterClient. destruct (truthy _); discriminate.
Qed.

Lemma ends_focus_chrome (app_name : string) : ends (_focus_chrome app_name).
Proof. intros s. discriminate. Qed.

Lemma ends_cleanup (env : Env) : ends (cleanup env).
Proof. intros s. rewrite cleanup_runs. discriminate. Qed.

Lemma ends_report_error (e : Exn) : ends (report_error e).
Proof. intros s. discriminate. Qed.

#[local] Hint Resolve ends_ret ends_raise ends_emit ends_sleep ends_external
  ends_read_clock ends_ws_open ends_ws_send ends_ws_receive ends_ws_close
  ends_bind ends_try_except ends_try_finally ends_post ends_encode_images
  ends_OpenRouterClient ends_focus_chrome ends_cleanup ends_report_error
  : ends.

Lemma settles_ends {A : Type} (m : M A) (s : St) :
  ends m -> settles (fun _ => m) s.
Proof. intros H. apply settles_const, H. Qed.

Section Termination.
Context {L : UrlLib}.
Variable env : Env.
Hypothesis time_passes : clock_unbounded env.

Lemma wait_for_load_event_settles (debug_port : Z) (target_url : string)
    (timeout : Q) (s : St) :
  settles (fun fuel => _wait_for_load_event fuel env debug_port target_url
                                            timeout) s.
Proof.
  unfold _wait_for_load_event.
  apply settles_bind; [apply wait_for_debugger_target_settles, time_passes|].
  intros target s1.
  apply (settles_bind (fun _ => ws_open env (fst target))
           (fun conn fuel =>
              try_finally
                (ws_send env conn 0 1 "Page.enable" ;;
                 ws_send env conn 1 2 "Page.reload" ;;
                 start <- read_clock env ;;
                 load_event_loop fuel env conn 0 start timeout) ws_close)).
  { apply settles_ends. auto with ends. }
  intros conn s2. apply settles_try_finally; [|apply ends_ws_close].
  apply (settles_bind (fun _ => ws_send env conn 0 1 "Page.enable")
           (fun _ fuel =>
              ws_send env conn 1 2 "Page.reload" ;;
              start <- read_clock env ;;
              load_event_loop fuel env conn 0 start timeout)).
  { apply settles_ends. auto with ends. }
  intros _ s3.
  apply (settles_bind (fun _ => ws_send env conn 1 2 "Page.reload")
           (fun _ fuel =>
              start <- read_clock env ;;
              load_event_loop fuel env conn 0 start timeout)).
  { apply settles_ends. auto with ends. }
  intros _ s4.
  apply (settles_bind (fun _ => read_clock env)
           (fun start fuel => load_event_loop fuel env conn 0 start timeout)).
  { apply settles_ends. auto with ends. }
  intros start s5. apply load_event_loop_settles, time_passes.
Qed.

Lemma bring_target_to_front_settles (debug_port : Z) (target_url : string)
    (timeout : Q) (s : St) :
  settles (fun fuel => _bring_target_to_front fuel env debug_port target_url
                                              timeout) s.
Proof.
  unfold _bring_target_to_front.
  apply settles_bind; [apply wait_for_debugger_target_settles, time_passes|].
  intros target s1. apply settles_ends. auto 10 with ends.
Qed.

Lemma set_window_bounds_settles (debug_port : Z) (target_url : string)
    (left top width height : Z) (timeout : Q) (s : St) :
  settles (fun fuel => _set_window_bounds fuel env debug_port target_url
                                          left top width height timeout) s.
Proof.
  unfold _set_window_bounds.
  apply settles_bind; [apply wait_for_debugger_target_settles, time_passes|].
  intros target s1. apply settles_ends.
  apply ends_bind; [auto with ends|]. intros conn.
  apply ends_try_finally; [|auto with ends].
  apply ends_bind; [auto with ends|]. intros _.
  apply ends_bind; [auto with ends|]. intros msg.
  destruct (m_windowId msg); auto 10 with ends.
Qed.

Lemma get_window_bounds_settles (debug_port : Z) (target_url : string)
    (timeout : Q) (s : St) :
  settles (fun fuel => _get_window_bounds fuel env debug_port target_url
                                          timeout) s.
Proof.
  unfold _get_window_bounds.
  apply settles_bind; [apply wait_for_debugger_target_settles, time_passes|].
  intros target s1. apply settles_ends.
  apply ends_bind; [auto with ends|]. intros conn.
  apply ends_try_finally; [|auto with ends].
  apply ends_bind; [auto with ends|]. intros _.
  apply ends_bind; [auto with ends|]. intros msg.
  destruct (m_windowId msg); auto 10 with ends.
Qed.

Lemma evaluate_script_settles (debug_port : Z) (target_url : string)
    (timeout : Q) (s : St) :
  settles (fun fuel => _evaluate_script fuel env debug_port target_url
                                        timeout) s.
Proof.
  unfold _evaluate_script.
  apply settles_bind; [apply wait_for_debugger_target_settles, time_passes|].
  intros target s1. apply settles_ends. auto 10 with ends.
Qed.

Lemma capture_frames_settles (region : Region) (duration fps : float)
    (dir : string) (s : St) :
  capture_becomes_due env duration fps ->
  settles (fun fuel => capture_frames fuel env region duration fps dir) s.
Proof.
  intros Hdue. unfold settles.
  destruct (int_of_float (fmul duration fps)) as [n|e|] eqn:Hint.
  - destruct (capture_loop_settles env region dir
                (perf_counter env (st_clock s)) (fdiv (float_of_Z 1) fps) n
                (Hdue _ _ Hint) (Z.to_nat (n - 0)) 0 [] (tick s))
      as (fuel & Hend & Hsame); [lia | reflexivity |].
    exists fuel. split; [|intros extra]; rewrite !capture_frames_run, Hint;
      destruct (mkdir_result env); try discriminate; try reflexivity;
      destruct (is_zero fps); try discriminate; try reflexivity;
      destruct (mss_result env); try discriminate; try reflexivity.
    + rewrite outcome_of_prepend. exact Hend.
    + rewrite Hsame. reflexivity.
  - exists O. split; [|intros extra]; rewrite !capture_frames_run, Hint;
      destruct (mkdir_result env); try discriminate; try reflexivity;
      destruct (is_zero fps); try discriminate; try reflexivity;
      destruct (mss_result env); try discriminate; try reflexivity.
  - destruct (fmul duration fps); discriminate.
Qed.

Lemma script_chat_with_vision_settles (images : list string)
    (model : string) (s : St) :
  settles (fun fuel => Script.chat_with_vision fuel env images model) s.
Proof.
  unfold Script.chat_with_vision.
  apply (settles_bind (fun _ => encode_images env images)
           (fun _ fuel => Script.chat fuel env model images 3 2)).
  { apply settles_ends. auto with ends. }
  intros _ s1.
  destruct (script_chat_run env model images 3 2 s1 ltac:(discriminate))
    as (n & _ & _ & _ & Hrun).
  exists (S (Z.to_nat 3)). split.
  - specialize (Hrun O). rewrite Nat.add_0_r in Hrun. rewrite Hrun.
    unfold outcome_of, final_outcome. cbn [fst].
    destruct (nth_attempt env s1 n); discriminate.
  - intros extra. rewrite Hrun.
    specialize (Hrun O). rewrite Nat.add_0_r in Hrun. rewrite Hrun.
    reflexivity.
Qed.

Lemma main_body_settles (args : Args) (url : string) (s : St) :
  capture_becomes_due env (duration args) (fps args) ->
  settles (fun fuel => main_body fuel env args url) s.
Proof.
  intros Hdue. unfold main_body.
  apply settles_bind; [apply wait_for_load_event_settles|]. intros _ s1.
  apply settles_bind; [apply bring_target_to_front_settles|]. intros _ s2.
  apply settles_bind; [apply set_window_bounds_settles|]. intros _ s3.
  apply settles_bind; [apply get_window_bounds_settles|]. intros bounds s4.
  destruct (bounds_present bounds) as [b|];
    [|apply settles_ends; auto with ends].
  apply (settles_bind (fun _ => emit (EvPrintBounds b))).
  { apply settles_ends. auto with ends. }
  intros _ s5.
  apply settles_bind; [apply evaluate_script_settles|]. intros viewport s6.
  apply (settles_bind
           (fun _ => match viewport with
                     | Some v => emit (EvPrintViewport v)
                     | None => ret tt
                     end)).
  { apply settles_ends. destruct viewport; auto with ends. }
  intros _ s7.
  destruct (_ || _); [apply settles_ends; auto with ends|].
  apply (settles_bind (fun _ => emit (EvPrintRegion _))).
  { apply settles_ends. auto with ends. }
  intros _ s8.
  apply (settles_bind (fun _ => _focus_chrome _)).
  { apply settles_ends. auto with ends. }
  intros _ s9.
  apply (settles_bind (fun _ => emit (EvPrintCapturing _ _))).
  { apply settles_ends. auto with ends. }
  intros _ s10.
  apply settles_bind; [apply capture_frames_settles, Hdue|].
  intros frame_paths s11.
  apply (settles_bind (fun _ => emit (EvPrintCaptured _ _))).
  { apply settles_ends. auto with ends. }
  intros _ s12.
  apply (settles_bind (fun _ => emit (EvPrintAnalyzing _))).
  { apply settles_ends. auto with ends. }
  intros _ s13.
  apply (settles_bind (fun _ => OpenRouterClient env)).
  { apply settles_ends. auto with ends. }
  intros _ s14.
  apply settles_bind; [apply script_chat_with_vision_settles|].
  intros response s15.
  apply settles_ends. destruct response; auto 10 with ends.
Qed.

(** When time passes and the frames become due, every run of [main]
    ends. *)
Lemma main_settles (args : Args) (s : St) :
  capture_becomes_due env (duration args) (fps args) ->
  settles (fun fuel => main fuel env args) s.
Proof.
  intros Hdue. unfold main.
  destruct (negb _ && negb _); [apply settles_ends; auto with ends|].
  apply (settles_bind (fun _ => emit (EvMkdtemp (temp_dir env)))).
  { apply settles_ends. auto with ends. }
  intros _ s1.
  apply (settles_bind (fun _ => emit (EvPrint _))).
  { apply settles_ends. auto with ends. }
  intros _ s2.
  apply (settles_bind (fun _ => external _ _)).
  { apply settles_ends. auto with ends. }
  intros _ s3.
  apply settles_try_finally; [|apply ends_cleanup].
  apply settles_try_except; [apply main_body_settles, Hdue|].
  intros e s4. apply ends_report_error.
Qed.

End Termination.

(** Once the browser has been started, every run of [main] that ends, by
    returning or by an exception, at whatever stage, ends with the cleanup:
    terminate, wait, kill when the wait fails, and removal of the profile
    directory that was created.  When time passes and the frames become
    due, the run does end. *)
Lemma cleanup_once_started {L : UrlLib} (env : Env) (args : Args)
    (s : St) (Hstarted : browser_started env args = true) :
  (forall fuel,
      outcome_of (main fuel env args s) <> Diverge ->
      exists before,
        log_of (main fuel env args s)
        = launch_log env args ++ before ++ cleanup_log env)
  /\ In (EvMkdtemp (temp_dir env)) (launch_log env args)
  /\ cleanup_log env
     = [EvTerminate; EvWait 2]
       ++ (if wait_exits env then [] else [EvKill])
       ++ [EvRmtree (temp_dir env)]
  /\ (clock_unbounded env ->
      capture_becomes_due env (duration args) (fps args) ->
      settles (fun fuel => main fuel env args) s).
Proof.
  split; [|split; [cbn; auto | split; [reflexivity|]]].
  2:{ intros Htime Hdue. apply main_settles; assumption. }
  intros fuel Hends.
  rewrite main_started in * by assumption.
  rewrite outcome_of_prepend in Hends.
  assert (Hbody : outcome_of (guarded_body fuel env args s) <> Diverge).
  { intros Hd. apply Hends. apply try_finally_diverge. exact Hd. }
  rewrite try_finally_cleanup by assumption.
  exists (log_of (guarded_body fuel env args s)). reflexivity.
Qed.

(** C2, on the code: the page is a local file that exists and the browser
    cannot be started: Popen raises, after the profile directory has been
    created and before the [try] is entered.  The exception leaves [main];
    the [finally] block does not run, nothing is terminated and the
    profile directory is not removed. *)
Theorem launch_failure_leaves_profile_directory :
  rf_exists (resolve_file no_browser (html_path local_args)) = true
  /\ popen_result no_browser
     = Some (mkExn OSError "No such file or directory: 'google-chrome'")
  /\ main (L := py_urllib) 20 no_browser local_args st0
     = (Raise (mkExn OSError "No such file or directory: 'google-chrome'"),
        st0,
        [EvMkdtemp "/tmp/video_vibes_gen_x";
         EvPrint "Launching Chrome and loading index.html...";
         EvPopen "google-chrome" 9222 "/tmp/video_vibes_gen_x"
                 "file:///site/index.html"])
  /\ ~ In EvTerminate
          (log_of (main (L := py_urllib) 20 no_browser local_args st0))
  /\ ~ In (EvRmtree "/tmp/video_vibes_gen_x")
          (log_of (main (L := py_urllib) 20 no_browser local_args st0)).
Proof.
  split; [reflexivity|]. split; [reflexivity|]. split; [reflexivity|].
  split; cbn; intros [H|[H|[H|[]]]]; discriminate.
Qed.

(** The general form of the timeout of the load wait: in every world in
    which time passes and no load event is ever received, the receive loop
    ends by returning. *)
Lemma load_event_loop_without_event (env : Env) (conn k : nat)
    (start timeout : Q) (s : St) :
  clock_unbounded env ->
  (forall j, match ws_recv env conn j with
             | RecvMsg m =>
                 opt_string_eqb (m_method m) "Page.loadEventFired" = false
             | RecvRaise e => is_ws_timeout (exn_class e) = true
             end) ->
  exists fuel, forall extra,
    outcome_of (load_event_loop (fuel + extra) env conn k start timeout s)
    = Ok tt.
Proof.
  intros Htime Hquiet.
  destruct (load_event_loop_settles env Htime conn k start timeout s)
    as (fuel & Hend & Hsame).
  exists fuel. intros extra. rewrite Hsame.
  destruct (outcome_of (load_event_loop fuel env conn k start timeout s))
    as [[]|e|] eqn:Hout; [reflexivity| |congruence].
  apply load_event_loop_raises in Hout. destruct Hout as (j & Hj & Hto).
  specialize (Hquiet j). rewrite Hj in Hquiet. congruence.
Qed.

(** * Further properties *)

(** ** Target discovery *)

Section DiscoveryResult.
Context {L : UrlLib}.

Lemma scan_payload_found (target_url : string) (payload : list Entry)
    (ws_url target_id : string) :
  scan_payload target_url payload = ScanFound ws_url target_id ->
  exists e,
    In e payload
    /\ e_type e = Some "page"%string
    /\ e_ws e = Some ws_url /\ ws_url <> EmptyString
    /\ url_matches target_url (entry_url_of e) = true
    /\ target_id <> EmptyString
    /\ (e_id e = Some target_id
        \/ (truthy (e_id e) = None /\ e_targetId e = Some target_id)).
Proof.
  induction payload as [|e rest IH]; [discriminate|].
  cbn [scan_payload].
  assert (Hrest : scan_payload target_url rest = ScanFound ws_url target_id ->
                  exists x, In x (e :: rest)
    /\ e_type x = Some "page"%string
    /\ e_ws x = Some ws_url /\ ws_url <> EmptyString
    /\ url_matches target_url (entry_url_of x) = true
    /\ target_id <> EmptyString
    /\ (e_id x = Some target_id
        \/ (truthy (e_id x) = None /\ e_targetId x = Some target_id))).
  { intros H. destruct (IH H) as (x & Hin & Hx). exists x. cbn. auto. }
  destruct (opt_string_eqb (e_type e) "page") eqn:Hty; cbn [negb]; [|exact Hrest].
  destruct (truthy (e_ws e)) as [w|] eqn:Hws; [|exact Hrest].
  fold (entry_url_of e).
  destruct (url_matches target_url (entry_url_of e)) eqn:Hm; [|exact Hrest].
  destruct (truthy (py_or (e_id e) (e_targetId e))) as [i|] eqn:Hid;
    [|discriminate].
  intros H. injection H as -> ->. exists e.
  assert (Htruthy : forall o v, truthy o = Some v ->
                                o = Some v /\ v <> EmptyString).
  { intros o v. unfold truthy. destruct o as [t|]; [|discriminate].
    destruct (String.eqb t EmptyString) eqn:Ht; [discriminate|].
    intros H. injection H as ->. apply String.eqb_neq in Ht. auto. }
  destruct (Htruthy _ _ Hws) as [Hws' Hwne].
  destruct (Htruthy _ _ Hid) as [Hid' Hine].
  split; [cbn; auto|]. split.
  { unfold opt_string_eqb in Hty. destruct (e_type e) as [t|]; [|discriminate].
    apply String.eqb_eq in Hty. congruence. }
  repeat (split; [assumption|]).
  unfold py_or in Hid'. destruct (truthy (e_id e)) as [j|] eqn:Hj.
  - left. destruct (Htruthy _ _ Hj) as [Hj' _]. congruence.
  - right. auto.
Qed.

Lemma wait_for_target_loop_found (fuel : nat) (env : Env) (debug_port : Z)
    (target_url : string) (start timeout : Q) :
  forall s r,
    outcome_of (wait_for_target_loop fuel env debug_port target_url start
                                     timeout s) = Ok r ->
    exists n, (st_http s <= n)%nat /\ found_at env target_url (mkSt 0 n 0 0) = Some r.
Proof.
  induction fuel as [|fuel IH]; intros s r; rewrite wait_for_target_loop_step;
    destruct (Qlt_bool _ _); try discriminate.
  destruct (found_at env target_url (tick s)) as [r'|] eqn:Hfound.
  - intros H. injection H as ->. exists (st_http s). split; [lia|].
    exact Hfound.
  - rewrite outcome_of_prepend. intros H. apply IH in H.
    destruct H as (n & Hn & Hr). exists n. split; [|exact Hr].
    cbn [polled tick st_http] in Hn. lia.
Qed.

(** X1: a resolved target is read off one entry of one answer of the
    discovery endpoint: an entry of type "page" whose socket URL is the one
    returned and is not empty, whose URL matches the desired one, and whose
    "id", or else "targetId", is the identifier returned, not empty. *)
Theorem resolved_target_is_a_listed_page (fuel : nat) (env : Env)
    (debug_port : Z) (target_url : string) (timeout : Q) (s : St)
    (ws_url target_id : string)
    (Hfound : outcome_of (_wait_for_debugger_target fuel env debug_port
                            target_url timeout s)
              = Ok (ws_url, target_id)) :
  exists n payload e,
    (st_http s <= n)%nat
    /\ http_get env n = Some payload
    /\ In e payload
    /\ e_type e = Some "page"%string
    /\ e_ws e = Some ws_url /\ ws_url <> EmptyString
    /\ url_matches target_url (entry_url_of e) = true
    /\ target_id <> EmptyString
    /\ (e_id e = Some target_id
        \/ (truthy (e_id e) = None /\ e_targetId e = Some target_id)).
Proof.
  unfold _wait_for_debugger_target in Hfound.
  unfold bind at 1, read_clock in Hfound. rewrite outcome_of_prepend in Hfound.
  apply wait_for_target_loop_found in Hfound.
  destruct Hfound as (n & Hn & Hr). exists n.
  unfold found_at in Hr. cbn [st_http] in Hr, Hn.
  destruct (http_get env n) as [payload|]; [|discriminate].
  destruct (scan_payload target_url payload) as [w i| |] eqn:Hscan;
    try discriminate.
  injection Hr as -> ->.
  destruct (scan_payload_found _ _ _ _ Hscan) as (e & He).
  exists payload, e. split; [assumption|]. split; [reflexivity|]. exact He.
Qed.

End DiscoveryResult.

Lemma resolved_target_is_a_listed_page_witness :
  exists n payload e,
    (0 <= n)%nat
    /\ http_get (serving [socketless_page; exact_page]) n = Some payload
    /\ In e payload
    /\ e_type e = Some "page"%string
    /\ e_ws e = Some "ws://127.0.0.1/page/A"%string
    /\ "ws://127.0.0.1/page/A"%string <> EmptyString
    /\ url_matches (L := py_urllib) sample_url (entry_url_of e) = true
    /\ "A"%string <> EmptyString
    /\ (e_id e = Some "A"%string
        \/ (truthy (e_id e) = None /\ e_targetId e = Some "A"%string)).
Proof.
  exact (resolved_target_is_a_listed_page (L := py_urllib) 1
           (serving [socketless_page; exact_page]) 9222 sample_url 10 st0
           "ws://127.0.0.1/page/A" "A" eq_refl).
Defined.

Section DiscoveryPolls.
Context {L : UrlLib}.


(** The effects of the polling loop are polls, each followed by its
    sleep, and a last poll when a target is found. *)
Lemma wait_for_target_loop_log (fuel : nat) (env : Env) (debug_port : Z)
    (target_url : string) (start timeout : Q) :
  forall s,
    let r := wait_for_target_loop fuel env debug_port target_url start
                                  timeout s in
    exists n,
      (n <= fuel)%nat
      /\ st_clock (state_of r) = (S n + st_clock s)%nat
      /\ log_of r
         = empty_polls debug_port n
           ++ match outcome_of r with
              | Ok _ => [EvHttpGet debug_port]
              | _ => []
              end
      /\ st_http (state_of r)
         = (match outcome_of r with Ok _ => S n | _ => n end + st_http s)%nat
      /\ st_conn (state_of r) = st_conn s
      /\ st_post (state_of r) = st_post s.
Proof.
  induction fuel as [|fuel IH]; intros s; cbn zeta;
    rewrite wait_for_target_loop_step;
    destruct (Qlt_bool _ _);
    try (exists O; cbn; repeat split; lia).
  destruct (found_at env target_url (tick s)) as [r'|].
  - exists O. cbn. repeat split; lia.
  - destruct (IH (polled (tick s)))
      as (n & Hn & Hclock & Hlog & Hhttp & Hconn & Hpost).
    exists (S n).
    rewrite outcome_of_prepend, log_of_prepend, state_of_prepend.
    rewrite Hclock, Hlog, Hhttp, Hconn, Hpost.
    cbn [polled tick st_clock st_http st_conn st_post].
    repeat split; try lia.
    destruct (outcome_of _); cbn; f_equal; lia.
Qed.

(** X3: all that target resolution does is poll the discovery endpoint of
    the given port, with one sleep of 0.1 s after each poll that found
    nothing; it opens no socket and sends no chat request. *)
Theorem discovery_polls_and_sleeps (fuel : nat) (env : Env) (debug_port : Z)
    (target_url : string) (timeout : Q) (s : St) :
  let r := _wait_for_debugger_target fuel env debug_port target_url
                                     timeout s in
  exists n,
    (n <= fuel)%nat
    /\ log_of r
       = empty_polls debug_port n
         ++ match outcome_of r with
            | Ok _ => [EvHttpGet debug_port]
            | _ => []
            end
    /\ st_http (state_of r)
       = (match outcome_of r with Ok _ => S n | _ => n end + st_http s)%nat
    /\ st_conn (state_of r) = st_conn s
    /\ st_post (state_of r) = st_post s.
Proof.
  cbn zeta. unfold _wait_for_debugger_target. unfold bind at 1 2 3 4 5 6, read_clock.
  fold (tick s).
  rewrite outcome_of_prepend, log_of_prepend, state_of_prepend.
  destruct (wait_for_target_loop_log fuel env debug_port target_url
              (clock env (st_clock s)) timeout (tick s))
    as (n & Hn & _ & Hlog & Hhttp & Hconn & Hpost).
  exists n. cbn zeta in *. rewrite Hlog. auto.
Qed.

(** X4: with a timeout that is not positive and a clock that does not go
    back, target resolution makes no poll at all: it raises the timeout
    error at once. *)
Theorem no_poll_without_time (fuel : nat) (env : Env) (debug_port : Z)
    (target_url : string) (timeout : Q) (s : St)
    (Htimeout : (timeout <= 0)%Q)
    (Hclock : (clock env (st_clock s) <= clock env (S (st_clock s)))%Q) :
  _wait_for_debugger_target fuel env debug_port target_url timeout s
  = (Raise timed_out, tick (tick s), []).
Proof.
  unfold _wait_for_debugger_target. unfold bind at 1, read_clock.
  fold (tick s). rewrite wait_for_target_loop_step.
  replace (Qlt_bool _ _) with false; [reflexivity|].
  symmetry. apply Qlt_bool_false_iff. cbn [tick st_clock]. lra.
Qed.

End DiscoveryPolls.


Lemma no_poll_without_time_witness :
  _wait_for_debugger_target (L := py_urllib) 5 (serving [exact_page]) 9222
                            sample_url 0 st0
  = (Raise timed_out, tick (tick st0), []).
Proof.
  apply (no_poll_without_time (L := py_urllib) 5 (serving [exact_page]) 9222
           sample_url 0 st0); discriminate.
Defined.

(** ** Effects of computations *)

Lemma log_all_ret {A : Type} (P : Event -> Prop) (a : A) : log_all P (ret a).
Proof. intros s. constructor. Qed.

Lemma log_all_raise {A : Type} (P : Event -> Prop) (c : ExcClass)
    (msg : string) : log_all P (@raise A c msg).
Proof. intros s. constructor. Qed.

Lemma log_all_emit (P : Event -> Prop) (ev : Event) :
  P ev -> log_all P (emit ev).
Proof. intros H s. cbn. auto. Qed.

Lemma log_all_external (P : Event -> Prop) (ev : Event) (r : option Exn) :
  P ev -> log_all P (external ev r).
Proof. intros H s. unfold external. destruct r; cbn; auto. Qed.

Lemma log_all_read_clock (P : Event -> Prop) (env : Env) :
  log_all P (read_clock env).
Proof. intros s. constructor. Qed.

Lemma log_all_ws_receive (P : Event -> Prop) (env : Env) (conn k : nat) :
  log_all P (ws_receive env conn k).
Proof.
  intros s. unfold ws_receive. destruct (ws_recv env conn k); constructor.
Qed.

Lemma Forall_log_prepend {A : Type} (P : Event -> Prop) (l : list Event)
    (r : Res A) :
  Forall P l -> Forall P (log_of r) -> Forall P (log_of (prepend l r)).
Proof.
  intros Hl Hr. rewrite log_of_prepend. apply Forall_app. auto.
Qed.

Lemma log_all_bind {A B : Type} (P : Event -> Prop) (m : M A)
    (f : A -> M B) :
  log_all P m -> (forall a, log_all P (f a)) -> log_all P (bind m f).
Proof.
  intros Hm Hf s. unfold bind. specialize (Hm s).
  destruct (m s) as [[o s1] l1]. unfold log_of in Hm. cbn [snd] in Hm.
  destruct o; [|exact Hm..].
  apply Forall_log_prepend; [exact Hm | apply Hf].
Qed.

Lemma log_all_try_except {A : Type} (P : Event -> Prop) (m : M A)
    (handles : ExcClass -> bool) (h : Exn -> M A) :
  log_all P m -> (forall e, log_all P (h e)) ->
  log_all P (try_except m handles h).
Proof.
  intros Hm Hh s. unfold try_except. specialize (Hm s).
  destruct (m s) as [[o s1] l1]. unfold log_of in Hm. cbn [snd] in Hm.
  destruct o as [a|e|]; [exact Hm| |exact Hm].
  destruct (handles _); [|exact Hm].
  apply Forall_log_prepend; [exact Hm | apply Hh].
Qed.

Lemma log_all_try_finally {A : Type} (P : Event -> Prop) (m : M A)
    (fin : M unit) :
  log_all P m -> log_all P fin -> log_all P (try_finally m fin).
Proof.
  intros Hm Hfin s. unfold try_finally. specialize (Hm s).
  destruct (m s) as [[o s1] l1]. unfold log_of in Hm. cbn [snd] in Hm.
  specialize (Hfin s1). destruct (fin s1) as [[o2 s2] l2].
  unfold log_of in *. cbn [snd] in *.
  destruct o; [| |exact Hm]; apply Forall_app; auto.
Qed.

Create HintDb logs.
#[local] Hint Resolve log_all_ret log_all_raise log_all_emit
  log_all_external log_all_read_clock log_all_ws_receive log_all_bind
  log_all_try_except log_all_try_finally : logs.

Lemma count_events_app (p : Event -> bool) (l1 l2 : list Event) :
  count_events p (l1 ++ l2) = (count_events p l1 + count_events p l2)%nat.
Proof. unfold count_events. rewrite filter_app, length_app. reflexivity. Qed.

Lemma count_events_none (p : Event -> bool) (l : list Event) :
  Forall (fun ev => p ev = false) l -> count_events p l = O.
Proof.
  unfold count_events. induction 1 as [|ev l Hev _ IH]; [reflexivity|].
  cbn. rewrite Hev. exact IH.
Qed.

(** ** The debugging socket *)

Lemma keeps_sockets_counts (l : list Event) :
  Forall keeps_sockets l ->
  count_events is_connect l = O /\ count_events is_close l = O.
Proof.
  intros H. split; apply count_events_none;
    eapply Forall_impl; try exact H; intros ev [H1 H2]; assumption.
Qed.

Lemma with_socket_scoped {A : Type} (env : Env)
    (resolve : M (string * string)) (body : nat -> M A) (s : St) :
  Forall keeps_sockets (log_of (resolve s)) ->
  st_conn (state_of (resolve s)) = st_conn s ->
  (forall conn, log_all keeps_sockets (body conn)) ->
  socket_scoped env s (with_socket env resolve body s).
Proof.
  unfold socket_scoped. rewrite with_socket_run.
  destruct (resolve s) as [[o s1] l1].
  unfold log_of at 1, state_of. cbn [fst snd].
  intros Hlog Hconn Hbody.
  destruct (keeps_sockets_counts _ Hlog) as [Hc1 Hd1].
  destruct o as [target|e|]; cbn [log_of snd outcome_of fst];
    [|intros _; rewrite Hc1, Hd1; repeat split; try lia; intros; lia
     |intros Hends; exfalso; apply Hends; reflexivity].
  rewrite Hconn.
  destruct (ws_connect env (st_conn s)) as [e|] eqn:Hopen.
  - intros _. cbn [log_of snd]. rewrite !count_events_app, Hc1, Hd1. cbn.
    repeat split; try lia; try congruence.
  - specialize (Hbody (st_conn s) (opened s1)).
    destruct (body _ _) as [[o2 s2] l2].
    unfold log_of in Hbody. cbn [snd] in Hbody.
    destruct (keeps_sockets_counts _ Hbody) as [Hc2 Hd2].
    destruct o2; cbn [log_of snd outcome_of fst];
      [| |intros Hends; exfalso; apply Hends; reflexivity];
      intros _;
      change (l1 ++ EvWsConnect (fst target) :: l2 ++ [EvWsClose])
        with (l1 ++ [EvWsConnect (fst target)] ++ l2 ++ [EvWsClose]);
      rewrite !count_events_app, Hc1, Hd1, Hc2, Hd2; cbn;
      (repeat split; try lia;
       [ exists (l1 ++ EvWsConnect (fst target) :: l2);
         rewrite <- !app_assoc; reflexivity
       | intros [H|H]; [lia | congruence] ]).
Qed.

Lemma empty_polls_keep_sockets (debug_port : Z) (n : nat) :
  Forall keeps_sockets (empty_polls debug_port n).
Proof.
  induction n as [|n IH]; [constructor|].
  unfold empty_polls in *. cbn [repeat List.concat app].
  repeat (constructor; [split; reflexivity|]). exact IH.
Qed.

Lemma log_all_ws_send (env : Env) (conn k : nat) (id : Z)
    (method : string) :
  log_all keeps_sockets (ws_send env conn k id method).
Proof. apply log_all_external. split; reflexivity. Qed.

#[local] Hint Resolve log_all_ws_send : logs.

Section SocketScope.
Context {L : UrlLib}.
Variables (fuel : nat) (env : Env) (debug_port : Z) (target_url : string).
Variable timeout : Q.

Lemma discovery_keeps_sockets (s : St) :
  let r := _wait_for_debugger_target fuel env debug_port target_url
                                     timeout s in
  Forall keeps_sockets (log_of r) /\ st_conn (state_of r) = st_conn s.
Proof.
  cbn zeta. unfold _wait_for_debugger_target, bind, read_clock.
  fold (tick s).
  destruct (wait_for_target_loop_log fuel env debug_port target_url
              (clock env (st_clock s)) timeout (tick s))
    as (n & _ & _ & Hlog & _ & Hconn & _).
  cbn zeta in *.
  destruct (wait_for_target_loop _ _ _ _ _ _ _) as [[o s1] l1].
  unfold log_of, state_of, outcome_of in *. cbn [fst snd prepend app] in *.
  subst l1. split; [|exact Hconn].
  apply Forall_app. split; [apply empty_polls_keep_sockets|].
  destruct o; repeat constructor.
Qed.

Lemma load_event_loop_keeps_sockets (conn : nat) (start : Q) :
  forall n k, log_all keeps_sockets
                (load_event_loop n env conn k start timeout).
Proof.
  induction n as [|n IH]; intros k s; rewrite load_event_loop_step;
    destruct (Qlt_bool _ _); try constructor.
  destruct (ws_recv env conn k) as [m|e].
  - destruct (opt_string_eqb _ _); [constructor | apply IH].
  - destruct (is_ws_timeout _); [apply IH | constructor].
Qed.

(** X5: each helper that talks to the page opens at most one socket; a
    run that opened one closes it exactly once, as its last effect,
    whether it returns or raises; a run that opened none (no target, or a
    connection that failed) closes none. *)
Theorem sockets_are_closed (s : St) :
  socket_scoped env s
    (_wait_for_load_event fuel env debug_port target_url timeout s)
  /\ socket_scoped env s
       (_bring_target_to_front fuel env debug_port target_url timeout s)
  /\ (forall left top width height,
         socket_scoped env s
           (_set_window_bounds fuel env debug_port target_url left top
                               width height timeout s))
  /\ socket_scoped env s
       (_get_window_bounds fuel env debug_port target_url timeout s)
  /\ socket_scoped env s
       (_evaluate_script fuel env debug_port target_url timeout s).
Proof.
  destruct (discovery_keeps_sockets s) as [Hlog Hconn]. cbn zeta in *.
  split; [|split; [|split; [intros left top width height|split]]];
    refine (with_socket_scoped env
              (_wait_for_debugger_target fuel env debug_port target_url
                                         timeout) _ s Hlog Hconn _);
    intros conn.
  - repeat (apply log_all_bind; [auto with logs|]; intros).
    apply load_event_loop_keeps_sockets.
  - auto 10 with logs.
  - apply log_all_bind; [auto with logs|]. intros _.
    apply log_all_bind; [auto with logs|]. intros msg.
    destruct (m_windowId msg); auto 10 with logs.
  - apply log_all_bind; [auto with logs|]. intros _.
    apply log_all_bind; [auto with logs|]. intros msg.
    destruct (m_windowId msg); auto 10 with logs.
  - auto 10 with logs.
Qed.

End SocketScope.

Section SocketHelpers.
Context {L : UrlLib}.
Variables (fuel : nat) (env : Env) (debug_port : Z) (target_url : string).
Variable timeout : Q.

Lemma wait_for_debugger_target_raises (s : St) (e : Exn) :
  outcome_of (_wait_for_debugger_target fuel env debug_port target_url
                                        timeout s) = Raise e ->
  e = timed_out.
Proof.
  unfold _wait_for_debugger_target, bind, read_clock.
  rewrite outcome_of_prepend. intros H.
  pose proof (wait_for_target_loop_outcome fuel env debug_port target_url
                (clock env (st_clock s)) timeout
                (mkSt (S (st_clock s)) (st_http s) (st_conn s) (st_post s)))
    as Hout.
  rewrite H in Hout. exact Hout.
Qed.

(** X6: bringing the target to the front is best effort.  Once the
    target is resolved and the socket is open, an exception of class
    Exception raised by the send or by the receive is swallowed: the
    function closes the socket and returns normally.  What leaves the
    function is the timeout of the target resolution, the error of the
    connection, or an exception of the send or of the receive that is not
    an Exception. *)
Theorem bring_to_front_is_best_effort (s : St) :
  (forall target s1 l1 e,
      _wait_for_debugger_target fuel env debug_port target_url timeout s
      = (Ok target, s1, l1) ->
      ws_connect env (st_conn s1) = None ->
      ws_send_result env (st_conn s1) 0 = Some e
      \/ (ws_send_result env (st_conn s1) 0 = None
          /\ ws_recv env (st_conn s1) 0 = RecvRaise e) ->
      is_Exception (exn_class e) = true ->
      _bring_target_to_front fuel env debug_port target_url timeout s
      = (Ok tt, opened s1,
         l1 ++ [EvWsConnect (fst target); EvWsSend 1 "Page.bringToFront";
                EvWsClose]))
  /\ (forall e,
        outcome_of (_bring_target_to_front fuel env debug_port target_url
                                           timeout s) = Raise e ->
        e = timed_out
        \/ ws_connect env (st_conn s) = Some e
        \/ (is_Exception (exn_class e) = false
            /\ (ws_send_result env (st_conn s) 0 = Some e
                \/ ws_recv env (st_conn s) 0 = RecvRaise e))).
Proof.
  pose proof (discovery_keeps_sockets fuel env debug_port target_url
                timeout s) as [_ Hconn]. cbn zeta in Hconn.
  change (_bring_target_to_front fuel env debug_port target_url timeout s)
    with (with_socket env
            (_wait_for_debugger_target fuel env debug_port target_url timeout)
            (fun conn =>
               try_except
                 (ws_send env conn 0 1 "Page.bringToFront" ;;
                  _ <- ws_receive env conn 0 ;; ret tt)
                 is_Exception (fun _ => ret tt)) s).
  rewrite with_socket_run. split.
  - intros target s1 l1 e Hfound Hopen Hfail Hcls.
    rewrite Hfound, Hopen.
    unfold try_except, bind, ws_send, external, ws_receive.
    destruct Hfail as [Hsend|[Hsend Hrecv]].
    + rewrite Hsend. cbn. rewrite Hcls. reflexivity.
    + rewrite Hsend, Hrecv. cbn. rewrite Hcls. reflexivity.
  - intros e Hraise.
    destruct (_wait_for_debugger_target _ _ _ _ _ _) as [[o s1] l1] eqn:Hres.
    unfold state_of in Hconn. cbn [fst snd] in Hconn.
    destruct o as [target|e'|]; [| |discriminate].
    + rewrite Hconn in Hraise.
      destruct (ws_connect env (st_conn s)) as [e'|] eqn:Hopen.
      * injection Hraise as ->. auto.
      * right. right. revert Hraise.
        unfold try_except, bind, ws_send, external, ws_receive.
        destruct (ws_send_result env (st_conn s) 0) as [e'|].
        -- cbn. destruct (is_Exception (exn_class e')) eqn:Hcls; cbn;
             [discriminate|]. intros H. injection H as <-. auto.
        -- destruct (ws_recv env (st_conn s) 0) as [m|e'];
             [discriminate|]. cbn.
           destruct (is_Exception (exn_class e')) eqn:Hcls; cbn;
             [discriminate|]. intros H. injection H as <-. auto.
    + left. injection Hraise as <-.
      apply (wait_for_debugger_target_raises s). rewrite Hres. reflexivity.
Qed.

(** X7: when Browser.getWindowForTarget has been sent and the reply
    carries no window id, [_set_window_bounds] sends no
    Browser.setWindowBounds: it closes the socket and returns normally, so
    the caller is not told that the bounds were not set. *)
Theorem set_window_bounds_without_window (s s1 : St) (l1 : list Event)
    (target : string * string) (m : Message) (left top width height : Z)
    (Hfound : _wait_for_debugger_target fuel env debug_port target_url
                                        timeout s = (Ok target, s1, l1))
    (Hopen : ws_connect env (st_conn s1) = None)
    (Hsend : ws_send_result env (st_conn s1) 0 = None)
    (Hrecv : ws_recv env (st_conn s1) 0 = RecvMsg m)
    (Hwindow : m_windowId m = None) :
  _set_window_bounds fuel env debug_port target_url left top width height
                     timeout s
  = (Ok tt, opened s1,
     l1 ++ [EvWsConnect (fst target);
            EvWsSend 1 "Browser.getWindowForTarget"; EvWsClose]).
Proof.
  change (_set_window_bounds fuel env debug_port target_url left top width
                             height timeout s)
    with (with_socket env
            (_wait_for_debugger_target fuel env debug_port target_url timeout)
            (fun conn =>
               ws_send env conn 0 1 "Browser.getWindowForTarget" ;;
               msg <- ws_receive env conn 0 ;;
               match m_windowId msg with
               | None => ret tt
               | Some _ =>
                   ws_send env conn 1 2 "Browser.setWindowBounds" ;;
                   _ <- ws_receive env conn 1 ;; ret tt
               end) s).
  rewrite with_socket_run, Hfound, Hopen.
  unfold bind, ws_send, external, ws_receive. rewrite Hsend, Hrecv. cbn.
  rewrite Hwindow. reflexivity.
Qed.

End SocketHelpers.

Lemma bring_to_front_is_best_effort_witness :
  _bring_target_to_front (L := py_urllib) 1 dropping 9222 sample_url 5 st0
  = (Ok tt, opened (mkSt 2 1 0 0),
     [EvHttpGet 9222] ++ [EvWsConnect "ws://127.0.0.1/page/A";
                          EvWsSend 1 "Page.bringToFront"; EvWsClose]).
Proof.
  exact (proj1 (bring_to_front_is_best_effort (L := py_urllib) 1 dropping
                  9222 sample_url 5 st0)
           ("ws://127.0.0.1/page/A"%string, "A"%string) (mkSt 2 1 0 0)
           [EvHttpGet 9222] closed_socket eq_refl eq_refl
           (or_intror (conj eq_refl eq_refl)) eq_refl).
Defined.

(** A send that raises is swallowed in the same way, the receive is not
    made; an interrupt is not swallowed, and the socket is closed
    still. *)
Example bring_to_front_send_fails :
  _bring_target_to_front (L := py_urllib) 1 refusing_sends 9222 sample_url
                         5 st0
  = (Ok tt, opened (mkSt 2 1 0 0),
     [EvHttpGet 9222; EvWsConnect "ws://127.0.0.1/page/A";
      EvWsSend 1 "Page.bringToFront"; EvWsClose])
  /\ _bring_target_to_front (L := py_urllib) 1
       (set_ws_recv (serving [exact_page])
          (fun _ _ => RecvRaise (mkExn KeyboardInterrupt EmptyString)))
       9222 sample_url 5 st0
     = (Raise (mkExn KeyboardInterrupt EmptyString), opened (mkSt 2 1 0 0),
        [EvHttpGet 9222; EvWsConnect "ws://127.0.0.1/page/A";
         EvWsSend 1 "Page.bringToFront"; EvWsClose]).
Proof. split; reflexivity. Qed.

Lemma set_window_bounds_without_window_witness :
  _set_window_bounds (L := py_urllib) 1 (receiving [an_event]) 9222
                     sample_url 0 30 1280 720 5 st0
  = (Ok tt, opened (mkSt 2 1 0 0),
     [EvHttpGet 9222] ++ [EvWsConnect "ws://127.0.0.1/page/A";
                          EvWsSend 1 "Browser.getWindowForTarget";
                          EvWsClose]).
Proof.
  exact (set_window_bounds_without_window (L := py_urllib) 1
           (receiving [an_event]) 9222 sample_url 5 st0 (mkSt 2 1 0 0)
           [EvHttpGet 9222]
           ("ws://127.0.0.1/page/A"%string, "A"%string) an_event
           0 30 1280 720 eq_refl eq_refl eq_refl eq_refl eq_refl).
Defined.

Lemma ticks_tick (n : nat) (s : St) : ticks n (tick s) = ticks (S n) s.
Proof. unfold ticks, tick. cbn [st_clock st_http st_conn st_post]. f_equal. lia. Qed.

(** X8: the wait for the load event returns at the first load event
    received: the messages before it that are not a load event and the
    receives that time out are skipped, one clock reading being taken per
    receive, as long as the timeout has not elapsed at these readings. *)
Theorem load_event_after_skipped (env : Env) (conn : nat)
    (start timeout : Q) (k : nat) :
  forall (first fuel : nat) (s : St),
    (forall j, (j < k)%nat -> skipped (ws_recv env conn (first + j)) = true) ->
    is_load_event (ws_recv env conn (first + k)) = true ->
    (forall j, (j <= k)%nat ->
               (clock env (j + st_clock s) - start < timeout)%Q) ->
    (k < fuel)%nat ->
    load_event_loop fuel env conn first start timeout s
    = (Ok tt, ticks (S k) s, []).
Proof.
  induction k as [|k IH]; intros first fuel s Hskip Hload Htime Hfuel;
    (destruct fuel as [|fuel]; [lia|]);
    rewrite load_event_loop_step;
    (replace (Qlt_bool _ _) with true
      by (symmetry; apply Qlt_bool_iff; apply (Htime O); lia)).
  - rewrite Nat.add_0_r in Hload. unfold is_load_event in Hload.
    destruct (ws_recv env conn first) as [m|e]; [|discriminate].
    rewrite Hload. reflexivity.
  - pose proof (Hskip O ltac:(lia)) as H0. rewrite Nat.add_0_r in H0.
    assert (Hrest : load_event_loop fuel env conn (S first) start timeout
                                    (tick s)
                    = (Ok tt, ticks (S (S k)) s, [])).
    { rewrite <- ticks_tick. apply IH.
      - intros j Hj. replace (S first + j)%nat with (first + S j)%nat by lia.
        apply Hskip. lia.
      - replace (S first + k)%nat with (first + S k)%nat by lia. exact Hload.
      - intros j Hj. cbn [tick st_clock].
        replace (j + S (st_clock s))%nat with (S j + st_clock s)%nat by lia.
        apply Htime. lia.
      - lia. }
    unfold skipped in H0.
    destruct (ws_recv env conn first) as [m|e].
    + apply negb_true_iff in H0. rewrite H0. exact Hrest.
    + rewrite H0. exact Hrest.
Qed.

Lemma load_event_after_skipped_witness :
  load_event_loop 5 (receiving [an_event; load_fired]) 0 0 0 10 st0
  = (Ok tt, ticks 2 st0, []).
Proof.
  apply (load_event_after_skipped (receiving [an_event; load_fired]) 0 0 10
           1 0 5 st0).
  - intros j Hj. destruct j as [|j]; [reflexivity | lia].
  - reflexivity.
  - intros j Hj. destruct j as [|[|j]]; [reflexivity | reflexivity | lia].
  - lia.
Defined.

(** ** Frame files *)

Lemma uint_of_string_zeros (n : nat) (s : string) :
  NilEmpty.uint_of_string (zeros n ++ s)
  = option_map (Nat.iter n Decimal.D0) (NilEmpty.uint_of_string s).
Proof.
  induction n as [|n IH]; cbn [zeros append Nat.iter NilEmpty.uint_of_string].
  - destruct (NilEmpty.uint_of_string s); reflexivity.
  - rewrite IH. destruct (NilEmpty.uint_of_string s); reflexivity.
Qed.

Lemma of_uint_leading_zeros (n : nat) (d : Decimal.uint) :
  N.of_uint (Nat.iter n Decimal.D0 d) = N.of_uint d.
Proof. induction n as [|n IH]; [reflexivity | exact IH]. Qed.

(** The digits of a frame name give back its index. *)
Lemma read_decimal_pad4 (k : Z) :
  0 <= k -> read_decimal (pad4 k) = Some (Z.to_N k).
Proof.
  intros Hk. unfold read_decimal, pad4.
  assert (Hdigits : Z_to_string k
                    = NilEmpty.string_of_uint (N.to_uint (Z.to_N k))).
  { destruct k; try reflexivity. lia. }
  rewrite Hdigits, uint_of_string_zeros, NilEmpty.usu. cbn [option_map].
  rewrite of_uint_leading_zeros, DecimalN.Unsigned.of_to. reflexivity.
Qed.

Lemma length_append (a b : string) :
  String.length (a ++ b) = (String.length a + String.length b)%nat.
Proof. induction a as [|c a IH]; cbn; [reflexivity | rewrite IH; reflexivity]. Qed.

Lemma append_cancel_l (a x y : string) :
  (a ++ x)%string = (a ++ y)%string -> x = y.
Proof.
  induction a as [|c a IH]; cbn; [auto|]. intros H. injection H as H. auto.
Qed.

Lemma append_cancel_r (a x : string) :
  forall y, (x ++ a)%string = (y ++ a)%string -> x = y.
Proof.
  induction x as [|c x IH]; intros [|d y] H; cbn in H.
  - reflexivity.
  - apply (f_equal String.length) in H. cbn in H.
    rewrite length_append in H. lia.
  - apply (f_equal String.length) in H. cbn in H.
    rewrite length_append in H. lia.
  - injection H as -> H. f_equal. apply IH. exact H.
Qed.

Lemma frame_path_inj (dir : string) (i j : Z) :
  0 <= i -> 0 <= j -> frame_path dir i = frame_path dir j -> i = j.
Proof.
  intros Hi Hj H. unfold frame_path, path_join, frame_name in H.
  apply append_cancel_l in H. apply append_cancel_l in H.
  apply append_cancel_l in H. apply append_cancel_r in H.
  apply (f_equal read_decimal) in H.
  rewrite !read_decimal_pad4 in H by assumption.
  injection H as H. lia.
Qed.

Lemma frame_indices_spec (first : Z) (n : nat) (k : Z) :
  In k (frame_indices first n) <-> first <= k < first + Z.of_nat n.
Proof.
  unfold frame_indices. rewrite in_map_iff. split.
  - intros (i & <- & Hi). apply in_seq in Hi. lia.
  - intros Hk. exists (Z.to_nat (k - first)). split; [lia|].
    apply in_seq. lia.
Qed.

Lemma NoDup_map_in {A B : Type} (f : A -> B) (l : list A) :
  (forall x y, In x l -> In y l -> f x = f y -> x = y) ->
  NoDup l -> NoDup (map f l).
Proof.
  intros Hinj Hl. induction Hl as [|a l Ha Hl IH]; cbn; constructor.
  - intros Hin. apply in_map_iff in Hin. destruct Hin as (x & Hx & Hin).
    apply Ha. rewrite <- (Hinj x a); cbn; auto.
  - apply IH. intros x y Hx Hy. apply Hinj; cbn; auto.
Qed.

Lemma frame_indices_NoDup (first : Z) (n : nat) :
  NoDup (frame_indices first n).
Proof.
  unfold frame_indices. apply NoDup_map_in; [|apply seq_NoDup].
  intros i j _ _ H. lia.
Qed.

Lemma frame_paths_NoDup (dir : string) (n : nat) :
  NoDup (map (frame_path dir) (frame_indices 0 n)).
Proof.
  apply NoDup_map_in; [|apply frame_indices_NoDup].
  intros i j Hi Hj H. apply frame_indices_spec in Hi, Hj.
  apply (frame_path_inj dir); lia || exact H.
Qed.

(** ** Frame capture *)

(** X9: for every duration and rate, the paths a capture returns are the
    files it wrote, in the order of their indices, as many as the
    conversion of the product to an int says, and they are pairwise
    distinct: the index of a frame can be read back from the digits of its
    name. *)
Theorem captured_paths_are_distinct (fuel : nat) (env : Env)
    (region : Region) (duration fps : float) (dir : string) (s s' : St)
    (paths : list string) (log : list Event)
    (Hrun : capture_frames fuel env region duration fps dir s
            = (Ok paths, s', log)) :
  exists n,
    int_of_float (fmul duration fps) = Ok n
    /\ paths = map (frame_path dir) (frame_indices 0 (Z.to_nat n))
    /\ written log = paths
    /\ NoDup paths
    /\ (forall k, 0 <= k -> read_decimal (pad4 k) = Some (Z.to_N k)).
Proof.
  rewrite capture_frames_run in Hrun.
  destruct (mkdir_result env); [discriminate|].
  destruct (is_zero fps); [discriminate|].
  destruct (mss_result env); [discriminate|].
  destruct (int_of_float (fmul duration fps)) as [n| |]; try discriminate.
  exists n. split; [reflexivity|].
  destruct (capture_loop _ _ _ _ _ _ _ _ _ _) as [[o s2] l2] eqn:Hloop.
  cbn in Hrun. injection Hrun as -> <- <-.
  apply capture_loop_returns in Hloop. rewrite Z.sub_0_r in Hloop.
  destruct Hloop as [-> Hw]. cbn [app written].
  split; [reflexivity|]. split; [exact Hw|].
  split; [apply frame_paths_NoDup | apply read_decimal_pad4].
Qed.

Lemma captured_paths_are_distinct_witness :
  exists n,
    int_of_float (fmul (float_of_Z 1) (float_of_Z 3)) = Ok n
    /\ NoDup (map (frame_path "out") (frame_indices 0 (Z.to_nat n))).
Proof.
  destruct (captured_paths_are_distinct 5 silent_env
              (mkRegion 0 90 1280 690) (float_of_Z 1) (float_of_Z 3) "out"
              st0 _ _ _ ltac:(vm_compute; reflexivity))
    as (n & Hn & Hpaths & _ & Hnodup & _).
  exists n. split; [exact Hn|]. rewrite <- Hpaths. exact Hnodup.
Defined.

(** X10: a capture raises in one of five places, and in each the frames
    written are known.  Before any frame: the creation of the output
    directory, the division by a rate that is zero, the creation of the
    grabber, the conversion of the frame count.  Then the grab or the write
    of a frame [k], with its exception: the frames before [k] were all
    written, in order, and stay; frame [k] and the later ones are not
    written. *)
Theorem capture_failure_keeps_earlier_frames (fuel : nat) (env : Env)
    (region : Region) (duration fps : float) (dir : string) (s s' : St)
    (e : Exn) (log : list Event)
    (Hrun : capture_frames fuel env region duration fps dir s
            = (Raise e, s', log)) :
  (written log = []
   /\ (mkdir_result env = Some e
       \/ (is_zero fps = true /\ e = zero_division)
       \/ mss_result env = Some e
       \/ int_of_float (fmul duration fps) = Raise e))
  \/ exists n k,
       int_of_float (fmul duration fps) = Ok n
       /\ 0 <= k < n
       /\ grab_result env k = Some e
       /\ (forall i, 0 <= i < k -> grab_result env i = None)
       /\ written log = map (frame_path dir) (frame_indices 0 (Z.to_nat k)).
Proof.
  rewrite capture_frames_run in Hrun.
  destruct (mkdir_result env) as [e'|];
    [injection Hrun as -> <- <-; left; cbn; auto|].
  destruct (is_zero fps);
    [injection Hrun as <- <- <-; left; cbn; auto|].
  destruct (mss_result env) as [e'|];
    [injection Hrun as -> <- <-; left; cbn; auto|].
  destruct (int_of_float (fmul duration fps)) as [n|e'|];
    [|injection Hrun as -> <- <-; left; cbn; auto 6|discriminate].
  right.
  destruct (capture_loop _ _ _ _ _ _ _ _ _ _) as [[o s2] l2] eqn:Hloop.
  cbn in Hrun. injection Hrun as -> <- <-.
  apply capture_loop_fails in Hloop.
  destruct Hloop as (k & Hk & Hfail & Hok & Hw).
  exists n, k. rewrite Z.sub_0_r in Hw. cbn [written]. auto.
Qed.

Lemma capture_failure_keeps_earlier_frames_witness :
  (written [EvMkdir "out"; EvGrab (mkRegion 0 90 1280 690);
            EvWritePng "out/frame_0000.png";
            EvGrab (mkRegion 0 90 1280 690);
            EvWritePng "out/frame_0001.png";
            EvGrab (mkRegion 0 90 1280 690)] = []
   /\ (mkdir_result failing_at_2 = Some disk_full
       \/ (is_zero (float_of_Z 2) = true /\ disk_full = zero_division)
       \/ mss_result failing_at_2 = Some disk_full
       \/ int_of_float (fmul (float_of_Z 5) (float_of_Z 2))
          = Raise disk_full))
  \/ exists n k,
       int_of_float (fmul (float_of_Z 5) (float_of_Z 2)) = Ok n
       /\ 0 <= k < n
       /\ grab_result failing_at_2 k = Some disk_full
       /\ (forall i, 0 <= i < k -> grab_result failing_at_2 i = None)
       /\ written [EvMkdir "out"; EvGrab (mkRegion 0 90 1280 690);
                   EvWritePng "out/frame_0000.png";
                   EvGrab (mkRegion 0 90 1280 690);
                   EvWritePng "out/frame_0001.png";
                   EvGrab (mkRegion 0 90 1280 690)]
          = map (frame_path "out") (frame_indices 0 (Z.to_nat k)).
Proof.
  exact (capture_failure_keeps_earlier_frames 20 failing_at_2
           (mkRegion 0 90 1280 690) (float_of_Z 5) (float_of_Z 2) "out" st0
           (mkSt 4 0 0 0) disk_full _ ltac:(vm_compute; reflexivity)).
Defined.

(** A grabber that cannot be created ends the capture before any frame. *)
Example capture_without_grabber :
  capture_frames 20
    (set_mss_result silent_env (Some (mkExn OSError "Unable to open display")))
    (mkRegion 0 90 1280 690) (float_of_Z 5) (float_of_Z 2) "out" st0
  = (Raise (mkExn OSError "Unable to open display"), st0, [EvMkdir "out"]).
Proof. reflexivity. Qed.

Lemma py_int_below_one (q : Q) : (q < 1)%Q -> py_int q <= 0.
Proof.
  destruct q as [n d]. unfold Qlt, py_int. cbn [Qnum Qden].
  rewrite Z.mul_1_r, Z.mul_1_l. intros Hlt.
  destruct (Z.le_gt_cases 0 n) as [Hn|Hn].
  - rewrite Z.quot_small; lia.
  - replace n with (- (- n)) by lia. rewrite Z.quot_opp_l by lia.
    pose proof (Z.quot_pos (- n) (Zpos d)). lia.
Qed.

(** X11: when the output directory and the grabber can be created, the
    rate is not zero and the product [duration * fps], as computed in
    binary64, is a number below 1 (which includes a negative duration or
    rate), the capture asks for no frame: it creates the directory, reads
    the performance counter once and returns no path; nothing is
    grabbed. *)
Theorem nothing_to_capture (fuel : nat) (env : Env) (region : Region)
    (duration fps : float) (dir : string) (s : St) (q : Q)
    (Hmkdir : mkdir_result env = None)
    (Hfps : is_zero fps = false)
    (Hmss : mss_result env = None)
    (Hproduct : float_value (fmul duration fps) = Some q)
    (Hshort : (q < 1)%Q) :
  capture_frames fuel env region duration fps dir s
  = (Ok [], tick s, [EvMkdir dir]).
Proof.
  assert (Hint : int_of_float (fmul duration fps) = Ok (py_int q))
    by (apply int_of_float_value; eauto).
  rewrite capture_frames_run, Hmkdir, Hfps, Hmss, Hint, capture_loop_step.
  replace (0 <? py_int q) with false; [reflexivity|].
  symmetry. apply Z.ltb_ge. apply py_int_below_one. exact Hshort.
Qed.

Lemma nothing_to_capture_witness :
  capture_frames 0 silent_env (mkRegion 0 90 1280 690) (float_of_Z 5)
                 (float_of_Z (-2)) "out" st0
  = (Ok [], tick st0, [EvMkdir "out"]).
Proof.
  apply (nothing_to_capture 0 silent_env (mkRegion 0 90 1280 690)
           (float_of_Z 5) (float_of_Z (-2)) "out" st0
           (-5629499534213120 # 562949953421312));
    reflexivity.
Defined.

(** The product that decides is the rounded one: a third of a second at
    three frames per second is one frame, although the product of the two
    numbers is below 1. *)
Example one_third_of_a_second :
  (exists a b, float_value one_third = Some a
               /\ float_value (float_of_Z 3) = Some b
               /\ (a * b < 1)%Q)
  /\ float_value (fmul one_third (float_of_Z 3)) = Some (4503599627370496 # 4503599627370496)
  /\ outcome_of (capture_frames 20 silent_env (mkRegion 0 90 1280 690)
                   one_third (float_of_Z 3) "out" st0)
     = Ok ["out/frame_0000.png"%string].
Proof.
  split; [|split; vm_compute; reflexivity].
  eexists _, _. split; [reflexivity|]. split; [reflexivity|].
  vm_compute. reflexivity.
Qed.

(** ** The chat client *)

Lemma slept_app (l1 l2 : list Event) :
  (slept (l1 ++ l2) == slept l1 + slept l2)%Q.
Proof.
  induction l1 as [|ev l1 IH]; cbn [app slept]; [ring|].
  destruct ev; try exact IH. rewrite IH. ring.
Qed.

Lemma slept_retry_log (model : string) (images : list string) (d : Q)
    (n : nat) :
  forall first,
    0 <= first ->
    (slept (retry_log model images d first n)
     == d * inject_Z (2 ^ (first + Z.of_nat n) - 2 ^ first))%Q.
Proof.
  induction n as [|n IH]; intros first Hfirst; cbn [retry_log slept].
  - rewrite Z.add_0_r, Z.sub_diag. ring.
  - rewrite (IH (first + 1)) by lia. unfold backoff_delay.
    replace (first + 1 - 1) with first by lia.
    replace (first + 1 + Z.of_nat n) with (first + Z.of_nat (S n)) by lia.
    rewrite <- Qmult_plus_distr_r, <- inject_Z_plus.
    replace (2 ^ first + (2 ^ (first + Z.of_nat (S n)) - 2 ^ (first + 1)))
      with (2 ^ (first + Z.of_nat (S n)) - 2 ^ first);
      [reflexivity|].
    rewrite (Z.pow_add_r 2 first 1) by lia. lia.
Qed.

Lemma slept_chat_run (model : string) (images : list string) (d : Q)
    (max_retries : Z) (n : nat) :
  (0 <= d)%Q -> Z.of_nat n <= Z.max 0 max_retries ->
  (slept (retry_log model images d 0 n ++ [EvPost model images])
   <= d * inject_Z (2 ^ Z.max 0 max_retries - 1))%Q.
Proof.
  intros Hd Hn. rewrite slept_app, slept_retry_log by lia.
  cbn [slept]. rewrite Qplus_0_r. cbn [Z.add Z.pow Z.pow_pos Pos.iter].
  rewrite !(Qmult_comm d). apply Qmult_le_compat_r; [|exact Hd].
  rewrite <- Zle_Qle.
  assert (2 ^ Z.of_nat n <= 2 ^ Z.max 0 max_retries)
    by (apply Z.pow_le_mono_r; lia).
  change (2 ^ (0 + Z.of_nat n)) with (2 ^ Z.of_nat n). lia.
Qed.

(** X12: the time one call of [chat] sleeps between its attempts is
    bounded: with a base delay [d >= 0] it is at most
    [d * (2^max_retries - 1)] in total (and 0 when [max_retries] is
    negative), in both clients; the vision call of the capture script,
    which uses the defaults 3 and 2.0, sleeps at most 14 seconds. *)
Theorem total_backoff_is_bounded (env : Env) (model : string)
    (images : list string) (max_retries : Z) (backoff_initial : Q)
    (s : St) (extra : nat) (Hd : (0 <= backoff_initial)%Q) :
  (slept (log_of (Controllers.chat (S (Z.to_nat max_retries) + extra) env
                    model images max_retries backoff_initial s))
   <= backoff_initial * inject_Z (2 ^ Z.max 0 max_retries - 1))%Q
  /\ (slept (log_of (Script.chat (S (Z.to_nat max_retries) + extra) env
                       model images max_retries backoff_initial s))
      <= backoff_initial * inject_Z (2 ^ Z.max 0 max_retries - 1))%Q
  /\ (slept (log_of (Script.chat_with_vision (4 + extra) env images model
                                              s))
      <= 14)%Q.
Proof.
  split; [|split].
  - destruct (controllers_chat_run env model images max_retries
                backoff_initial s Hd) as (n & Hn & _ & _ & Hrun).
    rewrite Hrun. apply slept_chat_run; assumption.
  - destruct (script_chat_run env model images max_retries
                backoff_initial s Hd) as (n & Hn & _ & _ & Hrun).
    rewrite Hrun. apply slept_chat_run; assumption.
  - unfold Script.chat_with_vision, bind.
    destruct (encode_images env images s) as [[o s1] l1] eqn:Henc.
    assert (Hl1 : l1 = []).
    { revert Henc. clear. induction images as [|img rest IH];
        cbn [encode_images].
      - intros H. injection H as _ _ <-. reflexivity.
      - destruct (read_image env img); try exact IH;
          intros H; injection H as _ _ <-; reflexivity. }
    subst l1. destruct o; try (cbn; discriminate).
    destruct (script_chat_run env model images 3 2 s1 ltac:(discriminate))
      as (n & Hn & _ & _ & Hrun).
    change (4 + extra)%nat with (S (Z.to_nat 3) + extra)%nat.
    rewrite Hrun. cbn [prepend log_of snd app].
    apply (slept_chat_run model images 2 3 n); [discriminate | exact Hn].
Qed.

Lemma total_backoff_is_bounded_witness :
  (slept (log_of (Script.chat 4 unavailable "m" [] 3 2 st0)) <= 14)%Q.
Proof.
  exact (proj1 (proj2 (total_backoff_is_bounded unavailable "m" [] 3 2 st0 0
                         ltac:(discriminate)))).
Defined.

(** The delays of the sample run add up to the bound. *)
Example unavailable_sleeps_14_seconds :
  (slept (log_of (Script.chat 4 unavailable "m" [] 3 2 st0)) == 14)%Q.
Proof. reflexivity. Qed.

(** X13: the vision call of the capture script reads the images, in
    order, before it sends anything.  When the images before one have been
    read and that one does not exist, it raises ValueError naming it; when
    that one exists and cannot be read, it raises the error of the read.
    In both cases no request is made. *)
Theorem missing_image_stops_before_request (fuel : nat) (env : Env)
    (model : string) (s : St) (before after : list string) (img : string)
    (Hbefore : forall b, In b before ->
                 exists bytes, read_image env b = FileBytes bytes) :
  (read_image env img = FileMissing ->
   Script.chat_with_vision fuel env (before ++ img :: after) model s
   = (Raise (mkExn ValueError ("Image file does not exist: " ++ img)), s,
      []))
  /\ (forall e, read_image env img = FileUnreadable e ->
        Script.chat_with_vision fuel env (before ++ img :: after) model s
        = (Raise e, s, [])).
Proof.
  assert (Henc : encode_images env (before ++ img :: after) s
                 = encode_images env (img :: after) s).
  { induction before as [|b before IH]; cbn [app encode_images];
      [reflexivity|].
    destruct (Hbefore b (or_introl eq_refl)) as (bytes & ->).
    apply IH. intros b' Hb'. apply Hbefore. right. exact Hb'. }
  unfold Script.chat_with_vision, bind. rewrite Henc. cbn [encode_images].
  split; [intros -> | intros e ->]; reflexivity.
Qed.

Lemma missing_image_stops_before_request_witness :
  Script.chat_with_vision 4
    (set_read_image silent_env
       (fun p => if String.eqb p "a.png" then FileBytes "" else FileMissing))
    ["a.png"; "b.png"; "c.png"]%string "m" st0
  = (Raise (mkExn ValueError "Image file does not exist: b.png"), st0, []).
Proof.
  refine (proj1 (missing_image_stops_before_request 4
           (set_read_image silent_env
              (fun p => if String.eqb p "a.png" then FileBytes ""
                        else FileMissing))
           "m" st0 ["a.png"%string] ["c.png"%string] "b.png" _) eq_refl).
  intros b [<-|[]]. exists EmptyString. reflexivity.
Defined.

(** A frame that exists and cannot be read stops the call with the error
    of the read, also when a later frame is missing. *)
Example unreadable_image_stops_before_request :
  Script.chat_with_vision 4
    (set_read_image silent_env
       (fun p => if String.eqb p "a.png"
                 then FileUnreadable (mkExn OSError "Permission denied")
                 else FileMissing))
    ["a.png"; "b.png"]%string "m" st0
  = (Raise (mkExn OSError "Permission denied"), st0, []).
Proof. reflexivity. Qed.

(** ** Effects of the parts of a run *)

Lemma log_all_impl {A : Type} (P Q : Event -> Prop) (m : M A) :
  (forall ev, P ev -> Q ev) -> log_all P m -> log_all Q m.
Proof. intros H Hm s. eapply Forall_impl; [exact H | apply Hm]. Qed.

Section HelperEffects.
Context {L : UrlLib}.
Variables (fuel : nat) (env : Env) (debug_port : Z) (target_url : string).
Variable timeout : Q.

Lemma discovery_is_browser_io :
  log_all browser_io
    (_wait_for_debugger_target fuel env debug_port target_url timeout).
Proof.
  intros s. unfold _wait_for_debugger_target, bind, read_clock.
  fold (tick s).
  destruct (wait_for_target_loop_log fuel env debug_port target_url
              (clock env (st_clock s)) timeout (tick s))
    as (n & _ & _ & Hlog & _).
  cbn zeta in Hlog.
  destruct (wait_for_target_loop _ _ _ _ _ _ _) as [[o s1] l1].
  unfold log_of, outcome_of in *. cbn [fst snd prepend app] in *.
  subst l1. apply Forall_app. split.
  - induction n as [|n IH]; [constructor|].
    unfold empty_polls in *. cbn [repeat List.concat app].
    repeat (constructor; [exact I|]). exact IH.
  - destruct o; repeat constructor.
Qed.

Lemma load_event_loop_is_silent (conn : nat) (start : Q)
    (P : Event -> Prop) :
  forall n k, log_all P (load_event_loop n env conn k start timeout).
Proof.
  induction n as [|n IH]; intros k s; rewrite load_event_loop_step;
    destruct (Qlt_bool _ _); try constructor.
  destruct (ws_recv env conn k) as [m|e].
  - destruct (opt_string_eqb _ _); [constructor | apply IH].
  - destruct (is_ws_timeout _); [apply IH | constructor].
Qed.

Lemma log_all_ws_open (url : string) : log_all browser_io (ws_open env url).
Proof.
  intros s. unfold ws_open. destruct (ws_connect env _); repeat constructor.
Qed.

Lemma with_socket_is_browser_io {A : Type} (body : nat -> M A) :
  (forall conn, log_all browser_io (body conn)) ->
  log_all browser_io
    (with_socket env
       (_wait_for_debugger_target fuel env debug_port target_url timeout)
       body).
Proof.
  intros Hbody. unfold with_socket.
  apply log_all_bind; [apply discovery_is_browser_io|]. intros target.
  apply log_all_bind; [apply log_all_ws_open|]. intros conn.
  apply log_all_try_finally; [apply Hbody|].
  apply log_all_emit. exact I.
Qed.

Lemma log_all_send_io (conn k : nat) (id : Z) (method : string) :
  log_all browser_io (ws_send env conn k id method).
Proof. apply log_all_external. exact I. Qed.

#[local] Hint Resolve log_all_send_io : logs.

Lemma helpers_are_browser_io :
  log_all browser_io
    (_wait_for_load_event fuel env debug_port target_url timeout)
  /\ log_all browser_io
       (_bring_target_to_front fuel env debug_port target_url timeout)
  /\ (forall left top width height,
         log_all browser_io
           (_set_window_bounds fuel env debug_port target_url left top
                               width height timeout))
  /\ log_all browser_io
       (_get_window_bounds fuel env debug_port target_url timeout)
  /\ log_all browser_io
       (_evaluate_script fuel env debug_port target_url timeout).
Proof.
  split; [|split; [|split; [intros left top width height|split]]];
    refine (with_socket_is_browser_io _ _); intros conn.
  - repeat (apply log_all_bind; [auto with logs|]; intros).
    apply load_event_loop_is_silent.
  - auto 10 with logs.
  - apply log_all_bind; [auto with logs|]. intros _.
    apply log_all_bind; [auto with logs|]. intros msg.
    destruct (m_windowId msg); auto 10 with logs.
  - apply log_all_bind; [auto with logs|]. intros _.
    apply log_all_bind; [auto with logs|]. intros msg.
    destruct (m_windowId msg); auto 10 with logs.
  - auto 10 with logs.
Qed.

Lemma capture_loop_is_capture_io (region : Region) (dir : string)
    (start_time interval : float) (target_frames : Z) :
  forall n frame_count frame_paths,
    log_all (capture_io region)
      (capture_loop n env region dir start_time interval target_frames
                    frame_count frame_paths).
Proof.
  induction n as [|n IH]; intros k acc s; rewrite capture_loop_step;
    destruct (k <? target_frames); try constructor.
  destruct (frame_due _ _ _ _).
  - destruct (grab_result env k); [repeat constructor|].
    apply Forall_log_prepend; [repeat constructor | apply IH].
  - apply Forall_log_prepend; [repeat constructor | apply IH].
Qed.

Lemma capture_frames_is_capture_io (region : Region)
    (duration fps : float) (dir : string) :
  log_all (capture_io region)
    (capture_frames fuel env region duration fps dir).
Proof.
  unfold capture_frames.
  apply log_all_bind; [apply log_all_external; exact I|]. intros _.
  apply log_all_bind; [intros s; constructor|]. intros interval.
  apply log_all_bind;
    [intros s; unfold may_raise; destruct (mss_result env); constructor|].
  intros _.
  apply log_all_bind; [intros s; constructor|]. intros start_time.
  apply log_all_bind; [intros s; constructor|]. intros target_frames.
  apply capture_loop_is_capture_io.
Qed.

Lemma script_chat_loop_is_chat_io (model : string) (images : list string)
    (max_retries : Z) (backoff_initial : Q) :
  forall n attempt,
    log_all chat_io
      (Script.chat_loop n env model images max_retries backoff_initial
                        attempt).
Proof.
  induction n as [|n IH]; intros attempt s; [constructor|].
  cbn [Script.chat_loop]. unfold bind at 1, post.
  destruct (attempt_of _); try (repeat constructor).
  destruct (max_retries <? attempt + 1); [repeat constructor|].
  apply Forall_log_prepend; [repeat constructor|].
  unfold bind, sleep, emit.
  destruct (Qlt_bool _ _); [repeat constructor|].
  apply Forall_log_prepend; [repeat constructor|].
  apply IH.
Qed.

Lemma script_chat_with_vision_is_chat_io (images : list string)
    (model : string) :
  log_all chat_io (Script.chat_with_vision fuel env images model).
Proof.
  unfold Script.chat_with_vision.
  apply log_all_bind.
  - clear. induction images as [|img rest IH]; intros s;
      cbn [encode_images]; [constructor|].
    destruct (read_image env img); try apply IH; constructor.
  - intros _. apply script_chat_loop_is_chat_io.
Qed.

End HelperEffects.

(** ** The run as a whole: what is sent and what is grabbed *)

Lemma log_all_bind_fails {A B : Type} (P : Event -> Prop) (m : M A)
    (f : A -> M B) :
  (forall s a, outcome_of (m s) <> Ok a) ->
  log_all P m -> log_all P (bind m f).
Proof.
  intros Hfail Hm s. unfold bind. specialize (Hm s). specialize (Hfail s).
  destruct (m s) as [[o s1] l1]. unfold log_of, outcome_of in *.
  cbn [fst snd] in *. destruct o as [a| |]; [|exact Hm..].
  exfalso. apply (Hfail a). reflexivity.
Qed.

Lemma log_all_cleanup (P : Event -> Prop) (env : Env) :
  P EvTerminate -> P (EvWait 2) -> P EvKill -> P (EvRmtree (temp_dir env)) ->
  log_all P (cleanup env).
Proof.
  intros H1 H2 H3 H4 s. rewrite cleanup_runs. unfold cleanup_log.
  cbn [log_of snd]. destruct (wait_exits env); repeat constructor; auto.
Qed.

Section MainEffects.
Context {L : UrlLib}.
Variables (fuel : nat) (env : Env) (args : Args).

Lemma browser_io_no_post (ev : Event) : browser_io ev -> no_post ev.
Proof. destruct ev; cbn; intros H; try reflexivity; contradiction. Qed.

Lemma capture_io_no_post (region : Region) (ev : Event) :
  capture_io region ev -> no_post ev.
Proof. destruct ev; cbn; intros H; try reflexivity; contradiction. Qed.

Lemma main_body_no_post (url : string) :
  truthy (api_key env) = None ->
  log_all no_post (main_body fuel env args url).
Proof.
  intros Hkey. unfold main_body.
  destruct (helpers_are_browser_io fuel env (free_port env) url 10)
    as (Hload & _).
  destruct (helpers_are_browser_io fuel env (free_port env) url 5)
    as (_ & Hfront & Hset & Hget & Heval).
  apply log_all_bind;
    [apply (log_all_impl _ _ _ browser_io_no_post Hload)|]. intros _.
  apply log_all_bind;
    [apply (log_all_impl _ _ _ browser_io_no_post Hfront)|]. intros _.
  apply log_all_bind;
    [apply (log_all_impl _ _ _ browser_io_no_post (Hset _ _ _ _))|].
  intros _.
  apply log_all_bind;
    [apply (log_all_impl _ _ _ browser_io_no_post Hget)|]. intros bounds.
  destruct (bounds_present bounds) as [b|]; [|auto with logs].
  apply log_all_bind; [apply log_all_emit; reflexivity|]. intros _.
  apply log_all_bind;
    [apply (log_all_impl _ _ _ browser_io_no_post Heval)|]. intros viewport.
  apply log_all_bind.
  { destruct viewport; [apply log_all_emit; reflexivity | auto with logs]. }
  intros _.
  destruct (_ || _); [auto with logs|].
  apply log_all_bind; [apply log_all_emit; reflexivity|]. intros _.
  apply log_all_bind; [apply log_all_emit; reflexivity|]. intros _.
  apply log_all_bind; [apply log_all_emit; reflexivity|]. intros _.
  apply log_all_bind.
  { eapply log_all_impl; [apply capture_io_no_post|].
    apply capture_frames_is_capture_io. }
  intros frame_paths.
  apply log_all_bind; [apply log_all_emit; reflexivity|]. intros _.
  apply log_all_bind; [apply log_all_emit; reflexivity|]. intros _.
  apply log_all_bind_fails.
  - intros s a. unfold OpenRouterClient. rewrite Hkey. discriminate.
  - unfold OpenRouterClient. rewrite Hkey. auto with logs.
Qed.

(** X14: without an API key no request is sent to the chat endpoint: a
    run with a missing or empty key makes no POST at all, at any stage,
    and building the client raises. *)
Theorem no_request_without_api_key (s : St)
    (Hkey : truthy (api_key env) = None) :
  Forall no_post (log_of (main fuel env args s))
  /\ forall a, outcome_of (OpenRouterClient env s) <> Ok a.
Proof.
  split; [|intros a; unfold OpenRouterClient; rewrite Hkey; discriminate].
  revert s.
  change (log_all no_post (main fuel env args)).
  unfold main.
  destruct (negb _ && negb _); [apply log_all_emit; reflexivity|].
  apply log_all_bind; [apply log_all_emit; reflexivity|]. intros _.
  apply log_all_bind; [apply log_all_emit; reflexivity|]. intros _.
  apply log_all_bind; [apply log_all_external; reflexivity|]. intros _.
  apply log_all_try_finally.
  - apply log_all_try_except; [apply main_body_no_post; exact Hkey|].
    intros e. apply log_all_emit. reflexivity.
  - apply log_all_cleanup; reflexivity.
Qed.

End MainEffects.

Lemma no_request_without_api_key_witness :
  Forall no_post
    (log_of (main (L := py_urllib) 20 (set_api_key capturing None)
               local_args st0))
  /\ In (EvPrintAnalyzing (model local_args))
        (log_of (main (L := py_urllib) 20 (set_api_key capturing None)
                   local_args st0)).
Proof.
  split.
  - exact (proj1 (no_request_without_api_key (L := py_urllib) 20
                    (set_api_key capturing None) local_args st0 eq_refl)).
  - vm_compute. tauto.
Defined.

(** The run of the example: the frames are captured, the analysis is
    announced, the client cannot be built and its error is reported; the
    browser is stopped and [main] returns. *)
Example run_without_api_key :
  outcome_of (main (L := py_urllib) 20 (set_api_key capturing None)
                local_args st0) = Ok tt
  /\ count_events
       (fun ev => match ev with EvGrab _ => true | _ => false end)
       (log_of (main (L := py_urllib) 20 (set_api_key capturing None)
                  local_args st0)) = 10%nat
  /\ In (EvPrint (newline
                  ++ "ERROR: OPENROUTER_API_KEY environment variable must be set."))
        (log_of (main (L := py_urllib) 20 (set_api_key capturing None)
                   local_args st0)).
Proof. vm_compute. split; [reflexivity|]. split; [reflexivity|]. tauto. Qed.

Lemma grab_in_bind {A B : Type} (m : M A) (f : A -> M B) (s : St)
    (r : Region) :
  log_all no_grab m ->
  In (EvGrab r) (log_of (bind m f s)) ->
  exists a s1 l1, m s = (Ok a, s1, l1) /\ In (EvGrab r) (log_of (f a s1)).
Proof.
  intros Hm. specialize (Hm s). unfold bind.
  destruct (m s) as [[o s1] l1]. unfold log_of in *. cbn [snd] in *.
  assert (Hno : ~ In (EvGrab r) l1).
  { intros Hin. rewrite Forall_forall in Hm. exact (Hm _ Hin). }
  destruct o as [a|e|]; cbn [snd]; try (intros Hin; contradiction).
  unfold prepend. destruct (f a s1) as [[o2 s2] l2] eqn:Hf. cbn [snd].
  intros Hin. apply in_app_or in Hin as [Hin|Hin]; [contradiction|].
  exists a, s1, l1. rewrite Hf. auto.
Qed.

Lemma grab_in_try_except {A : Type} (m : M A) (handles : ExcClass -> bool)
    (h : Exn -> M A) (s : St) (r : Region) :
  (forall e, log_all no_grab (h e)) ->
  In (EvGrab r) (log_of (try_except m handles h s)) ->
  In (EvGrab r) (log_of (m s)).
Proof.
  intros Hh. unfold try_except. destruct (m s) as [[o s1] l1].
  unfold log_of. cbn [snd].
  destruct o as [a|e|]; try (intros Hin; exact Hin).
  destruct (handles _); [|intros Hin; exact Hin].
  specialize (Hh e s1). unfold prepend. destruct (h e s1) as [[o2 s2] l2].
  unfold log_of in Hh. cbn [snd] in *. intros Hin.
  apply in_app_or in Hin as [Hin|Hin]; [exact Hin|].
  rewrite Forall_forall in Hh. destruct (Hh _ Hin).
Qed.

Lemma grab_in_try_finally {A : Type} (m : M A) (fin : M unit) (s : St)
    (r : Region) :
  log_all no_grab fin ->
  In (EvGrab r) (log_of (try_finally m fin s)) ->
  In (EvGrab r) (log_of (m s)).
Proof.
  intros Hfin. unfold try_finally. destruct (m s) as [[o s1] l1].
  specialize (Hfin s1). destruct (fin s1) as [[o2 s2] l2].
  unfold log_of in *. cbn [snd] in *.
  assert (Hno : ~ In (EvGrab r) l2).
  { intros Hin. rewrite Forall_forall in Hfin. exact (Hfin _ Hin). }
  destruct o; cbn [snd]; intros Hin; try exact Hin;
    apply in_app_or in Hin as [Hin|Hin]; try exact Hin; contradiction.
Qed.

Lemma outcome_of_bind {A B : Type} (m : M A) (f : A -> M B) (s s1 : St)
    (a : A) (l1 : list Event) :
  m s = (Ok a, s1, l1) -> outcome_of (bind m f s) = outcome_of (f a s1).
Proof.
  intros Hm. unfold bind. rewrite Hm. destruct (f a s1) as [[o2 s2] l2].
  reflexivity.
Qed.

Section OneRegion.
Context {L : UrlLib}.
Variables (fuel : nat) (env : Env) (args : Args).

Lemma browser_io_no_grab (ev : Event) : browser_io ev -> no_grab ev.
Proof. destruct ev; cbn; tauto. Qed.

(** What [main] does with a region that it accepted. *)
Lemma capture_and_analysis_grabs (region : Region) :
  log_all (grabs_only region)
    (emit (EvPrintRegion region) ;;
     _focus_chrome (app_name_of (chrome_path env)) ;;
     emit (EvPrintCapturing (duration args) (fps args)) ;;
     frame_paths <- capture_frames fuel env region (duration args)
                      (fps args)
                      (path_join (output_dir args)
                         ("video_" ++ time_stamp env)) ;;
     emit (EvPrintCaptured (List.length frame_paths)
             (path_join (output_dir args)
                ("video_" ++ time_stamp env))) ;;
     emit (EvPrintAnalyzing (model args)) ;;
     OpenRouterClient env ;;
     response <- Script.chat_with_vision fuel env frame_paths
                                         (model args) ;;
     match response with
     | None => raise KeyError "content"
     | Some content =>
         emit (EvPrint (newline ++ "--- ANALYSIS RESULT ---")) ;;
         emit (EvPrint content) ;;
         emit (EvPrint "------------------------")
     end).
Proof.
  apply log_all_bind; [apply log_all_emit; exact I|]. intros _.
  apply log_all_bind; [apply log_all_emit; exact I|]. intros _.
  apply log_all_bind; [apply log_all_emit; exact I|]. intros _.
  apply log_all_bind.
  { eapply log_all_impl; [|apply capture_frames_is_capture_io].
    intros ev. destruct ev; cbn; tauto. }
  intros frame_paths.
  apply log_all_bind; [apply log_all_emit; exact I|]. intros _.
  apply log_all_bind; [apply log_all_emit; exact I|]. intros _.
  apply log_all_bind.
  { unfold OpenRouterClient. destruct (truthy _); auto with logs. }
  intros _.
  apply log_all_bind.
  { eapply log_all_impl; [|apply script_chat_with_vision_is_chat_io].
    intros ev. destruct ev; cbn; tauto. }
  intros response. destruct response; [|auto with logs].
  repeat (apply log_all_bind; [apply log_all_emit; exact I|]; intros _).
  apply log_all_emit. exact I.
Qed.

Lemma main_body_grabs (url : string) (s : St) (r : Region) :
  In (EvGrab r) (log_of (main_body fuel env args url s)) ->
  exists b v,
    outcome_of (read_geometry fuel env url s) = Ok (b, v)
    /\ r = compute_region b v
    /\ 0 < r_width r /\ 0 < r_height r.
Proof.
  intros Hin. unfold main_body in Hin. unfold read_geometry.
  destruct (helpers_are_browser_io fuel env (free_port env) url 10)
    as (Hload & _).
  destruct (helpers_are_browser_io fuel env (free_port env) url 5)
    as (_ & Hfront & Hset & Hget & Heval).
  apply grab_in_bind in Hin as (? & s1 & l1 & H1 & Hin);
    [|apply (log_all_impl _ _ _ browser_io_no_grab Hload)].
  rewrite (outcome_of_bind _ _ _ _ _ _ H1).
  apply grab_in_bind in Hin as (? & s2 & l2 & H2 & Hin);
    [|apply (log_all_impl _ _ _ browser_io_no_grab Hfront)].
  rewrite (outcome_of_bind _ _ _ _ _ _ H2).
  apply grab_in_bind in Hin as (? & s3 & l3 & H3 & Hin);
    [|apply (log_all_impl _ _ _ browser_io_no_grab (Hset _ _ _ _))].
  rewrite (outcome_of_bind _ _ _ _ _ _ H3).
  apply grab_in_bind in Hin as (bounds & s4 & l4 & H4 & Hin);
    [|apply (log_all_impl _ _ _ browser_io_no_grab Hget)].
  rewrite (outcome_of_bind _ _ _ _ _ _ H4).
  destruct (bounds_present bounds) as [b|]; [|destruct Hin].
  apply grab_in_bind in Hin as (? & s5 & l5 & H5 & Hin);
    [|apply log_all_emit; exact I].
  rewrite (outcome_of_bind _ _ _ _ _ _ H5).
  apply grab_in_bind in Hin as (viewport & s6 & l6 & H6 & Hin);
    [|apply (log_all_impl _ _ _ browser_io_no_grab Heval)].
  rewrite (outcome_of_bind _ _ _ _ _ _ H6).
  exists b, viewport. split; [reflexivity|].
  apply grab_in_bind in Hin as (? & s7 & l7 & H7 & Hin);
    [|destruct viewport; [apply log_all_emit; exact I | auto with logs]].
  destruct (r_width (compute_region b viewport) <=? 0) eqn:Hw;
    [destruct Hin|].
  destruct (r_height (compute_region b viewport) <=? 0) eqn:Hh;
    [destruct Hin|].
  cbn [orb] in Hin. apply Z.leb_gt in Hw, Hh.
  pose proof (capture_and_analysis_grabs (compute_region b viewport) s7)
    as Hall.
  rewrite Forall_forall in Hall. specialize (Hall _ Hin). cbn in Hall.
  subst r. auto.
Qed.

(** X15: the region that is grabbed is the one computed from what the
    browser reported.  In every run of [main], a grab of the screen is a
    grab of [compute_region bounds viewport], where [bounds] and [viewport]
    are the window bounds and the viewport which the steps before the
    capture read from the browser in this run, and the width and the height
    of that region are positive.  So all the grabs of a run are grabs of
    one and the same region, and nothing is grabbed when the geometry could
    not be read or gives a region with a width or height that is not
    positive. *)
Theorem every_grab_uses_one_valid_region (s : St) (r : Region)
    (Hgrab : In (EvGrab r) (log_of (main fuel env args s))) :
  exists b v,
    outcome_of (read_geometry fuel env (page_url env args) s) = Ok (b, v)
    /\ r = compute_region b v
    /\ 0 < r_width r /\ 0 < r_height r.
Proof.
  unfold main in Hgrab. unfold page_url.
  destruct (negb _ && negb _);
    [destruct Hgrab as [Hgrab|[]]; discriminate|].
  apply grab_in_bind in Hgrab as (? & s1 & l1 & H1 & Hgrab);
    [|apply log_all_emit; exact I].
  apply grab_in_bind in Hgrab as (? & s2 & l2 & H2 & Hgrab);
    [|apply log_all_emit; exact I].
  apply grab_in_bind in Hgrab as (? & s3 & l3 & H3 & Hgrab);
    [|apply log_all_external; exact I].
  injection H1 as _ <- _. injection H2 as _ <- _.
  unfold external in H3. destruct (popen_result env); [discriminate|].
  injection H3 as _ <- _.
  apply grab_in_try_finally in Hgrab; [|apply log_all_cleanup; exact I].
  apply grab_in_try_except in Hgrab;
    [|intros e; apply log_all_emit; exact I].
  apply main_body_grabs. exact Hgrab.
Qed.

End OneRegion.

Lemma every_grab_uses_one_valid_region_witness :
  exists b v,
    outcome_of (read_geometry (L := py_urllib) 20 capturing
                  (page_url capturing local_args) st0) = Ok (b, v)
    /\ mkRegion 0 90 1280 690 = compute_region b v
    /\ 0 < r_width (mkRegion 0 90 1280 690)
    /\ 0 < r_height (mkRegion 0 90 1280 690).
Proof.
  apply (every_grab_uses_one_valid_region (L := py_urllib) 20 capturing
           local_args st0 (mkRegion 0 90 1280 690)).
  vm_compute. tauto.
Defined.

(** A run that captures: the region of the specification's example. *)
Example grabs_of_a_full_run :
  count_events (fun ev => match ev with EvGrab _ => true | _ => false end)
    (log_of (main (L := py_urllib) 20 capturing local_args st0)) = 10%nat
  /\ In (EvGrab (mkRegion 0 90 1280 690))
        (log_of (main (L := py_urllib) 20 capturing local_args st0))
  /\ outcome_of (read_geometry (L := py_urllib) 20 capturing
                   (page_url capturing local_args) st0)
     = Ok (mkBounds (Some 0) (Some 30) (Some 1280) (Some 690) None,
           Some (mkViewport 0 30 1280 750 1280 690)).
Proof. vm_compute. split; [reflexivity|]. split; [tauto | reflexivity]. Qed.

(** X16: what happens before the browser runs.  A local page that does not
    exist is reported and [main] returns, with nothing created and status
    0.  When the browser cannot be started, the exception of Popen leaves
    [main] (status 1) and the profile directory, which was created just
    before, is not removed. *)
Theorem before_the_browser_starts {L : UrlLib} (fuel : nat) (env : Env)
    (args : Args) (s : St) :
  (is_http_url (html_path args) = false ->
   rf_exists (resolve_file env (html_path args)) = false ->
   main fuel env args s
   = (Ok tt, s,
      [EvPrint ("File not found: "
                ++ rf_path (resolve_file env (html_path args)))]))
  /\ (forall e,
        is_http_url (html_path args)
        || rf_exists (resolve_file env (html_path args)) = true ->
        popen_result env = Some e ->
        main fuel env args s = (Raise e, s, launch_log env args)
        /\ exit_status (outcome_of (main fuel env args s)) = Some 1
        /\ In (EvMkdtemp (temp_dir env)) (log_of (main fuel env args s))
        /\ ~ In (EvRmtree (temp_dir env)) (log_of (main fuel env args s))).
Proof.
  split.
  - intros Hurl Hfile. unfold main. rewrite Hurl, Hfile. reflexivity.
  - intros e Hpage Hpopen.
    assert (Hrun : main fuel env args s = (Raise e, s, launch_log env args)).
    { unfold main, launch_log, page_url.
      destruct (is_http_url (html_path args)); cbn [orb negb andb] in *.
      - unfold bind, emit, external. rewrite Hpopen. reflexivity.
      - rewrite Hpage. cbn [negb]. unfold bind, emit, external.
        rewrite Hpopen. reflexivity. }
    rewrite Hrun. split; [reflexivity|]. split; [reflexivity|].
    unfold launch_log. cbn [log_of snd]. split; [cbn; auto|].
    cbn. intros [H|[H|[H|[]]]]; discriminate.
Qed.

Lemma before_the_browser_starts_witness :
  main (L := py_urllib) 20 no_browser sample_args st0
  = (Raise (mkExn OSError "No such file or directory: 'google-chrome'"),
     st0, launch_log no_browser sample_args).
Proof.
  exact (proj1 (proj2 (before_the_browser_starts (L := py_urllib) 20
                         no_browser sample_args st0)
                  _ eq_refl eq_refl)).
Defined.

(** ** The endpoint of the chat client *)

Lemma ends_with_app (suffix p : string) :
  ends_with suffix (p ++ suffix) = true.
Proof.
  induction p as [|c p IH]; cbn [append ends_with].
  - destruct suffix; cbn [ends_with]; rewrite String.eqb_refl; reflexivity.
  - rewrite IH. apply orb_true_r.
Qed.

Lemma ends_with_split (suffix s : string) :
  ends_with suffix s = true -> exists p, s = (p ++ suffix)%string.
Proof.
  induction s as [|c s IH]; cbn [ends_with].
  - rewrite orb_false_r. intros H. apply String.eqb_eq in H.
    exists EmptyString. exact H.
  - intros H. apply orb_true_iff in H as [H|H].
    + apply String.eqb_eq in H. exists EmptyString. exact H.
    + destruct (IH H) as (p & ->). exists (String c p). reflexivity.
Qed.

Lemma rstrip_slash_app (p t : string) :
  rstrip_slash t <> EmptyString ->
  rstrip_slash (p ++ t) = (p ++ rstrip_slash t)%string.
Proof.
  intros Ht. induction p as [|c p IH]; cbn [append rstrip_slash];
    [reflexivity|].
  rewrite IH.
  destruct (p ++ rstrip_slash t)%string eqn:E.
  - destruct p; cbn in E; [contradiction | discriminate].
  - cbn. rewrite andb_false_r. reflexivity.
Qed.

Lemma rstrip_slash_slash (b : string) :
  rstrip_slash (b ++ "/") = rstrip_slash b.
Proof.
  induction b as [|c b IH]; cbn [append rstrip_slash]; [reflexivity|].
  rewrite IH. reflexivity.
Qed.

Lemma rstrip_slash_completions (p : string) :
  rstrip_slash (p ++ completions) = (p ++ completions)%string.
Proof. apply (rstrip_slash_app p completions). discriminate. Qed.

Lemma append_not_empty (p t : string) :
  t <> EmptyString -> (p ++ t)%string <> EmptyString.
Proof. destruct p; cbn; [auto | discriminate]. Qed.

(** X17: when OPENROUTER_BASE_URL is set and not empty, the endpoint the
    client posts to always ends with "/chat/completions"; trailing slashes
    of the variable do not matter; and the computation is idempotent: an
    endpoint it produced is left as it is. *)
Theorem endpoint_normal_form (endpoint base_url : string)
    (Hset : base_url <> EmptyString) :
  ends_with completions (endpoint_of endpoint (Some base_url)) = true
  /\ endpoint_of endpoint (Some (base_url ++ "/")%string)
     = endpoint_of endpoint (Some base_url)
  /\ endpoint_of endpoint
       (Some (endpoint_of endpoint (Some base_url)))
     = endpoint_of endpoint (Some base_url)
  /\ endpoint_of endpoint None = endpoint
  /\ endpoint_of endpoint (Some EmptyString) = endpoint.
Proof.
  assert (Htruthy : forall b, b <> EmptyString -> truthy (Some b) = Some b).
  { intros b Hb. unfold truthy. apply String.eqb_neq in Hb. rewrite Hb.
    reflexivity. }
  assert (Hends : forall b,
             ends_with completions
               (if negb (ends_with completions (rstrip_slash b))
                then (rstrip_slash b ++ completions)%string
                else rstrip_slash b) = true).
  { intros b. destruct (ends_with completions (rstrip_slash b)) eqn:E;
      cbn [negb]; [exact E | apply ends_with_app]. }
  unfold endpoint_of. rewrite (Htruthy _ Hset).
  split; [apply Hends|]. split.
  - rewrite Htruthy by (apply append_not_empty; discriminate).
    rewrite rstrip_slash_slash. reflexivity.
  - split; [|split; reflexivity].
    cbn zeta. specialize (Hends base_url).
    set (e := if negb (ends_with completions (rstrip_slash base_url))
              then (rstrip_slash base_url ++ completions)%string
              else rstrip_slash base_url) in *.
    destruct (ends_with_split _ _ Hends) as (p & Hp).
    rewrite Htruthy
      by (rewrite Hp; apply append_not_empty; discriminate).
    rewrite Hp, rstrip_slash_completions, ends_with_app. reflexivity.
Qed.

Lemma endpoint_normal_form_witness :
  ends_with completions
    (endpoint_of "https://openrouter.ai/api/v1/chat/completions"
                 (Some "http://localhost:8080/v1//"%string)) = true.
Proof.
  exact (proj1 (endpoint_normal_form
                  "https://openrouter.ai/api/v1/chat/completions"
                  "http://localhost:8080/v1//" ltac:(discriminate))).
Defined.

Example endpoint_examples :
  endpoint_of "d" (Some "http://localhost:8080/v1//"%string)
  = "http://localhost:8080/v1/chat/completions"%string
  /\ endpoint_of "d" (Some "/"%string) = "/chat/completions"%string
  /\ endpoint_of "d" (Some "http://h/chat/completions/"%string)
     = "http://h/chat/completions"%string.
Proof. repeat split. Qed.

(** ** Images as data URLs *)

Lemma prefix_data_url (mime b64 : string) :
  String.prefix "data:" (data_url mime b64) = true.
Proof.
  unfold data_url. cbn. destruct (mime ++ _)%string; reflexivity.
Qed.

(** X18: whatever the encoder of [controllers] returns is a data URL, and
    the encoder accepts its own output: given that URL again, with any
    file system and any mime argument, it returns it unchanged.  The
    encoder of the capture script has no such case: it reads the URL as a
    path and raises ValueError when no such file exists. *)
Theorem data_url_is_a_fixed_point {I : ImageLib}
    (read_bytes : string -> FileRead) (data : ImageData)
    (mime : option string) (url : string)
    (Hok : ControllersImage.encode_image_to_data_url read_bytes data mime
           = Ok url) :
  String.prefix "data:" url = true
  /\ (forall read_bytes' mime',
         ControllersImage.encode_image_to_data_url read_bytes' (ImgStr url)
                                                   mime'
         = Ok url)
  /\ (forall read_bytes' mime',
         read_bytes' url = FileMissing ->
         ScriptImage.encode_image_to_data_url read_bytes' url mime'
         = Raise (mkExn ValueError ("Image file does not exist: " ++ url))).
Proof.
  assert (Hprefix : String.prefix "data:" url = true).
  { unfold ControllersImage.encode_image_to_data_url, encode_file in Hok.
    destruct data as [s|p|raw|].
    - destruct (String.prefix "data:" s) eqn:Hs.
      + injection Hok as <-. exact Hs.
      + destruct (read_bytes s); try discriminate.
        injection Hok as <-. apply prefix_data_url.
    - destruct (read_bytes p); try discriminate.
      injection Hok as <-. apply prefix_data_url.
    - injection Hok as <-. apply prefix_data_url.
    - discriminate. }
  split; [exact Hprefix|]. split.
  - intros read_bytes' mime'. cbn. rewrite Hprefix. reflexivity.
  - intros read_bytes' mime' Hmissing.
    unfold ScriptImage.encode_image_to_data_url, encode_file.
    rewrite Hmissing. reflexivity.
Qed.

Lemma data_url_is_a_fixed_point_witness :
  String.prefix "data:" "data:image/png;base64,abc" = true.
Proof.
  exact (proj1 (data_url_is_a_fixed_point (I := sample_image_lib)
                  (fun _ => FileMissing) (ImgBytes "abc") None
                  "data:image/png;base64,abc" eq_refl)).
Defined.

(** ** The environment loader *)

Section EnvLoader.

Context {T : TextLib}.
Variable os : EnvOS.

Lemma environ_set_same (environ : Environ) (key value : string) :
  environ_set environ key value key = Some value.
Proof. unfold environ_set. now rewrite String.eqb_refl. Qed.

Lemma environ_set_other (environ : Environ) (key value k : string) :
  k <> key -> environ_set environ key value k = environ k.
Proof.
  intros Hne. unfold environ_set.
  destruct (String.eqb k key) eqn:E; [|reflexivity].
  apply String.eqb_eq in E. contradiction.
Qed.

Lemma is_set_false (environ : Environ) (key : string) :
  is_set environ key = false -> environ key = None.
Proof. unfold is_set. now destruct (environ key). Qed.

Lemma is_set_true (environ : Environ) (key v : string) :
  environ key = Some v -> is_set environ key = true.
Proof. unfold is_set. now intros ->. Qed.

(** One line is skipped, or leaves the loop, or adds a name that was not
    set. *)
Lemma line_step (environ : Environ) (line : string) :
  ((forall rest,
      set_lines os (line :: rest) environ = set_lines os rest environ)
   /\ (forall environ',
         (forall k v, environ k = Some v -> environ' k = Some v) ->
         forall rest,
           set_lines os (line :: rest) environ'
           = set_lines os rest environ'))
  \/ (forall rest, set_lines os (line :: rest) environ = environ)
  \/ (exists key value,
        assignment line = Some (key, value)
        /\ key <> EmptyString
        /\ environ key = None
        /\ putenv_raises os key value = false
        /\ forall rest,
             set_lines os (line :: rest) environ
             = set_lines os rest (environ_set environ key value)).
Proof.
  destruct (assignment line) as [[key value]|] eqn:Hline.
  - destruct (String.eqb key EmptyString) eqn:Hkey.
    + left; split; intros; cbn [set_lines]; rewrite Hline, Hkey;
        reflexivity.
    + destruct (is_set environ key) eqn:Hin.
      * left. split.
        -- intros; cbn [set_lines]; rewrite Hline, Hkey, Hin; reflexivity.
        -- intros environ' Hext rest. cbn [set_lines].
           rewrite Hline, Hkey. unfold is_set in Hin.
           destruct (environ key) as [v|] eqn:Hv; [|discriminate].
           rewrite (is_set_true _ _ _ (Hext _ _ Hv)). reflexivity.
      * destruct (putenv_raises os key value) eqn:Hput.
        -- right; left.
           intros; cbn [set_lines]; rewrite Hline, Hkey, Hin, Hput;
             reflexivity.
        -- right; right. exists key, value.
           split; [reflexivity|]. split; [intros ->; discriminate|].
           split; [now apply is_set_false|]. split; [exact Hput|].
           intros; cbn [set_lines]; rewrite Hline, Hkey, Hin, Hput;
             reflexivity.
  - left; split; intros; cbn [set_lines]; rewrite Hline; reflexivity.
Qed.

Lemma set_lines_keeps (lines : list string) :
  forall (environ : Environ) (k v : string),
    environ k = Some v -> set_lines os lines environ k = Some v.
Proof.
  induction lines as [|line rest IH]; intros environ k v Hk; [exact Hk|].
  destruct (line_step environ line)
    as [[Hskip _]|[Hstop|(key & value & _ & _ & Hnew & _ & Hset)]].
  - rewrite Hskip. now apply IH.
  - rewrite Hstop. exact Hk.
  - rewrite Hset. apply IH. rewrite environ_set_other; [exact Hk|].
    intros ->. congruence.
Qed.

Lemma parse_keeps (path : string) (environ : Environ) (k v : string) :
  environ k = Some v -> _parse_and_set_env os path environ k = Some v.
Proof.
  intros Hk. unfold _parse_and_set_env.
  destruct (file_at os path); auto using set_lines_keeps.
Qed.

Lemma load_paths_nil (environ : Environ) :
  load_paths os [] environ = environ.
Proof. reflexivity. Qed.

Lemma load_paths_cons (path : string) (paths : list string)
    (environ : Environ) :
  load_paths os (path :: paths) environ
  = load_paths os paths (visit os environ path).
Proof. reflexivity. Qed.

Lemma load_paths_app (paths1 paths2 : list string) (environ : Environ) :
  load_paths os (paths1 ++ paths2) environ
  = load_paths os paths2 (load_paths os paths1 environ).
Proof. unfold load_paths. apply fold_left_app. Qed.

Lemma visit_keeps (path : string) (environ : Environ) (k v : string) :
  environ k = Some v -> visit os environ path k = Some v.
Proof.
  intros Hk. unfold visit. destruct (is_file os path); auto using parse_keeps.
Qed.

Lemma load_paths_keeps (paths : list string) :
  forall (environ : Environ) (k v : string),
    environ k = Some v -> load_paths os paths environ k = Some v.
Proof.
  induction paths as [|path rest IH]; intros environ k v Hk; [exact Hk|].
  rewrite load_paths_cons. apply IH. now apply visit_keeps.
Qed.

Lemma set_lines_twice (lines : list string) :
  forall environ : Environ,
    set_lines os lines (set_lines os lines environ)
    = set_lines os lines environ.
Proof.
  induction lines as [|line rest IH]; intros environ; [reflexivity|].
  destruct (line_step environ line)
    as [[Hskip Hagain]|[Hstop|(key & value & Hline & Hkey & Hnew & Hput
                               & Hset)]].
  - rewrite Hskip, Hagain; [apply IH|].
    intros k v. apply set_lines_keeps.
  - now rewrite !Hstop.
  - rewrite Hset.
    assert (His : is_set (set_lines os rest (environ_set environ key value))
                    key = true).
    { apply (is_set_true _ _ value), set_lines_keeps, environ_set_same. }
    cbn [set_lines]. rewrite Hline, His, andb_false_r. apply IH.
Qed.

Lemma visit_twice (path : string) (environ : Environ) :
  visit os (visit os environ path) path = visit os environ path.
Proof.
  unfold visit, _parse_and_set_env.
  destruct (is_file os path); [|reflexivity].
  destruct (file_at os path); auto using set_lines_twice.
Qed.

Lemma set_lines_source (lines : list string) :
  forall (environ : Environ) (k v : string),
    environ k = None ->
    set_lines os lines environ k = Some v ->
    exists line, In line lines /\ assignment line = Some (k, v)
                 /\ putenv_raises os k v = false.
Proof.
  induction lines as [|line rest IH]; intros environ k v Hk Hv;
    [cbn in Hv; congruence|].
  destruct (line_step environ line)
    as [[Hskip _]|[Hstop|(key & value & Hline & Hkey & Hnew & Hput & Hset)]].
  - rewrite Hskip in Hv.
    destruct (IH _ _ _ Hk Hv) as (l & Hin & H). exists l. split; [now right|].
    exact H.
  - rewrite Hstop in Hv. congruence.
  - rewrite Hset in Hv. destruct (String.eqb k key) eqn:E.
    + apply String.eqb_eq in E. subst k.
      rewrite (set_lines_keeps rest _ key value (environ_set_same _ _ _))
        in Hv.
      injection Hv as <-. exists line. split; [now left|]. now split.
    + assert (Hne : k <> key) by (intros ->; now rewrite String.eqb_refl in E).
      assert (Hk' : environ_set environ key value k = None)
        by now rewrite environ_set_other.
      destruct (IH _ _ _ Hk' Hv) as (l & Hin & H).
      exists l. split; [now right|]. exact H.
Qed.

Lemma load_paths_source (paths : list string) :
  forall (environ : Environ) (k v : string),
    environ k = None ->
    load_paths os paths environ k = Some v ->
    exists path lines line,
      In path paths /\ file_at os path = TextLines lines
      /\ In line lines /\ assignment line = Some (k, v)
      /\ putenv_raises os k v = false.
Proof.
  induction paths as [|path rest IH]; intros environ k v Hk Hv;
    [cbn in Hv; congruence|].
  rewrite load_paths_cons in Hv.
  destruct (visit os environ path k) as [v'|] eqn:Hvisit.
  - rewrite (load_paths_keeps rest _ _ _ Hvisit) in Hv. injection Hv as <-.
    unfold visit, _parse_and_set_env in Hvisit.
    destruct (is_file os path); [|congruence].
    destruct (file_at os path) as [| |lines] eqn:Hfile; try congruence.
    destruct (set_lines_source lines _ _ _ Hk Hvisit) as (line & Hin & H).
    exists path, lines, line. split; [now left|]. now split; [|split].
  - destruct (IH _ _ _ Hvisit Hv) as (p & ls & l & Hin & H).
    exists p, ls, l. split; [now right|]. exact H.
Qed.

End EnvLoader.

(** X19: [load_environment] never changes a variable that is already set:
    whatever the files found contain, a name that has a value before the
    call has the same value after it.  What the caller exports wins over
    every .env file. *)
Theorem environment_is_never_overridden {T : TextLib} (os : EnvOS)
    (dotenv_path : option string) (st : Loader) (k v : string)
    (Hset : environ st k = Some v) :
  environ (load_environment os dotenv_path st) k = Some v.
Proof.
  unfold load_environment. destruct (initialised st); [exact Hset|].
  cbn [environ]. now apply load_paths_keeps.
Qed.

Lemma environment_is_never_overridden_witness :
  environ
    (load_environment (T := latin1_text)
       (sample_os "/app"
          (one_file "/app/.env" ["OPENROUTER_API_KEY=from-file"]%string))
       None (mkLoader false (exported "OPENROUTER_API_KEY" "exported")))
    "OPENROUTER_API_KEY"%string
  = Some "exported"%string.
Proof.
  exact (environment_is_never_overridden (T := latin1_text)
           (sample_os "/app"
              (one_file "/app/.env" ["OPENROUTER_API_KEY=from-file"]%string))
           None (mkLoader false (exported "OPENROUTER_API_KEY" "exported"))
           "OPENROUTER_API_KEY" "exported" eq_refl).
Defined.

(** X20: reading the same file twice in a row is reading it once.
    [load_environment] lists the .env of the parent of the working
    directory and the .env of the project root one after the other; when
    the parent of the working directory is the project root these are one
    file, read twice, and the second reading adds nothing: the first call
    leaves the environment it would leave without its last path. *)
Theorem same_file_listed_twice {T : TextLib} (os : EnvOS)
    (dotenv_path : option string) (st : Loader)
    (Hfirst : initialised st = false)
    (Hsame : parent os (cwd os) = project_root os) :
  environ (load_environment os dotenv_path st)
  = load_paths os (removelast (paths_to_check os dotenv_path)) (environ st).
Proof.
  unfold load_environment. rewrite Hfirst. cbn [environ].
  unfold paths_to_check. rewrite Hsame.
  set (pre := match truthy dotenv_path with
              | Some p => [path_of os p]
              | None => []
              end).
  destruct (String.eqb (project_root os) (cwd os)) eqn:E; cbn [negb].
  - apply String.eqb_eq in E. rewrite E.
    replace (removelast (pre ++ [dotenv_in os (cwd os); dotenv_in os (cwd os)]
                         ++ []))
      with (pre ++ [dotenv_in os (cwd os)])
      by (subst pre; destruct (truthy dotenv_path); reflexivity).
    rewrite !load_paths_app. cbn [app].
    rewrite !load_paths_cons, !load_paths_nil. now rewrite visit_twice.
  - replace (removelast (pre ++ [dotenv_in os (cwd os);
                                 dotenv_in os (project_root os)]
                         ++ [dotenv_in os (project_root os)]))
      with (pre ++ [dotenv_in os (cwd os); dotenv_in os (project_root os)])
      by (subst pre; destruct (truthy dotenv_path); reflexivity).
    rewrite !load_paths_app. cbn [app].
    rewrite !load_paths_cons, !load_paths_nil. now rewrite visit_twice.
Qed.

Lemma same_file_listed_twice_witness :
  paths_to_check
    (sample_os "/app/src" (one_file "/app/.env" ["A=1"; "A=2"]%string)) None
  = ["/app/src/.env"; "/app/.env"; "/app/.env"]%string
  /\ environ
       (load_environment (T := latin1_text)
          (sample_os "/app/src" (one_file "/app/.env" ["A=1"; "A=2"]%string))
          None (mkLoader false (fun _ => None)))
     = load_paths (T := latin1_text)
         (sample_os "/app/src" (one_file "/app/.env" ["A=1"; "A=2"]%string))
         ["/app/src/.env"; "/app/.env"]%string (fun _ => None).
Proof.
  split; [reflexivity|].
  exact (same_file_listed_twice (T := latin1_text)
           (sample_os "/app/src" (one_file "/app/.env" ["A=1"; "A=2"]%string))
           None (mkLoader false (fun _ => None)) eq_refl eq_refl).
Defined.

(** X21: [load_environment] invents nothing: a variable that is set after
    the call and was not set before it is assigned by a line of one of the
    files on its list, with the name and the value the line gives after
    stripping, and storing it did not raise. *)
Theorem added_variables_come_from_a_file {T : TextLib} (os : EnvOS)
    (dotenv_path : option string) (st : Loader) (k v : string)
    (Hnew : environ st k = None)
    (Hset : environ (load_environment os dotenv_path st) k = Some v) :
  initialised st = false
  /\ exists path lines line,
       In path (paths_to_check os dotenv_path)
       /\ file_at os path = TextLines lines
       /\ In line lines
       /\ assignment line = Some (k, v)
       /\ putenv_raises os k v = false.
Proof.
  unfold load_environment in Hset.
  destruct (initialised st); [congruence|]. split; [reflexivity|].
  cbn [environ] in Hset. now apply (load_paths_source os _ (environ st)).
Qed.

Lemma added_variables_come_from_a_file_witness :
  exists path lines line,
    In path
      (paths_to_check
         (sample_os "/app"
            (one_file "/app/.env" ["# model"; "  MODEL = 'm1'  "]%string))
         None)
    /\ one_file "/app/.env" ["# model"; "  MODEL = 'm1'  "]%string path
       = TextLines lines
    /\ In line lines
    /\ assignment (T := latin1_text) line = Some ("MODEL", "m1")%string.
Proof.
  destruct (added_variables_come_from_a_file (T := latin1_text)
              (sample_os "/app"
                 (one_file "/app/.env"
                    ["# model"; "  MODEL = 'm1'  "]%string))
              None (mkLoader false (fun _ => None)) "MODEL" "m1"
              eq_refl eq_refl)
    as (_ & path & lines & line & Hpath & Hfile & Hline & Hassign & _).
  exists path, lines, line. repeat split; assumption.
Defined.

(** X22: of the files read, the first that assigns a name decides its
    value: when the files before [path] on the list leave [k] unset and
    the lines of [path] give it the value [v], the call leaves [k] with
    [v], whatever the later files say.  So [dotenv_path] wins over the
    working directory, which wins over its parent and the project root. *)
Theorem first_file_to_assign_wins {T : TextLib} (os : EnvOS)
    (dotenv_path : option string) (st : Loader)
    (before after : list string) (path : string) (lines : list string)
    (k v : string)
    (Hfirst : initialised st = false)
    (Hpaths : paths_to_check os dotenv_path = before ++ path :: after)
    (Hfile : file_at os path = TextLines lines)
    (Hassigns : set_lines os lines (load_paths os before (environ st)) k
                = Some v) :
  environ (load_environment os dotenv_path st) k = Some v.
Proof.
  unfold load_environment. rewrite Hfirst, Hpaths. cbn [environ].
  rewrite load_paths_app, load_paths_cons. apply load_paths_keeps.
  unfold visit, is_file, _parse_and_set_env. rewrite Hfile. exact Hassigns.
Qed.

Lemma first_file_to_assign_wins_witness :
  environ
    (load_environment (T := latin1_text)
       (sample_os "/app/src"
          (two_files "/app/src/.env" ["MODEL=m1"]%string
                     "/app/.env" ["MODEL=m2"; "KEY=k"]%string))
       None (mkLoader false (fun _ => None)))
    "MODEL"%string
  = Some "m1"%string.
Proof.
  exact (first_file_to_assign_wins (T := latin1_text)
           (sample_os "/app/src"
              (two_files "/app/src/.env" ["MODEL=m1"]%string
                         "/app/.env" ["MODEL=m2"; "KEY=k"]%string))
           None (mkLoader false (fun _ => None))
           [] ["/app/.env"; "/app/.env"]%string "/app/src/.env"
           ["MODEL=m1"]%string "MODEL" "m1"
           eq_refl eq_refl eq_refl eq_refl).
Defined.

(** X23: a line whose assignment raises ends the reading of its file
    without a word: the lines before it have been applied, and no line
    after it is looked at.  [_parse_and_set_env] returns as if the file
    ended before that line. *)
Theorem lines_after_a_failure_are_dropped {T : TextLib} (os : EnvOS)
    (path : string) (before after : list string) (line key value : string)
    (environ : Environ)
    (Hfile : file_at os path = TextLines (before ++ line :: after))
    (Hline : assignment line = Some (key, value))
    (Hkey : key <> EmptyString)
    (Hnew : set_lines os before environ key = None)
    (Hraises : putenv_raises os key value = true) :
  _parse_and_set_env os path environ = set_lines os before environ.
Proof.
  unfold _parse_and_set_env. rewrite Hfile. clear Hfile.
  revert environ Hnew.
  induction before as [|l before IH]; intros environ Hnew.
  - cbn [app set_lines] in *. rewrite Hline.
    apply String.eqb_neq in Hkey. rewrite Hkey.
    unfold is_set. now rewrite Hnew, Hraises.
  - cbn [app].
    destruct (line_step os environ l)
      as [[Hskip _]|[Hstop|(k & v & _ & _ & _ & _ & Hset)]].
    + rewrite Hskip in Hnew. rewrite !Hskip. now apply IH.
    + now rewrite !Hstop.
    + rewrite Hset in Hnew. rewrite !Hset. now apply IH.
Qed.

Lemma lines_after_a_failure_are_dropped_witness :
  environ
    (load_environment (T := latin1_text)
       (nul_raises
          (sample_os "/app"
             (one_file "/app/.env"
                ["A=1"; with_nul "B=2"; "C=3"]%string)))
       None (mkLoader false (fun _ => None)))
    "C"%string = None
  /\ _parse_and_set_env (T := latin1_text)
       (nul_raises
          (sample_os "/app"
             (one_file "/app/.env"
                ["A=1"; with_nul "B=2"; "C=3"]%string)))
       "/app/.env" (fun _ => None)
     = set_lines (T := latin1_text)
         (nul_raises
            (sample_os "/app"
               (one_file "/app/.env"
                  ["A=1"; with_nul "B=2"; "C=3"]%string)))
         ["A=1"]%string (fun _ => None).
Proof.
  split; [reflexivity|].
  apply (lines_after_a_failure_are_dropped (T := latin1_text)
           (nul_raises
              (sample_os "/app"
                 (one_file "/app/.env"
                    ["A=1"; with_nul "B=2"; "C=3"]%string)))
           "/app/.env" ["A=1"]%string ["C=3"]%string (with_nul "B=2")
           "B" (with_nul "2")).
  - reflexivity.
  - reflexivity.
  - discriminate.
  - reflexivity.
  - reflexivity.
Defined.
